(** * Dutch Bay 150MW wind farm financial model: a shallow embedding

    The development follows the Python sources module by module:

    - [Py]: the fragment of Python and NumPy semantics the code relies on
      (exceptions, [/] and [**] that raise on a zero divisor, [max]/[min],
      [np.where] over a division that may yield an infinity, dictionaries);
    - [Model]: [dutch_bay_financial_model.py] (cash-flow engine, debt
      amortisation scheduler, ledger assembly);
    - [Irr]: [dutchbay_finmodel_enhanced.py] (NPV and the guarded IRR solver);
    - [V12]: the interface of [dutchbay_model_v12], which the last two
      modules import;
    - [Optimizer]: [optimization_enhanced.py];
    - [MonteCarlo]: [montecarlo.py].

    The definitions come first; the facts about them follow, grouped by
    source function.

    Numbers.  Python floats are idealised as exact rationals ([Q]); the
    non-finite values that NumPy can produce where the code divides arrays
    are kept as a separate type ([Py.npfloat]).  Rounding and overflow are
    outside the model.  Python integers are [Z].

    Exceptions.  A function that can raise returns [Py.res]; the only
    exceptions the financial model can raise are divisions by zero.

    Module-level constants.  The "core input parameters" of
    [dutch_bay_financial_model.py] (which its header says can be overridden)
    are gathered in the record [Model.Config]; [Model.module_constants] holds
    the values written in the source.

    Libraries outside the repository.  SciPy's root finders and minimiser,
    NumPy's random generator and the classes of [dutchbay_model_v12] are
    type classes; every statement about the code that calls them holds for
    all their instances. *)

From Stdlib Require Import ZArith QArith Qpower Qabs Lqa Lia.
From Stdlib Require Import String.
From stdpp Require Import base option list gmap strings pretty.

Local Open Scope Q_scope.

(* ====================================================================== *)
(** * Python fragment *)
(* ====================================================================== *)

Module Py.

(** Exceptions the modelled code can meet. *)
Inductive exn : Type :=
| ZeroDivisionError
| ValueError (msg : string)
| KeyError (key : string)
| TypeError (msg : string)
| AttributeError (name : string)
| IndexError
| RuntimeError (msg : string).

(** [str(e)]: the text of an exception.  It is composed by the interpreter
    and the libraries (the operand types of a [TypeError], the quoted key of
    a [KeyError], the class name in an [AttributeError]) and differs between
    their versions; the model takes it as given. *)
Class Builtins : Type := {
  str : exn -> string
}.

(** A computation either returns or raises. *)
Inductive res (A : Type) : Type :=
| Ok (a : A)
| Raise (e : exn).
Arguments Ok {A} a.
Arguments Raise {A} e.

#[export] Instance res_ret : MRet res := fun A a => Ok a.
#[export] Instance res_bind : MBind res :=
  fun A B f m => match m with Ok a => f a | Raise e => Raise e end.

(** [try: body except Exception: handler] *)
Definition try_except {A} (body : res A) (handler : exn -> res A) : res A :=
  match body with Ok a => Ok a | Raise e => handler e end.

Definition is_ok {A} (r : res A) : bool :=
  match r with Ok _ => true | Raise _ => false end.

(** Every exception that [m] can raise satisfies [P]. *)
Definition raises_only {A} (P : exn -> Prop) (m : res A) : Prop :=
  forall e, m = Raise e -> P e.

Definition zero_division (e : exn) : Prop := e = ZeroDivisionError.

(** Strict comparison on rationals, as a boolean. *)
Definition Qlt_bool (a b : Q) : bool := negb (Qle_bool b a).

(** [a / b] on Python floats. *)
Definition py_div (a b : Q) : res Q :=
  if Qeq_bool b 0 then Raise ZeroDivisionError else Ok (a / b).

(** [b ** e] for a float base and an int exponent.  Floats are exact
    rationals here: the power neither overflows (Python raises
    [OverflowError] there) nor underflows to zero. *)
Definition py_pow (b : Q) (e : Z) : res Q :=
  if (e <? 0)%Z && Qeq_bool b 0 then Raise ZeroDivisionError
  else Ok (b ^ e).

(** [max(a, b)]: the second argument wins only when strictly larger. *)
Definition py_max (a b : Q) : Q := if Qlt_bool a b then b else a.

(** [min(a, b)]: the second argument wins only when strictly smaller. *)
Definition py_min (a b : Q) : Q := if Qlt_bool b a then b else a.

(** Values of a float64 NumPy array cell. *)
Inductive npfloat : Type :=
| Fin (q : Q)
| PosInf
| NegInf
| NaN.

(** NumPy's elementwise [a / b]: never raises, a zero divisor yields an
    infinity or not-a-number. *)
Definition np_divide (a b : Q) : npfloat :=
  if Qeq_bool b 0 then
    if Qlt_bool 0 a then PosInf
    else if Qlt_bool a 0 then NegInf
    else NaN
  else Fin (a / b).

(** [np.where(cond, x, y)] on one cell; both [x] and [y] are already
    evaluated when the selection happens. *)
Definition np_where {A} (cond : bool) (x y : A) : A := if cond then x else y.

Definition is_inf (v : npfloat) : bool :=
  match v with PosInf | NegInf => true | _ => false end.

Definition is_nan (v : npfloat) : bool :=
  match v with NaN => true | _ => false end.

(** [np.maximum(a, b)] on one cell of finite values. *)
Definition np_maximum (a b : Q) : Q := if Qle_bool a b then b else a.

(** Elementwise array arithmetic on equally long arrays. *)
Definition vadd : list Q -> list Q -> list Q := zip_with Qplus.
Definition vsub : list Q -> list Q -> list Q := zip_with Qminus.
Definition vdiv : list Q -> list Q -> list Q := zip_with Qdiv.

(** [np.sum] of an array of floats. *)
Definition np_sum (l : list Q) : Q := foldl Qplus 0 l.

(** [np.ones(n)]: a negative length is refused. *)
Definition np_ones (n : Z) : res (list Q) :=
  if (n <? 0)%Z then Raise (ValueError "negative dimensions are not allowed")
  else Ok (replicate (Z.to_nat n) 1).

(** Dynamically typed values held in the dictionaries and objects that
    the code passes around.  A float is a finite one: not-a-number and the
    infinities occur only in array cells ([npfloat]). *)
#[warnings="-register-all"] Inductive pyval : Type :=
| VNone
| VBool (b : bool)
| VInt (z : Z)
| VNum (q : Q)
| VStr (s : string)
| VDict (d : gmap string pyval).

(** A dictionary with string keys; an object is seen through its
    [__dict__]. *)
Abbreviation pydict := (gmap string pyval).

(** [d[k]] *)
Definition getitem (d : pydict) (k : string) : res pyval :=
  match d !! k with Some v => Ok v | None => Raise (KeyError k) end.

(** [o.name] *)
Definition getattr (o : pydict) (name : string) : res pyval :=
  match o !! name with Some v => Ok v | None => Raise (AttributeError name) end.

(** A value used as an operand of float arithmetic. *)
Definition as_num (v : pyval) : res Q :=
  match v with
  | VNum q => Ok q
  | VInt z => Ok (inject_Z z)
  | VBool b => Ok (if b then 1 else 0)
  | _ => Raise (TypeError "unsupported operand type(s)")
  end.

(** [a[i]] on an array. *)
Definition index {A} (a : list A) (i : nat) : res A :=
  match a !! i with Some v => Ok v | None => Raise IndexError end.

(** [x1, x2, x3 = x] *)
Definition unpack3 (x : list Q) : res (Q * Q * Q) :=
  match x with
  | [x1; x2; x3] => Ok (x1, x2, x3)
  | _ => Raise (ValueError "wrong number of values to unpack")
  end.

End Py.
Import Py.

(* ====================================================================== *)
(** * dutch_bay_financial_model.py *)
(* ====================================================================== *)

Module Model.

(** The module-level constants. *)
Record Config : Type := {
  PROJECT_YEARS : Z;
  NAMEPLATE_MW : Z;
  CF_P50 : Q;
  YEARLY_DEGRADATION : Q;
  HOURS_PER_YEAR : Z;
  TARIFF_LKR_KWH : Q;
  FX_INITIAL : Z;
  FX_DEPR : Q;
  OPEX_USD_MWH : Q;
  OPEX_ESC_USD : Q;
  OPEX_ESC_LKR : Q;
  OPEX_SPLIT_USD : Q;
  OPEX_SPLIT_LKR : Q;
  CAPEX_TOTAL : Q;
  ECON_LIFE : Z;
  SSCL_RATE : Q;
  TAX_RATE : Q;
  USD_DEBT_INIT : Q;
  LKR_DEBT_INIT : Q;
  USD_DEBT_RATE : Q;
  LKR_DEBT_RATE : Q;
  USD_DEBT_TENOR : Z;
  LKR_DEBT_TENOR : Z;
  GRACE_PERIOD : Z;
  PRINCIPAL_PCT_1_4 : Q;
  PRINCIPAL_PCT_5_ON : Q
}.

(** The values written in the source. *)
Definition module_constants : Config := {|
  PROJECT_YEARS := 20;
  NAMEPLATE_MW := 150;
  CF_P50 := 0.40;
  YEARLY_DEGRADATION := 0.006;
  HOURS_PER_YEAR := 8760;
  TARIFF_LKR_KWH := 20.36;
  FX_INITIAL := 300;
  FX_DEPR := 0.03;
  OPEX_USD_MWH := 6.83;
  OPEX_ESC_USD := 0.02;
  OPEX_ESC_LKR := 0.05;
  OPEX_SPLIT_USD := 0.3;
  OPEX_SPLIT_LKR := 0.7;
  CAPEX_TOTAL := 146.38;
  ECON_LIFE := 20;
  SSCL_RATE := 0.025;
  TAX_RATE := 0.30;
  USD_DEBT_INIT := 56.36;
  LKR_DEBT_INIT := 13833.0;
  USD_DEBT_RATE := 0.07;
  LKR_DEBT_RATE := 0.07;
  USD_DEBT_TENOR := 15;
  LKR_DEBT_TENOR := 15;
  GRACE_PERIOD := 1;
  PRINCIPAL_PCT_1_4 := 0.80;
  PRINCIPAL_PCT_5_ON := 0.20
|}.

Section Engine.
Variable c : Config.

Definition compute_generation (year : Z) : res Q :=
  p ← py_pow (1 - YEARLY_DEGRADATION c) (year - 1);
  mret (inject_Z (NAMEPLATE_MW c * HOURS_PER_YEAR c) * CF_P50 c * p).

Definition compute_fx (year : Z) : res Q :=
  p ← py_pow (1 + FX_DEPR c) (year - 1);
  mret (inject_Z (FX_INITIAL c) * p).

Definition compute_tariff_usd (year : Z) : res Q :=
  fx ← compute_fx year;
  t ← py_div (TARIFF_LKR_KWH c) fx;
  mret (t * 1000).

Definition compute_revenue (year : Z) : res Q :=
  gen ← compute_generation year;
  tariff_usd ← compute_tariff_usd year;
  mret (gen * tariff_usd / 1000000).

Definition compute_sscl (year : Z) : res Q :=
  r ← compute_revenue year;
  mret (r * SSCL_RATE c).

Definition compute_opex (year : Z) : res Q :=
  gen ← compute_generation year;
  fx ← compute_fx year;
  pu ← py_pow (1 + OPEX_ESC_USD c) (year - 1);
  let usd_portion := OPEX_USD_MWH c * OPEX_SPLIT_USD c * pu in
  pl ← py_pow (1 + OPEX_ESC_LKR c) (year - 1);
  let lkr_portion_base := OPEX_USD_MWH c * OPEX_SPLIT_LKR c * pl in
  ratio ← py_div fx (inject_Z (FX_INITIAL c));
  lkr_portion_usd ← py_div lkr_portion_base ratio;
  mret (gen * (usd_portion + lkr_portion_usd) / 1000000).

Definition compute_depreciation : res Q :=
  py_div (CAPEX_TOTAL c) (inject_Z (ECON_LIFE c)).

(** The EBITDA-to-operating-cash-flow chain as the scheduler writes it. *)
Record OpChain : Type := {
  oc_ebitda : Q;
  oc_da : Q;
  oc_ebit : Q;
  oc_tax : Q;
  oc_op_cf : Q
}.

(** The scheduler's mutable state: the two outstanding balances. *)
Record Balances : Type := {
  usd_bal : Q;
  lkr_bal : Q
}.

(** The local variables of one pass through the scheduler's loop body,
    with the balances as they stand at the end of the pass. *)
Record YearPass : Type := {
  yp_year : Z;
  yp_usd_int : Q;
  yp_lkr_int : Q;
  yp_fx : Q;
  yp_lkr_int_usd : Q;
  yp_chain : OpChain;
  yp_op_cf_avail : Q;
  yp_usd_prin : Q;
  yp_lkr_prin : Q;
  yp_lkr_ds : Q;
  yp_before : Balances;
  yp_after : Balances
}.

(** The hard-currency principal policy: the [if]/[elif] ladder. *)
Definition usd_policy (year : Z) (bal op_cf_avail : Q) : Q :=
  if (year =? 1)%Z && (GRACE_PERIOD c =? 1)%Z then 0
  else if (2 <=? year)%Z && (year <=? 4)%Z then
    py_min bal (PRINCIPAL_PCT_1_4 c * op_cf_avail)
  else if (4 <? year)%Z then
    py_min bal (PRINCIPAL_PCT_5_ON c * op_cf_avail)
  else 0.

(** The local-currency principal policy. *)
Definition lkr_policy (year : Z) (bal : Q) : res Q :=
  if (year <=? LKR_DEBT_TENOR c)%Z then
    py_div bal (inject_Z (LKR_DEBT_TENOR c - year + 1))
  else mret 0.

(** One iteration of [for year in range(1, PROJECT_YEARS + 1)]. *)
Definition year_pass (year : Z) (b : Balances) : res YearPass :=
  let usd_int := usd_bal b * USD_DEBT_RATE c in
  let lkr_int := lkr_bal b * LKR_DEBT_RATE c in
  fx ← compute_fx year;
  lkr_int_usd ← py_div lkr_int fx;
  rev ← compute_revenue year;
  sscl ← compute_sscl year;
  opex ← compute_opex year;
  let ebitda := rev - sscl - opex in
  da ← compute_depreciation;
  let ebit := ebitda - da in
  let tax := py_max 0 (ebit * TAX_RATE c) in
  let op_cf := ebit - tax + da in
  let op_cf_avail := op_cf - usd_int - lkr_int_usd in
  let usd_prin := usd_policy year (usd_bal b) op_cf_avail in
  let usd_bal' := py_max 0 (usd_bal b - usd_prin) in
  lkr_prin ← lkr_policy year (lkr_bal b);
  let lkr_bal' := py_max 0 (lkr_bal b - lkr_prin) in
  let lkr_ds := lkr_int + lkr_prin in
  mret {| yp_year := year;
          yp_usd_int := usd_int;
          yp_lkr_int := lkr_int;
          yp_fx := fx;
          yp_lkr_int_usd := lkr_int_usd;
          yp_chain := {| oc_ebitda := ebitda; oc_da := da; oc_ebit := ebit;
                         oc_tax := tax; oc_op_cf := op_cf |};
          yp_op_cf_avail := op_cf_avail;
          yp_usd_prin := usd_prin;
          yp_lkr_prin := lkr_prin;
          yp_lkr_ds := lkr_ds;
          yp_before := b;
          yp_after := {| usd_bal := usd_bal'; lkr_bal := lkr_bal' |} |}.

(** The loop: the balances are threaded from one pass to the next. *)
Fixpoint run_years (years : list Z) (b : Balances) : res (list YearPass) :=
  match years with
  | [] => mret []
  | year :: rest =>
      p ← year_pass year b;
      ps ← run_years rest (yp_after p);
      mret (p :: ps)
  end.

(** [range(1, PROJECT_YEARS + 1)] *)
Definition years_range : list Z := seqZ 1 (PROJECT_YEARS c).

Definition initial_balances : Balances :=
  {| usd_bal := USD_DEBT_INIT c; lkr_bal := LKR_DEBT_INIT c |}.

(** The scheduler with its locals kept, one entry per year. *)
Definition debt_schedule_passes : res (list YearPass) :=
  run_years years_range initial_balances.

(** What [compute_debt_schedule] returns: five arrays. *)
Record DebtSchedule : Type := {
  ds_usd_prin : list Q;
  ds_usd_int : list Q;
  ds_lkr_prin : list Q;
  ds_lkr_int : list Q;
  ds_lkr_ds : list Q
}.

Definition compute_debt_schedule : res DebtSchedule :=
  ps ← debt_schedule_passes;
  mret {| ds_usd_prin := yp_usd_prin <$> ps;
          ds_usd_int := yp_usd_int <$> ps;
          ds_lkr_prin := yp_lkr_prin <$> ps;
          ds_lkr_int := yp_lkr_int <$> ps;
          ds_lkr_ds := yp_lkr_ds <$> ps |}.

(** The DataFrame that [build_full_model] returns, column by column. *)
Record Ledger : Type := {
  Year : list Z;
  Generation_MWh : list Q;
  FX : list Q;
  Tariff_USD_MWh : list Q;
  Revenue_USD_M : list Q;
  SSCL_USD_M : list Q;
  OPEX_USD_M : list Q;
  EBITDA : list Q;
  DA : list Q;
  EBIT : list Q;
  Tax : list Q;
  Op_CF : list Q;
  USD_Int : list Q;
  USD_Prin : list Q;
  LKR_Int : list Q;
  LKR_Prin : list Q;
  Total_DS : list Q;
  DSCR : list npfloat;
  Eq_CF : list Q
}.

(** One cell of [np.where(total_ds > 1e-6, op_cf / total_ds, np.nan)]. *)
Definition dscr_cell (op_cf total_ds : Q) : npfloat :=
  np_where (Qlt_bool 1e-6 total_ds) (np_divide op_cf total_ds) NaN.

(** The array divisions [lkr_int / fx] and [lkr_prin / fx] are written
    with [vdiv]: the scheduler has by then divided by every one of these
    FX rates without raising, so none of them is zero (lemma
    [ledger_row_debt] below). *)
Definition build_full_model : res Ledger :=
  let years := years_range in
  gen ← mapM compute_generation years;
  fx ← mapM compute_fx years;
  tariff_usd ← mapM compute_tariff_usd years;
  revenue ← mapM compute_revenue years;
  sscl ← mapM compute_sscl years;
  opex ← mapM compute_opex years;
  d ← compute_depreciation;
  ones ← np_ones (PROJECT_YEARS c);
  let da := Qmult d <$> ones in
  let ebitda := vsub (vsub revenue sscl) opex in
  let ebit := vsub ebitda da in
  let tax := (fun e => np_maximum 0 (e * TAX_RATE c)) <$> ebit in
  let op_cf := vadd (vsub ebit tax) da in
  s ← compute_debt_schedule;
  let lkr_int_usd := vdiv (ds_lkr_int s) fx in
  let lkr_prin_usd := vdiv (ds_lkr_prin s) fx in
  let total_ds :=
    vadd (vadd (vadd (ds_usd_int s) (ds_usd_prin s)) lkr_int_usd)
         lkr_prin_usd in
  let dscr := zip_with dscr_cell op_cf total_ds in
  let eq_cf := vsub op_cf total_ds in
  mret {| Year := years;
          Generation_MWh := gen;
          FX := fx;
          Tariff_USD_MWh := tariff_usd;
          Revenue_USD_M := revenue;
          SSCL_USD_M := sscl;
          OPEX_USD_M := opex;
          EBITDA := ebitda;
          DA := da;
          EBIT := ebit;
          Tax := tax;
          Op_CF := op_cf;
          USD_Int := ds_usd_int s;
          USD_Prin := ds_usd_prin s;
          LKR_Int := lkr_int_usd;
          LKR_Prin := lkr_prin_usd;
          Total_DS := total_ds;
          DSCR := dscr;
          Eq_CF := eq_cf |}.

End Engine.

(** One row of the DataFrame, as [df.iloc[i]] or [df.iterrows()] gives it. *)
Record LedgerRow : Type := {
  r_Year : Z;
  r_Generation_MWh : Q;
  r_FX : Q;
  r_Tariff_USD_MWh : Q;
  r_Revenue_USD_M : Q;
  r_SSCL_USD_M : Q;
  r_OPEX_USD_M : Q;
  r_EBITDA : Q;
  r_DA : Q;
  r_EBIT : Q;
  r_Tax : Q;
  r_Op_CF : Q;
  r_USD_Int : Q;
  r_USD_Prin : Q;
  r_LKR_Int : Q;
  r_LKR_Prin : Q;
  r_Total_DS : Q;
  r_DSCR : npfloat;
  r_Eq_CF : Q
}.

Definition ledger_row (df : Ledger) (i : nat) : option LedgerRow :=
  year ← Year df !! i;
  gen ← Generation_MWh df !! i;
  fx ← FX df !! i;
  tariff ← Tariff_USD_MWh df !! i;
  revenue ← Revenue_USD_M df !! i;
  sscl ← SSCL_USD_M df !! i;
  opex ← OPEX_USD_M df !! i;
  ebitda ← EBITDA df !! i;
  da ← DA df !! i;
  ebit ← EBIT df !! i;
  tax ← Tax df !! i;
  op_cf ← Op_CF df !! i;
  usd_int ← USD_Int df !! i;
  usd_prin ← USD_Prin df !! i;
  lkr_int ← LKR_Int df !! i;
  lkr_prin ← LKR_Prin df !! i;
  total_ds ← Total_DS df !! i;
  dscr ← DSCR df !! i;
  eq_cf ← Eq_CF df !! i;
  Some {| r_Year := year; r_Generation_MWh := gen; r_FX := fx;
          r_Tariff_USD_MWh := tariff; r_Revenue_USD_M := revenue;
          r_SSCL_USD_M := sscl; r_OPEX_USD_M := opex; r_EBITDA := ebitda;
          r_DA := da; r_EBIT := ebit; r_Tax := tax; r_Op_CF := op_cf;
          r_USD_Int := usd_int; r_USD_Prin := usd_prin; r_LKR_Int := lkr_int;
          r_LKR_Prin := lkr_prin; r_Total_DS := total_ds; r_DSCR := dscr;
          r_Eq_CF := eq_cf |}.

(** What a pass of the loop body that returned [p] has computed, starting
    from the balances [b]. *)
Record pass_computed (c : Config) (year : Z) (b : Balances) (p : YearPass)
  : Prop := {
  pc_year : yp_year p = year;
  pc_before : yp_before p = b;
  pc_usd_int : yp_usd_int p = usd_bal b * USD_DEBT_RATE c;
  pc_lkr_int : yp_lkr_int p = lkr_bal b * LKR_DEBT_RATE c;
  pc_fx : compute_fx c year = Ok (yp_fx p);
  pc_lkr_int_usd : py_div (yp_lkr_int p) (yp_fx p) = Ok (yp_lkr_int_usd p);
  pc_op_cf_avail :
    yp_op_cf_avail p
    = oc_op_cf (yp_chain p) - yp_usd_int p - yp_lkr_int_usd p;
  pc_usd_prin :
    yp_usd_prin p = usd_policy c year (usd_bal b) (yp_op_cf_avail p);
  pc_lkr_prin : lkr_policy c year (lkr_bal b) = Ok (yp_lkr_prin p);
  pc_lkr_ds : yp_lkr_ds p = yp_lkr_int p + yp_lkr_prin p;
  pc_usd_after : usd_bal (yp_after p) = py_max 0 (usd_bal b - yp_usd_prin p);
  pc_lkr_after : lkr_bal (yp_after p) = py_max 0 (lkr_bal b - yp_lkr_prin p)
}.

(** What a run of [build_full_model] that returned [df] has established:
    [d] is the depreciation amount and [s] the debt schedule it called for. *)
Record ledger_built (c : Config) (df : Ledger) (d : Q) (s : DebtSchedule)
  : Prop := {
  lb_Year : Year df = years_range c;
  lb_Generation :
    mapM (compute_generation c) (years_range c) = Ok (Generation_MWh df);
  lb_FX : mapM (compute_fx c) (years_range c) = Ok (FX df);
  lb_Tariff :
    mapM (compute_tariff_usd c) (years_range c) = Ok (Tariff_USD_MWh df);
  lb_Revenue :
    mapM (compute_revenue c) (years_range c) = Ok (Revenue_USD_M df);
  lb_SSCL : mapM (compute_sscl c) (years_range c) = Ok (SSCL_USD_M df);
  lb_OPEX : mapM (compute_opex c) (years_range c) = Ok (OPEX_USD_M df);
  lb_depreciation : compute_depreciation c = Ok d;
  lb_horizon : (0 <= PROJECT_YEARS c)%Z;
  lb_schedule : compute_debt_schedule c = Ok s;
  lb_EBITDA :
    EBITDA df = vsub (vsub (Revenue_USD_M df) (SSCL_USD_M df)) (OPEX_USD_M df);
  lb_DA : DA df = Qmult d <$> replicate (Z.to_nat (PROJECT_YEARS c)) 1;
  lb_EBIT : EBIT df = vsub (EBITDA df) (DA df);
  lb_Tax : Tax df = (fun e => np_maximum 0 (e * TAX_RATE c)) <$> EBIT df;
  lb_Op_CF : Op_CF df = vadd (vsub (EBIT df) (Tax df)) (DA df);
  lb_USD_Int : USD_Int df = ds_usd_int s;
  lb_USD_Prin : USD_Prin df = ds_usd_prin s;
  lb_LKR_Int : LKR_Int df = vdiv (ds_lkr_int s) (FX df);
  lb_LKR_Prin : LKR_Prin df = vdiv (ds_lkr_prin s) (FX df);
  lb_Total_DS :
    Total_DS df
    = vadd (vadd (vadd (USD_Int df) (USD_Prin df)) (LKR_Int df))
           (LKR_Prin df);
  lb_DSCR : DSCR df = zip_with dscr_cell (Op_CF df) (Total_DS df);
  lb_Eq_CF : Eq_CF df = vsub (Op_CF df) (Total_DS df)
}.

(** Row [i] of the ledger, cell by cell. *)
Record row_of (df : Ledger) (i : nat) (r : LedgerRow) : Prop := {
  ro_Year : Year df !! i = Some (r_Year r);
  ro_Generation : Generation_MWh df !! i = Some (r_Generation_MWh r);
  ro_FX : FX df !! i = Some (r_FX r);
  ro_Tariff : Tariff_USD_MWh df !! i = Some (r_Tariff_USD_MWh r);
  ro_Revenue : Revenue_USD_M df !! i = Some (r_Revenue_USD_M r);
  ro_SSCL : SSCL_USD_M df !! i = Some (r_SSCL_USD_M r);
  ro_OPEX : OPEX_USD_M df !! i = Some (r_OPEX_USD_M r);
  ro_EBITDA : EBITDA df !! i = Some (r_EBITDA r);
  ro_DA : DA df !! i = Some (r_DA r);
  ro_EBIT : EBIT df !! i = Some (r_EBIT r);
  ro_Tax : Tax df !! i = Some (r_Tax r);
  ro_Op_CF : Op_CF df !! i = Some (r_Op_CF r);
  ro_USD_Int : USD_Int df !! i = Some (r_USD_Int r);
  ro_USD_Prin : USD_Prin df !! i = Some (r_USD_Prin r);
  ro_LKR_Int : LKR_Int df !! i = Some (r_LKR_Int r);
  ro_LKR_Prin : LKR_Prin df !! i = Some (r_LKR_Prin r);
  ro_Total_DS : Total_DS df !! i = Some (r_Total_DS r);
  ro_DSCR : DSCR df !! i = Some (r_DSCR r);
  ro_Eq_CF : Eq_CF df !! i = Some (r_Eq_CF r)
}.

(** Every column has [n] cells. *)
Record columns_of_length (df : Ledger) (n : nat) : Prop := {
  cl_Year : length (Year df) = n;
  cl_Generation : length (Generation_MWh df) = n;
  cl_FX : length (FX df) = n;
  cl_Tariff : length (Tariff_USD_MWh df) = n;
  cl_Revenue : length (Revenue_USD_M df) = n;
  cl_SSCL : length (SSCL_USD_M df) = n;
  cl_OPEX : length (OPEX_USD_M df) = n;
  cl_EBITDA : length (EBITDA df) = n;
  cl_DA : length (DA df) = n;
  cl_EBIT : length (EBIT df) = n;
  cl_Tax : length (Tax df) = n;
  cl_Op_CF : length (Op_CF df) = n;
  cl_USD_Int : length (USD_Int df) = n;
  cl_USD_Prin : length (USD_Prin df) = n;
  cl_LKR_Int : length (LKR_Int df) = n;
  cl_LKR_Prin : length (LKR_Prin df) = n;
  cl_Total_DS : length (Total_DS df) = n;
  cl_DSCR : length (DSCR df) = n;
  cl_Eq_CF : length (Eq_CF df) = n
}.

(** Each pass starts from the balances the previous one left. *)
Fixpoint chained (b : Balances) (ps : list YearPass) : Prop :=
  match ps with
  | [] => True
  | p :: rest => yp_before p = b /\ chained (yp_after p) rest
  end.

(** What a pass leaves of the balances it found: both stay non-negative,
    the local-currency balance does not grow, and the hard-currency balance
    does not grow when the principal computed for the year is not negative. *)
Definition balances_kept (p : YearPass) : Prop :=
  0 <= usd_bal (yp_before p) /\ 0 <= lkr_bal (yp_before p) /\
  0 <= usd_bal (yp_after p) /\ 0 <= lkr_bal (yp_after p) /\
  lkr_bal (yp_after p) <= lkr_bal (yp_before p) /\
  (0 <= yp_usd_prin p -> usd_bal (yp_after p) <= usd_bal (yp_before p)).

(** The balances with which the loop ends: those the last pass left, or the
    initial ones when there is no pass. *)
Definition closing_balances (b : Balances) (ps : list YearPass) : Balances :=
  default b (yp_after <$> last ps).

(** The local-currency balance expected before [year] under equal-principal
    amortisation of [LKR_DEBT_INIT] over [LKR_DEBT_TENOR] years. *)
Definition straight_line_balance (c : Config) (year : Z) : Q :=
  LKR_DEBT_INIT c * inject_Z (Z.max 0 (LKR_DEBT_TENOR c - year + 1))
  / inject_Z (LKR_DEBT_TENOR c).

(** The cash flow that would be left for principal in [year] had nothing
    been repaid before: the loop body run on the initial balances. *)
Definition avail_at_initial_balances (c : Config) (year : Z) : res Q :=
  p ← year_pass c year (initial_balances c);
  mret (yp_op_cf_avail p).

(** No project year is short of cash at the initial balances. *)
Definition never_short (c : Config) : bool :=
  forallb (fun year =>
             match avail_at_initial_balances c year with
             | Ok a => Qle_bool 0 a
             | Raise _ => false
             end)
          (years_range c).

(** Rates and shares are not negative, FX rates are positive, and no year is
    short of cash at the initial balances. *)
Definition well_funded (c : Config) : Prop :=
  0 <= USD_DEBT_RATE c /\ 0 <= LKR_DEBT_RATE c /\
  0 <= PRINCIPAL_PCT_1_4 c /\ 0 <= PRINCIPAL_PCT_5_ON c /\
  (0 < FX_INITIAL c)%Z /\ 0 < 1 + FX_DEPR c /\
  never_short c = true.

(** The hard-currency principal of a pass is not negative and the balance
    does not grow. *)
Definition usd_repaid (p : YearPass) : Prop :=
  0 <= yp_usd_prin p /\ usd_bal (yp_after p) <= usd_bal (yp_before p).

(** ** Configurations on which no division raises *)

(** Year [year] of the loop body divides by the FX rate, by
    [FX(year) / FX_INITIAL] and by the economic life. *)
Definition year_defined (c : Config) (year : Z) : Prop :=
  (1 <= year)%Z /\ ECON_LIFE c <> 0%Z /\ FX_INITIAL c <> 0%Z /\
  ((2 <= year)%Z -> ~ 1 + FX_DEPR c == 0).

Definition schedule_defined (c : Config) : Prop :=
  (1 <= PROJECT_YEARS c)%Z ->
  ECON_LIFE c <> 0%Z /\ FX_INITIAL c <> 0%Z /\
  ((2 <= PROJECT_YEARS c)%Z -> ~ 1 + FX_DEPR c == 0).

Definition ledger_defined (c : Config) : Prop :=
  (0 <= PROJECT_YEARS c)%Z /\ ECON_LIFE c <> 0%Z /\
  ((1 <= PROJECT_YEARS c)%Z -> FX_INITIAL c <> 0%Z) /\
  ((2 <= PROJECT_YEARS c)%Z -> ~ 1 + FX_DEPR c == 0).

(** ** Overriding one constant *)

Definition with_GRACE_PERIOD (g : Z) (c : Config) : Config := {|
  PROJECT_YEARS := PROJECT_YEARS c; NAMEPLATE_MW := NAMEPLATE_MW c;
  CF_P50 := CF_P50 c; YEARLY_DEGRADATION := YEARLY_DEGRADATION c;
  HOURS_PER_YEAR := HOURS_PER_YEAR c; TARIFF_LKR_KWH := TARIFF_LKR_KWH c;
  FX_INITIAL := FX_INITIAL c; FX_DEPR := FX_DEPR c;
  OPEX_USD_MWH := OPEX_USD_MWH c; OPEX_ESC_USD := OPEX_ESC_USD c;
  OPEX_ESC_LKR := OPEX_ESC_LKR c; OPEX_SPLIT_USD := OPEX_SPLIT_USD c;
  OPEX_SPLIT_LKR := OPEX_SPLIT_LKR c; CAPEX_TOTAL := CAPEX_TOTAL c;
  ECON_LIFE := ECON_LIFE c; SSCL_RATE := SSCL_RATE c; TAX_RATE := TAX_RATE c;
  USD_DEBT_INIT := USD_DEBT_INIT c; LKR_DEBT_INIT := LKR_DEBT_INIT c;
  USD_DEBT_RATE := USD_DEBT_RATE c; LKR_DEBT_RATE := LKR_DEBT_RATE c;
  USD_DEBT_TENOR := USD_DEBT_TENOR c; LKR_DEBT_TENOR := LKR_DEBT_TENOR c;
  GRACE_PERIOD := g;
  PRINCIPAL_PCT_1_4 := PRINCIPAL_PCT_1_4 c;
  PRINCIPAL_PCT_5_ON := PRINCIPAL_PCT_5_ON c
|}.

Definition with_CF_P50 (cf : Q) (c : Config) : Config := {|
  PROJECT_YEARS := PROJECT_YEARS c; NAMEPLATE_MW := NAMEPLATE_MW c;
  CF_P50 := cf; YEARLY_DEGRADATION := YEARLY_DEGRADATION c;
  HOURS_PER_YEAR := HOURS_PER_YEAR c; TARIFF_LKR_KWH := TARIFF_LKR_KWH c;
  FX_INITIAL := FX_INITIAL c; FX_DEPR := FX_DEPR c;
  OPEX_USD_MWH := OPEX_USD_MWH c; OPEX_ESC_USD := OPEX_ESC_USD c;
  OPEX_ESC_LKR := OPEX_ESC_LKR c; OPEX_SPLIT_USD := OPEX_SPLIT_USD c;
  OPEX_SPLIT_LKR := OPEX_SPLIT_LKR c; CAPEX_TOTAL := CAPEX_TOTAL c;
  ECON_LIFE := ECON_LIFE c; SSCL_RATE := SSCL_RATE c; TAX_RATE := TAX_RATE c;
  USD_DEBT_INIT := USD_DEBT_INIT c; LKR_DEBT_INIT := LKR_DEBT_INIT c;
  USD_DEBT_RATE := USD_DEBT_RATE c; LKR_DEBT_RATE := LKR_DEBT_RATE c;
  USD_DEBT_TENOR := USD_DEBT_TENOR c; LKR_DEBT_TENOR := LKR_DEBT_TENOR c;
  GRACE_PERIOD := GRACE_PERIOD c;
  PRINCIPAL_PCT_1_4 := PRINCIPAL_PCT_1_4 c;
  PRINCIPAL_PCT_5_ON := PRINCIPAL_PCT_5_ON c
|}.

Definition with_PROJECT_YEARS (n : Z) (c : Config) : Config := {|
  PROJECT_YEARS := n; NAMEPLATE_MW := NAMEPLATE_MW c;
  CF_P50 := CF_P50 c; YEARLY_DEGRADATION := YEARLY_DEGRADATION c;
  HOURS_PER_YEAR := HOURS_PER_YEAR c; TARIFF_LKR_KWH := TARIFF_LKR_KWH c;
  FX_INITIAL := FX_INITIAL c; FX_DEPR := FX_DEPR c;
  OPEX_USD_MWH := OPEX_USD_MWH c; OPEX_ESC_USD := OPEX_ESC_USD c;
  OPEX_ESC_LKR := OPEX_ESC_LKR c; OPEX_SPLIT_USD := OPEX_SPLIT_USD c;
  OPEX_SPLIT_LKR := OPEX_SPLIT_LKR c; CAPEX_TOTAL := CAPEX_TOTAL c;
  ECON_LIFE := ECON_LIFE c; SSCL_RATE := SSCL_RATE c; TAX_RATE := TAX_RATE c;
  USD_DEBT_INIT := USD_DEBT_INIT c; LKR_DEBT_INIT := LKR_DEBT_INIT c;
  USD_DEBT_RATE := USD_DEBT_RATE c; LKR_DEBT_RATE := LKR_DEBT_RATE c;
  USD_DEBT_TENOR := USD_DEBT_TENOR c; LKR_DEBT_TENOR := LKR_DEBT_TENOR c;
  GRACE_PERIOD := GRACE_PERIOD c;
  PRINCIPAL_PCT_1_4 := PRINCIPAL_PCT_1_4 c;
  PRINCIPAL_PCT_5_ON := PRINCIPAL_PCT_5_ON c
|}.

(** A low-wind year after year: the source's constants with a capacity
    factor of 5%. *)
Definition low_wind : Config := with_CF_P50 0.05 module_constants.

(** A 25-year horizon over the 20-year economic life. *)
Definition long_horizon : Config := with_PROJECT_YEARS 25 module_constants.

End Model.

(* ====================================================================== *)
(** * dutchbay_finmodel_enhanced.py *)
(* ====================================================================== *)

Module Irr.

(** The root finders of [scipy.optimize].  They are handed the objective
    (and, for [newton], its derivative) and either return a rate or raise. *)
Class Solvers : Type := {
  brentq : (Q -> res Q) -> Q -> Q -> Q -> Z -> res Q;
  newton : (Q -> res Q) -> Q -> (Q -> res Q) -> Q -> Z -> res Q
}.

(** [[cf / (1 + rate) ** i for i, cf in enumerate(cash_flows)]], the
    enumeration starting at [i].  The discount factors are exact: the
    overflow and the underflow of the float power are outside the model. *)
Fixpoint npv_terms (rate : Q) (i : Z) (cash_flows : list Q) : res (list Q) :=
  match cash_flows with
  | [] => mret []
  | cf :: rest =>
      p ← py_pow (1 + rate) i;
      t ← py_div cf p;
      ts ← npv_terms rate (i + 1) rest;
      mret (t :: ts)
  end.

Definition calculate_npv (rate : Q) (cash_flows : list Q) : res Q :=
  ts ← npv_terms rate 0 cash_flows;
  mret (np_sum ts).

(** [[i * cf / (1 + rate) ** (i + 1) for i, cf in enumerate(cash_flows)]] *)
Fixpoint npv_derivative_terms (rate : Q) (i : Z) (cash_flows : list Q)
  : res (list Q) :=
  match cash_flows with
  | [] => mret []
  | cf :: rest =>
      p ← py_pow (1 + rate) (i + 1);
      t ← py_div (inject_Z i * cf) p;
      ts ← npv_derivative_terms rate (i + 1) rest;
      mret (t :: ts)
  end.

Definition npv_derivative (rate : Q) (cash_flows : list Q) : res Q :=
  ts ← npv_derivative_terms rate 0 cash_flows;
  mret (- np_sum ts).

(** Number of adjacent pairs whose product is negative.  The product is the
    exact one: a float product so small that it rounds to zero is outside
    the model. *)
Fixpoint sign_changes (cash_flows : list Q) : nat :=
  match cash_flows with
  | a :: (b :: _) as rest =>
      ((if Qlt_bool (a * b) 0 then 1 else 0) + sign_changes rest)%nat
  | _ => 0%nat
  end.

(** [np.all(np.array(cash_flows) >= 0)] and [np.all(... <= 0)] *)
Definition all_nonnegative (cash_flows : list Q) : bool :=
  forallb (fun cf => Qle_bool 0 cf) cash_flows.

Definition all_nonpositive (cash_flows : list Q) : bool :=
  forallb (fun cf => Qle_bool cf 0) cash_flows.

Definition msg_too_few : string := "Need at least 2 cash flows".
Definition msg_no_negative : string := "No negative cash flows - IRR undefined".
Definition msg_no_positive : string := "No positive cash flows - IRR undefined".

(** The dictionary returned by the three input guards. *)
Definition guard_error (message : string) : pydict :=
  {[ "irr" := VNone; "status" := VStr "ERROR";
     "message" := VStr message; "method" := VNone ]}.

Definition converged (irr npv_check : Q) (method : string) (warning : pyval)
  : pydict :=
  {[ "irr" := VNum irr; "status" := VStr "CONVERGED"; "method" := VStr method;
     "npv_check" := VNum npv_check; "warning" := warning ]}.

Section Solve.
Context {solvers : Solvers}.

(** The [brentq] block.  [Some d]: the function returns [d]; [None]: control
    falls through to the next block.  Only [ValueError] is handled. *)
Definition brentq_block (cash_flows : list Q) (method : string)
    (tolerance : Q) (max_iterations : Z) (warning : pyval)
  : res (option pydict) :=
  let body :=
    irr_result ← brentq (fun r => calculate_npv r cash_flows)
                        (-0.99) 5.00 tolerance max_iterations;
    npv_check ← calculate_npv irr_result cash_flows;
    mret (irr_result, npv_check) in
  match body with
  | Ok (irr_result, npv_check) =>
      if Qlt_bool (Qabs npv_check) (tolerance * 10) then
        mret (Some (converged irr_result npv_check "Brentq (Bracketing)" warning))
      else mret None
  | Raise (ValueError m) =>
      if String.eqb method "brentq" then
        mret (Some {[ "irr" := VNone; "status" := VStr "ERROR";
                      "message" := VStr ("Brentq failed: " +:+ m);
                      "method" := VStr "Brentq (Bracketing)";
                      "warning" := warning ]})
      else mret None
  | Raise e => Raise e
  end.

(** The [newton] block; its bare [except] swallows every exception. *)
Definition newton_block (cash_flows : list Q) (initial_guess tolerance : Q)
    (max_iterations : Z) (warning : pyval) : res (option pydict) :=
  try_except
    (irr_result ← newton (fun r => calculate_npv r cash_flows) initial_guess
                         (fun r => npv_derivative r cash_flows)
                         tolerance max_iterations;
     npv_check ← calculate_npv irr_result cash_flows;
     if Qlt_bool (Qabs npv_check) (tolerance * 10)
        && Qlt_bool (-0.99) irr_result && Qlt_bool irr_result 5.0
     then
       mret (Some (converged irr_result npv_check
                             "Newton-Raphson (with derivative)" warning))
     else mret None)
    (fun _ => mret None).

Definition calculate_irr_robust (cash_flows : list Q) (method : string)
    (initial_guess tolerance : Q) (max_iterations : Z) : res pydict :=
  if (length cash_flows <? 2)%nat then mret (guard_error msg_too_few)
  else if all_nonnegative cash_flows then mret (guard_error msg_no_negative)
  else if all_nonpositive cash_flows then mret (guard_error msg_no_positive)
  else
    let n := sign_changes cash_flows in
    let warning :=
      if (1 <? n)%nat then
        VStr (pretty n +:+ " sign changes detected - multiple IRRs may exist")
      else VNone in
    b ← (if String.eqb method "brentq" || String.eqb method "both" then
           brentq_block cash_flows method tolerance max_iterations warning
         else mret None);
    match b with
    | Some d => mret d
    | None =>
        n ← (if String.eqb method "newton" || String.eqb method "both" then
               newton_block cash_flows initial_guess tolerance max_iterations
                            warning
             else mret None);
        match n with
        | Some d => mret d
        | None =>
            mret {[ "irr" := VNone; "status" := VStr "FAILED";
                    "message" := VStr "All solver methods failed to converge";
                    "method" := VNone; "warning" := warning ]}
        end
    end.

(** The call with every keyword argument left at its default. *)
Definition calculate_irr_robust_default (cash_flows : list Q) : res pydict :=
  calculate_irr_robust cash_flows "brentq" 0.10 1e-8 1000.

End Solve.

(** A stand-in for an installation without SciPy: both root finders raise. *)
Definition no_solvers : Solvers := {|
  brentq := fun _ _ _ _ _ => Raise (RuntimeError "brentq unavailable");
  newton := fun _ _ _ _ _ => Raise (RuntimeError "newton unavailable")
|}.

(** A root finder that answers [r] whatever it is asked, as a mocked solver
    would in a test. *)
Definition answering (r : Q) : Solvers := {|
  brentq := fun _ _ _ _ _ => Ok r;
  newton := fun _ _ _ _ _ => Ok r
|}.

End Irr.

(* ====================================================================== *)
(** * The collaborators imported from dutchbay_model_v12 *)
(* ====================================================================== *)

Module V12.

(** [dutchbay_model_v12] is imported by the optimiser and by the Monte Carlo
    harness.  Objects of its classes are seen through their [__dict__].  The
    two default constructors take no argument; like the class constructors
    and the model builder, they are calls that may raise. *)
Class Collaborators : Type := {
  create_default_parameters : res pydict;
  create_default_debt_structure : res pydict;
  ProjectParameters : pydict -> res pydict;
  DebtStructure : pydict -> res pydict;
  build_financial_model : pydict -> pydict -> res pydict
}.

End V12.

(* ====================================================================== *)
(** * optimization_enhanced.py *)
(* ====================================================================== *)

Module Optimizer.
Import V12.

(** [scipy.optimize] data. *)
Record Bounds : Type := { lb : list Q; ub : list Q }.

Record NonlinearConstraint : Type := {
  nc_fun : list Q -> res Q;
  nc_lb : Q;
  nc_ub : npfloat
}.

Record Options : Type := { ftol : Q; disp : bool; maxiter : Z }.

Record OptimizeResult : Type := {
  opt_x : list Q;
  opt_success : bool;
  opt_message : string
}.

(** [scipy.optimize.minimize] *)
Class Scipy : Type := {
  minimize : (list Q -> res Q) -> list Q -> string -> Bounds ->
             list NonlinearConstraint -> Options -> res OptimizeResult
}.

Section Optimize.
Context {collaborators : Collaborators} {scipy : Scipy} {builtins : Builtins}.

Variable objective : string.
Variable constraints : gmap string Q.

(** The locals [params] and [debt_template], which the three nested
    functions close over. *)
Variable params debt_template : pydict.

(** [constraints[k]] *)
Definition constraint_threshold (k : string) : res Q :=
  match constraints !! k with Some q => Ok q | None => Raise (KeyError k) end.

(** The block that the source writes out four times: unpack the trial point,
    derive the debt structure from the template and run the model. *)
Definition trial (x : list Q) : res (Q * Q * Q * pydict) :=
  '(dratio, usd_pct, dfi_pct) ← unpack3 x;
  capex ← getattr params "total_capex" ≫= as_num;
  let td := capex * dratio in
  let ud := td * usd_pct in
  let ld := td - ud in
  debt ← DebtStructure
           (<["dfi_pct_of_usd" := VNum dfi_pct]>
              (<["lkr_debt" := VNum ld]>
                 (<["usd_debt" := VNum ud]>
                    (<["total_debt" := VNum td]>
                       debt_template))));
  model ← build_financial_model params debt;
  mret (dratio, usd_pct, dfi_pct, model).

(** [-model[k]] *)
Definition negated (model : pydict) (k : string) : res Q :=
  v ← getitem model k ≫= as_num;
  mret (- v).

(** The bodies of the three [try] blocks handed to the optimiser. *)
Definition objective_body (x : list Q) : res Q :=
  '(_, _, _, model) ← trial x;
  if String.eqb objective "equity_irr" then negated model "equity_irr"
  else if String.eqb objective "project_irr" then negated model "project_irr"
  else if String.eqb objective "npv" then negated model "npv_12pct"
  else negated model "equity_irr".

Definition constraint_min_irr_body (x : list Q) : res Q :=
  '(_, _, _, model) ← trial x;
  v ← getitem model "equity_irr";
  t ← constraint_threshold "min_irr";
  a ← as_num v;
  mret (a - t).

Definition constraint_min_dscr_body (x : list Q) : res Q :=
  '(_, _, _, model) ← trial x;
  v ← getitem model "min_dscr";
  t ← constraint_threshold "min_dscr";
  a ← as_num v;
  mret (a - t).

(** [warnings.warn] has no effect on the value returned. *)
Definition objective_func (x : list Q) : res Q :=
  try_except (objective_body x) (fun _ => mret 1e10).

Definition constraint_min_irr (x : list Q) : res Q :=
  try_except (constraint_min_irr_body x) (fun _ => mret (- 1e10)).

Definition constraint_min_dscr (x : list Q) : res Q :=
  try_except (constraint_min_dscr_body x) (fun _ => mret (- 1e10)).

(** The dictionary returned when the [try] block runs to its end. *)
Definition success_result (dratio usd_pct dfi_pct : Q) (model : pydict)
    (r : OptimizeResult) (equity_irr project_irr npv min_dscr : pyval)
    (irr_violation dscr_violation : Q) : pydict :=
  {[ "optimal_debt_ratio" := VNum dratio;
     "optimal_usd_pct" := VNum usd_pct;
     "optimal_dfi_pct" := VNum dfi_pct;
     "optimized_equity_irr" := equity_irr;
     "optimized_project_irr" := project_irr;
     "optimized_npv" := npv;
     "optimized_min_dscr" := min_dscr;
     "result" := VDict model;
     "convergence" := VBool (opt_success r);
     "message" := VStr (opt_message r);
     "constraint_violations" :=
       VDict {[ "irr_violation" := VNum (py_max 0 irr_violation);
                "dscr_violation" := VNum (py_max 0 dscr_violation) ]} ]}.

(** The dictionary returned by the [except Exception as e] handler. *)
Definition failure_result (e : exn) : pydict :=
  {[ "optimal_debt_ratio" := VNone;
     "optimal_usd_pct" := VNone;
     "optimal_dfi_pct" := VNone;
     "optimized_equity_irr" := VNone;
     "optimized_project_irr" := VNone;
     "optimized_npv" := VNone;
     "optimized_min_dscr" := VNone;
     "result" := VNone;
     "convergence" := VBool false;
     "message" := VStr ("Optimization failed with error: " +:+ str e);
     "error" := VStr (str e) ]}.

(** The arguments of the call to [minimize]. *)
Definition bounds : Bounds :=
  {| lb := [0.50; 0.0; 0.0]; ub := [0.80; 1.0; 0.20] |}.
Definition nlc_irr : NonlinearConstraint :=
  {| nc_fun := constraint_min_irr; nc_lb := 0; nc_ub := PosInf |}.
Definition nlc_dscr : NonlinearConstraint :=
  {| nc_fun := constraint_min_dscr; nc_lb := 0; nc_ub := PosInf |}.
Definition x0 : list Q := [0.8; 0.45; 0.10].
Definition options : Options :=
  {| ftol := 1e-4; disp := true; maxiter := 150 |}.

(** The outer [try] block. *)
Definition optimize_body : res pydict :=
  r ← minimize objective_func x0 "SLSQP" bounds [nlc_irr; nlc_dscr] options;
  '(dratio, usd_pct, dfi_pct, model) ← trial (opt_x r);
  t_irr ← constraint_threshold "min_irr";
  e_irr ← getitem model "equity_irr" ≫= as_num;
  let irr_violation := t_irr - e_irr in
  t_dscr ← constraint_threshold "min_dscr";
  m_dscr ← getitem model "min_dscr" ≫= as_num;
  let dscr_violation := t_dscr - m_dscr in
  equity_irr ← getitem model "equity_irr";
  project_irr ← getitem model "project_irr";
  npv ← getitem model "npv_12pct";
  min_dscr ← getitem model "min_dscr";
  mret (success_result dratio usd_pct dfi_pct model r equity_irr project_irr
                       npv min_dscr irr_violation dscr_violation).

(** What a run of the outer [try] block that reached its [return] has
    established: [r] is what the optimiser returned, [model] the model at
    that point, [t_irr] and [t_dscr] the two thresholds, [e_irr] and
    [m_dscr] the two figures of the model they are compared with. *)
Record completed (d : pydict) (r : OptimizeResult)
    (dratio usd_pct dfi_pct : Q) (model : pydict)
    (t_irr e_irr t_dscr m_dscr : Q) : Prop := {
  cp_minimize :
    minimize objective_func x0 "SLSQP" bounds [nlc_irr; nlc_dscr] options
    = Ok r;
  cp_trial : trial (opt_x r) = Ok (dratio, usd_pct, dfi_pct, model);
  cp_min_irr : constraints !! "min_irr" = Some t_irr;
  cp_equity_irr :
    exists v, model !! "equity_irr" = Some v /\ as_num v = Ok e_irr;
  cp_min_dscr : constraints !! "min_dscr" = Some t_dscr;
  cp_model_dscr :
    exists v, model !! "min_dscr" = Some v /\ as_num v = Ok m_dscr;
  cp_result :
    exists equity_irr project_irr npv min_dscr,
      model !! "equity_irr" = Some equity_irr /\
      model !! "project_irr" = Some project_irr /\
      model !! "npv_12pct" = Some npv /\
      model !! "min_dscr" = Some min_dscr /\
      d = success_result dratio usd_pct dfi_pct model r equity_irr
                         project_irr npv min_dscr (t_irr - e_irr)
                         (t_dscr - m_dscr)
}.

End Optimize.

Section Entry.
Context {collaborators : Collaborators} {scipy : Scipy} {builtins : Builtins}.

(** The two default constructors are called before the [try] block. *)
Definition optimize_capital_structure (objective : string)
    (constraints : gmap string Q) : res pydict :=
  params ← create_default_parameters;
  debt_template ← create_default_debt_structure;
  try_except (optimize_body objective constraints params debt_template)
             (fun e => mret (failure_result e)).

End Entry.

(** A rendering of exception texts to run the examples with: the class of
    the exception and what it carries. *)
Definition class_and_argument : Builtins := {|
  str := fun e =>
    match e with
    | ZeroDivisionError => "ZeroDivisionError"
    | ValueError m => "ValueError: " +:+ m
    | KeyError k => "KeyError: " +:+ k
    | TypeError m => "TypeError: " +:+ m
    | AttributeError n => "AttributeError: " +:+ n
    | IndexError => "IndexError"
    | RuntimeError m => "RuntimeError: " +:+ m
    end
|}.

(** ** A run whose final evaluation yields no rate of return

    The model returns [None] for both rates of return, as it does when the
    root finder finds no root; the optimiser stops at its starting point
    without converging. *)
Definition no_rate_model : Collaborators := {|
  create_default_parameters := Ok {[ "total_capex" := VNum 155 ]};
  create_default_debt_structure := Ok ∅;
  ProjectParameters := fun d => Ok d;
  DebtStructure := fun d => Ok d;
  build_financial_model := fun _ _ =>
    Ok {[ "equity_irr" := VNone; "project_irr" := VNone;
          "npv_12pct" := VNum (-40); "min_dscr" := VNum 0.9 ]}
|}.

Definition stalled_search : Scipy := {|
  minimize := fun _ x0 _ _ _ _ =>
    Ok {| opt_x := x0; opt_success := false;
          opt_message := "Iteration limit reached" |}
|}.

(** The keyword defaults of [optimize_capital_structure]. *)
Definition default_objective : string := "equity_irr".
Definition default_constraints : gmap string Q :=
  {[ "min_irr" := 0.15; "min_dscr" := 1.3 ]}.

(** ** A run on a model that always reports the same figures *)
Definition flat_model : Collaborators := {|
  create_default_parameters := Ok {[ "total_capex" := VNum 155 ]};
  create_default_debt_structure := Ok ∅;
  ProjectParameters := fun d => Ok d;
  DebtStructure := fun d => Ok d;
  build_financial_model := fun _ _ =>
    Ok {[ "equity_irr" := VNum 0.18; "project_irr" := VNum 0.12;
          "npv_12pct" := VNum 3; "min_dscr" := VNum 1.1 ]}
|}.

End Optimizer.

(* ====================================================================== *)
(** * montecarlo.py *)
(* ====================================================================== *)

Module MonteCarlo.
Import V12.

(** [numpy.random]: a generator is a state; [default_rng(seed)] derives it
    from the seed when one is given and from entropy supplied by the
    operating system otherwise; [rng.uniform(low, high, size)] returns the
    draws together with the advanced generator. *)
Class NumpyRandom : Type := {
  Generator : Type;
  Entropy : Type;
  seeded_generator : Z -> Generator;
  fresh_generator : Entropy -> Generator;
  uniform : Q -> Q -> Z -> Generator -> res (list Q * Generator)
}.

Section Harness.
Context {collaborators : Collaborators} {numpy : NumpyRandom}.

(** The entropy the operating system would hand out during this call. *)
Variable os : Entropy.

Definition default_rng (seed : option Z) : Generator :=
  match seed with
  | Some s => seeded_generator s
  | None => fresh_generator os
  end.

Definition generate_mc_parameters (n_scenarios : Z) (seed : option Z)
  : res (gmap string (list Q)) :=
  let rng := default_rng seed in
  '(usd_rate, rng) ← uniform 0.065 0.09 n_scenarios rng;
  '(lkr_rate, rng) ← uniform 0.075 0.09 n_scenarios rng;
  '(debt_ratio, rng) ← uniform 0.5 0.8 n_scenarios rng;
  '(fx_depr, rng) ← uniform 0.03 0.05 n_scenarios rng;
  '(capacity_factor, rng) ← uniform 0.38 0.42 n_scenarios rng;
  mret {[ "usd_rate" := usd_rate;
          "lkr_rate" := lkr_rate;
          "debt_ratio" := debt_ratio;
          "fx_depr" := fx_depr;
          "capacity_factor" := capacity_factor ]}.

(** [scenarios[k][i]] *)
Definition scenario (scenarios : gmap string (list Q)) (k : string) (i : Z)
  : res Q :=
  match scenarios !! k with
  | Some a => index a (Z.to_nat i)
  | None => Raise (KeyError k)
  end.

(** The body of [for i in range(iterations)]: the row appended to
    [out_data]. *)
Definition mc_iteration (params debt_template : pydict)
    (scenarios : gmap string (list Q)) (i : Z) : res pydict :=
  capfac ← scenario scenarios "capacity_factor" i;
  fxdepr ← scenario scenarios "fx_depr" i;
  dratio ← scenario scenarios "debt_ratio" i;
  urate ← scenario scenarios "usd_rate" i;
  lrate ← scenario scenarios "lkr_rate" i;
  p ← ProjectParameters
        (<["fx_depr" := VNum fxdepr]>
           (<["cf_p50" := VNum capfac]> params));
  capex ← getattr p "total_capex" ≫= as_num;
  let td := capex * dratio in
  let ud := td * 0.45 in
  let ld := td - ud in
  debt ← DebtStructure
           (<["lkr_rate" := VNum lrate]>
              (<["usd_mkt_rate" := VNum urate]>
                 (<["lkr_debt" := VNum ld]>
                    (<["usd_debt" := VNum ud]>
                       (<["total_debt" := VNum td]>
                          debt_template)))));
  results ← build_financial_model p debt;
  equity_irr ← getattr results "equity_irr";
  project_irr ← getattr results "project_irr";
  npv_12pct ← getattr results "npv_12pct";
  min_dscr ← getattr results "min_dscr";
  mret {[ "iteration" := VInt (i + 1);
          "usd_rate" := VNum urate;
          "lkr_rate" := VNum lrate;
          "debt_ratio" := VNum dratio;
          "fx_depr" := VNum fxdepr;
          "capacity_factor" := VNum capfac;
          "equity_irr" := equity_irr;
          "project_irr" := project_irr;
          "npv_12pct" := npv_12pct;
          "min_dscr" := min_dscr ]}.

(** The DataFrame is kept as its list of row dictionaries. *)
Definition run_monte_carlo (iterations : Z) (seed : option Z)
  : res (list pydict) :=
  params ← create_default_parameters;
  debt_template ← create_default_debt_structure;
  scenarios ← generate_mc_parameters iterations seed;
  mapM (mc_iteration params debt_template scenarios) (seqZ 0 iterations).

(** The five sampled-parameter cells of a result row. *)
Definition sampled_fields : list string :=
  ["usd_rate"; "lkr_rate"; "debt_ratio"; "fx_depr"; "capacity_factor"].

Definition sampled_cells (row : pydict) : list (option pyval) :=
  (fun k => row !! k) <$> sampled_fields.

End Harness.

End MonteCarlo.

(* ====================================================================== *)
(** * Facts about the Python fragment *)
(* ====================================================================== *)

Section PyFacts.

Lemma Qlt_bool_true (a b : Q) : Qlt_bool a b = true <-> a < b.
Proof.
  unfold Qlt_bool. rewrite negb_true_iff. split.
  - intros Hf. apply Qnot_le_lt. intros Hle.
    apply Qle_bool_iff in Hle. congruence.
  - intros Hlt. destruct (Qle_bool b a) eqn:E; [|reflexivity].
    apply Qle_bool_iff in E. lra.
Qed.

Lemma Qlt_bool_false (a b : Q) : Qlt_bool a b = false <-> b <= a.
Proof.
  unfold Qlt_bool. rewrite negb_false_iff. apply Qle_bool_iff.
Qed.

Lemma Qle_bool_false (a b : Q) : Qle_bool a b = false <-> b < a.
Proof.
  split.
  - intros Hf. apply Qnot_le_lt. intros Hle.
    apply Qle_bool_iff in Hle. congruence.
  - intros Hlt. destruct (Qle_bool a b) eqn:E; [|reflexivity].
    apply Qle_bool_iff in E. lra.
Qed.

Lemma py_max_cases (a b : Q) :
  (a < b /\ py_max a b = b) \/ (b <= a /\ py_max a b = a).
Proof.
  unfold py_max. destruct (Qlt_bool a b) eqn:E.
  - left. split; [by apply Qlt_bool_true|reflexivity].
  - right. split; [by apply Qlt_bool_false|reflexivity].
Qed.

Lemma py_min_cases (a b : Q) :
  (b < a /\ py_min a b = b) \/ (a <= b /\ py_min a b = a).
Proof.
  unfold py_min. destruct (Qlt_bool b a) eqn:E.
  - left. split; [by apply Qlt_bool_true|reflexivity].
  - right. split; [by apply Qlt_bool_false|reflexivity].
Qed.

Lemma np_maximum_cases (a b : Q) :
  (a <= b /\ np_maximum a b = b) \/ (b < a /\ np_maximum a b = a).
Proof.
  unfold np_maximum. destruct (Qle_bool a b) eqn:E.
  - left. split; [by apply Qle_bool_iff|reflexivity].
  - right. split; [by apply Qle_bool_false|reflexivity].
Qed.

Lemma py_max_floor (x : Q) : 0 <= py_max 0 x.
Proof. destruct (py_max_cases 0 x) as [[? ->]|[? ->]]; lra. Qed.

Lemma py_max_lower (a b : Q) : a <= py_max a b /\ b <= py_max a b.
Proof. destruct (py_max_cases a b) as [[? ->]|[? ->]]; lra. Qed.

Lemma py_min_upper (a b : Q) : py_min a b <= a /\ py_min a b <= b.
Proof. destruct (py_min_cases a b) as [[? ->]|[? ->]]; lra. Qed.

(** Python's [max] and NumPy's [maximum] agree on finite values. *)
Lemma py_max_np_maximum (a b : Q) : py_max a b == np_maximum a b.
Proof.
  destruct (py_max_cases a b) as [[? ->]|[? ->]];
    destruct (np_maximum_cases a b) as [[? ->]|[? ->]]; lra.
Qed.

Lemma py_div_ok (a b : Q) : ~ b == 0 -> py_div a b = Ok (a / b).
Proof.
  intros Hb. unfold py_div. destruct (Qeq_bool b 0) eqn:E; [|reflexivity].
  apply Qeq_bool_iff in E. contradiction.
Qed.

Lemma py_div_inv (a b q : Q) : py_div a b = Ok q -> ~ b == 0 /\ q = a / b.
Proof.
  unfold py_div. destruct (Qeq_bool b 0) eqn:E; [discriminate|].
  intros [= <-]. split; [by apply Qeq_bool_neq|reflexivity].
Qed.

Lemma py_pow_ok (b : Q) (e : Z) : (0 <= e)%Z -> py_pow b e = Ok (b ^ e).
Proof.
  intros He. unfold py_pow.
  replace (e <? 0)%Z with false; [reflexivity|].
  symmetry. apply Z.ltb_ge. exact He.
Qed.

Lemma bind_ok_inv {A B} (m : res A) (f : A -> res B) (r : B) :
  m ≫= f = Ok r -> exists a, m = Ok a /\ f a = Ok r.
Proof. destruct m as [a|e]; [eauto|discriminate]. Qed.

Lemma bind_ok {A B} (m : res A) (f : A -> res B) (a : A) :
  m = Ok a -> m ≫= f = f a.
Proof. by intros ->. Qed.

End PyFacts.

(** Take apart a hypothesis [x ← m; k = Ok r], one bind at a time. *)
Ltac ok_inv H :=
  repeat lazymatch type of H with
  | _ ≫= _ = Ok _ =>
      let a := fresh "v" in
      let E := fresh "E" in
      apply bind_ok_inv in H; destruct H as (a & E & H)
  end.
(* ====================================================================== *)
(** * The cash-flow engine returns on every defined year *)
(* ====================================================================== *)

Section EngineFacts.
Import Model.
Variable c : Config.

Lemma inject_Z_nonzero (z : Z) : z <> 0%Z -> ~ inject_Z z == 0.
Proof.
  intros Hz Heq. apply Hz. unfold Qeq in Heq. simpl in Heq. lia.
Qed.

Lemma Qdiv_nonzero (a b : Q) : ~ a == 0 -> ~ b == 0 -> ~ a / b == 0.
Proof.
  intros Ha Hb Heq. apply Ha.
  rewrite <- (Qmult_div_r a b Hb), Heq. ring.
Qed.

Lemma compute_generation_ok (year : Z) :
  (1 <= year)%Z -> exists g, compute_generation c year = Ok g.
Proof.
  intros Hy. unfold compute_generation.
  rewrite py_pow_ok by lia. eexists. reflexivity.
Qed.

Lemma compute_fx_ok (year : Z) :
  (1 <= year)%Z ->
  compute_fx c year
  = Ok (inject_Z (FX_INITIAL c) * (1 + FX_DEPR c) ^ (year - 1)).
Proof.
  intros Hy. unfold compute_fx. rewrite py_pow_ok by lia. reflexivity.
Qed.

Lemma fx_nonzero (year : Z) :
  year_defined c year ->
  ~ inject_Z (FX_INITIAL c) * (1 + FX_DEPR c) ^ (year - 1) == 0.
Proof.
  intros (Hy & _ & Hfx & Hd) Heq.
  apply Qmult_integral in Heq as [Heq|Heq].
  - by apply (inject_Z_nonzero _ Hfx).
  - destruct (Z.eq_dec year 1%Z) as [->|Hne].
    + simpl in Heq. discriminate Heq.
    + revert Heq. apply Qpower_not_0. apply Hd. lia.
Qed.

Lemma compute_tariff_usd_ok (year : Z) :
  year_defined c year -> exists t, compute_tariff_usd c year = Ok t.
Proof.
  intros Hd. unfold compute_tariff_usd.
  rewrite compute_fx_ok by apply Hd. cbn [mbind res_bind].
  rewrite py_div_ok by by apply fx_nonzero.
  eexists. reflexivity.
Qed.

Lemma compute_revenue_ok (year : Z) :
  year_defined c year -> exists r, compute_revenue c year = Ok r.
Proof.
  intros Hd. unfold compute_revenue.
  destruct (compute_generation_ok year) as [g ->]; [apply Hd|].
  destruct (compute_tariff_usd_ok year Hd) as [t ->].
  eexists. reflexivity.
Qed.

Lemma compute_sscl_ok (year : Z) :
  year_defined c year -> exists s, compute_sscl c year = Ok s.
Proof.
  intros Hd. unfold compute_sscl.
  destruct (compute_revenue_ok year Hd) as [r ->].
  eexists. reflexivity.
Qed.

Lemma compute_opex_ok (year : Z) :
  year_defined c year -> exists o, compute_opex c year = Ok o.
Proof.
  intros Hd. pose proof Hd as (Hy & _ & Hfx & _). unfold compute_opex.
  destruct (compute_generation_ok year Hy) as [g ->].
  rewrite compute_fx_ok by exact Hy. cbn [mbind res_bind].
  rewrite !py_pow_ok by lia. cbn [mbind res_bind].
  pose proof (fx_nonzero year Hd) as Hnz.
  pose proof (inject_Z_nonzero _ Hfx) as Hi.
  rewrite py_div_ok by exact Hi. cbn [mbind res_bind].
  rewrite py_div_ok.
  - eexists. reflexivity.
  - by apply Qdiv_nonzero.
Qed.

Lemma compute_depreciation_ok :
  ECON_LIFE c <> 0%Z ->
  compute_depreciation c = Ok (CAPEX_TOTAL c / inject_Z (ECON_LIFE c)).
Proof.
  intros He. unfold compute_depreciation.
  apply py_div_ok. by apply inject_Z_nonzero.
Qed.

Lemma lkr_policy_ok (year : Z) (bal : Q) :
  exists v, lkr_policy c year bal = Ok v.
Proof.
  unfold lkr_policy. destruct (year <=? LKR_DEBT_TENOR c)%Z eqn:E.
  - apply Z.leb_le in E. rewrite py_div_ok; [eauto|].
    apply inject_Z_nonzero. lia.
  - eexists. reflexivity.
Qed.

Lemma year_pass_ok (year : Z) (b : Balances) :
  year_defined c year -> exists p, year_pass c year b = Ok p.
Proof.
  intros Hd. pose proof Hd as (Hy & He & _ & _). unfold year_pass.
  rewrite compute_fx_ok by exact Hy. cbn [mbind res_bind].
  rewrite py_div_ok by by apply fx_nonzero. cbn [mbind res_bind].
  destruct (compute_revenue_ok year Hd) as [r ->].
  destruct (compute_sscl_ok year Hd) as [s ->].
  destruct (compute_opex_ok year Hd) as [o ->].
  rewrite compute_depreciation_ok by exact He. cbn [mbind res_bind].
  destruct (lkr_policy_ok year (lkr_bal b)) as [l ->].
  eexists. reflexivity.
Qed.

Lemma run_years_ok (years : list Z) (b : Balances) :
  Forall (year_defined c) years -> exists ps, run_years c years b = Ok ps.
Proof.
  intros Hall. revert b.
  induction Hall as [|year rest Hy _ IH]; intros b.
  - exists []. reflexivity.
  - destruct (year_pass_ok year b Hy) as [p Hp].
    destruct (IH (yp_after p)) as [ps Hps].
    exists (p :: ps). cbn [run_years]. rewrite Hp. cbn [mbind res_bind].
    rewrite Hps. reflexivity.
Qed.

Lemma years_range_defined :
  schedule_defined c -> Forall (year_defined c) (years_range c).
Proof.
  intros Hs. apply Forall_forall. intros year Hin.
  apply elem_of_seqZ in Hin.
  assert (Hn : (1 <= PROJECT_YEARS c)%Z) by lia.
  destruct (Hs Hn) as (He & Hfx & Hd).
  split; [lia|]. split; [exact He|]. split; [exact Hfx|].
  intros Hy2. apply Hd. lia.
Qed.

(** The scheduler returns on every configuration whose divisors are not
    zero. *)
Lemma debt_schedule_passes_ok :
  schedule_defined c -> exists ps, debt_schedule_passes c = Ok ps.
Proof.
  intros Hs. apply run_years_ok. by apply years_range_defined.
Qed.

End EngineFacts.

(* ====================================================================== *)
(** * The scheduler, pass by pass *)
(* ====================================================================== *)

Section SchedulerFacts.
Import Model.
Variable c : Config.

(** What a pass that returned has computed. *)
Lemma year_pass_fields (year : Z) (b : Balances) (p : YearPass) :
  year_pass c year b = Ok p -> pass_computed c year b p.
Proof.
  intros Hp. unfold year_pass in Hp. ok_inv Hp.
  injection Hp as <-. constructor; cbn; first [assumption|reflexivity].
Qed.

Lemma year_pass_year (year : Z) (b : Balances) (p : YearPass) :
  year_pass c year b = Ok p -> yp_year p = year.
Proof. intros Hp. exact (pc_year _ _ _ _ (year_pass_fields _ _ _ Hp)). Qed.

(** A pass divides by its FX rate, so the rate is not zero. *)
Lemma year_pass_fx (year : Z) (b : Balances) (p : YearPass) :
  year_pass c year b = Ok p ->
  compute_fx c year = Ok (yp_fx p) /\ ~ yp_fx p == 0.
Proof.
  intros Hp. pose proof (year_pass_fields _ _ _ Hp) as F.
  split; [exact (pc_fx _ _ _ _ F)|].
  by destruct (py_div_inv _ _ _ (pc_lkr_int_usd _ _ _ _ F)).
Qed.

(** The EBITDA-to-operating-cash-flow chain of a pass. *)
Lemma year_pass_chain (year : Z) (b : Balances) (p : YearPass) :
  year_pass c year b = Ok p ->
  exists rev sscl opex da,
    compute_revenue c year = Ok rev /\ compute_sscl c year = Ok sscl /\
    compute_opex c year = Ok opex /\ compute_depreciation c = Ok da /\
    oc_ebitda (yp_chain p) = rev - sscl - opex /\
    oc_da (yp_chain p) = da /\
    oc_ebit (yp_chain p) = oc_ebitda (yp_chain p) - da /\
    oc_tax (yp_chain p) = py_max 0 (oc_ebit (yp_chain p) * TAX_RATE c) /\
    oc_op_cf (yp_chain p)
    = oc_ebit (yp_chain p) - oc_tax (yp_chain p) + da.
Proof.
  intros Hp. unfold year_pass in Hp. ok_inv Hp.
  injection Hp as <-. cbn. do 4 eexists. repeat split; eassumption.
Qed.

Lemma usd_policy_year_1 (bal avail : Q) : usd_policy c 1 bal avail = 0.
Proof. unfold usd_policy. cbn. by destruct (GRACE_PERIOD c =? 1)%Z. Qed.


Lemma usd_policy_years_5_on (year : Z) (bal avail : Q) :
  (4 < year)%Z ->
  usd_policy c year bal avail = py_min bal (PRINCIPAL_PCT_5_ON c * avail).
Proof.
  intros Hy. unfold usd_policy.
  replace (year =? 1)%Z with false by (symmetry; apply Z.eqb_neq; lia).
  replace (year <=? 4)%Z with false by (symmetry; apply Z.leb_gt; lia).
  replace (4 <? year)%Z with true by (symmetry; apply Z.ltb_lt; lia).
  rewrite andb_false_r. reflexivity.
Qed.

(** The policy never asks for more than the balance. *)
Lemma usd_policy_capped (year : Z) (bal avail : Q) :
  0 <= bal -> usd_policy c year bal avail <= bal.
Proof.
  intros Hb. unfold usd_policy.
  repeat match goal with
         | |- context [if ?t then _ else _] => destruct t
         end;
    try exact Hb; apply py_min_upper.
Qed.

(** The grace-period constant is read in one place only, and the branch it
    guards yields what the final [else] yields. *)
Lemma usd_policy_grace (g year : Z) (bal avail : Q) :
  usd_policy (with_GRACE_PERIOD g c) year bal avail
  = usd_policy c year bal avail.
Proof.
  unfold usd_policy. cbn.
  destruct (year =? 1)%Z eqn:E.
  - apply Z.eqb_eq in E. subst year. cbn.
    by destruct (g =? 1)%Z, (GRACE_PERIOD c =? 1)%Z.
  - reflexivity.
Qed.

Lemma lkr_policy_bounds (year : Z) (bal v : Q) :
  lkr_policy c year bal = Ok v -> 0 <= bal -> 0 <= v /\ v <= bal.
Proof.
  unfold lkr_policy. intros Hv Hb.
  destruct (year <=? LKR_DEBT_TENOR c)%Z eqn:E.
  - apply Z.leb_le in E. apply py_div_inv in Hv as [_ ->].
    assert (Hk : 1 <= inject_Z (LKR_DEBT_TENOR c - year + 1)).
    { change 1 with (inject_Z 1). rewrite <- Zle_Qle. lia. }
    split.
    + apply Qle_shift_div_l; lra.
    + apply Qle_shift_div_r; [lra|nra].
  - injection Hv as <-. lra.
Qed.

Lemma year_pass_balances (year : Z) (b : Balances) (p : YearPass) :
  year_pass c year b = Ok p ->
  0 <= usd_bal (yp_after p) /\ 0 <= lkr_bal (yp_after p) /\
  (0 <= lkr_bal b -> lkr_bal (yp_after p) <= lkr_bal b) /\
  (0 <= usd_bal b -> 0 <= yp_usd_prin p ->
   usd_bal (yp_after p) <= usd_bal b).
Proof.
  intros Hp.
  pose proof (year_pass_fields _ _ _ Hp) as F.
  pose proof (pc_lkr_prin _ _ _ _ F) as Hl.
  rewrite (pc_usd_after _ _ _ _ F), (pc_lkr_after _ _ _ _ F).
  split; [apply py_max_floor|]. split; [apply py_max_floor|]. split.
  - intros Hb. destruct (lkr_policy_bounds _ _ _ Hl Hb) as [H0 H1].
    destruct (py_max_cases 0 (lkr_bal b - yp_lkr_prin p))
      as [[? ->]|[? ->]]; lra.
  - intros Hb Hprin.
    destruct (py_max_cases 0 (usd_bal b - yp_usd_prin p))
      as [[? ->]|[? ->]]; lra.
Qed.

Lemma run_years_cons_inv (year : Z) (rest : list Z) (b : Balances)
    (ps : list YearPass) :
  run_years c (year :: rest) b = Ok ps ->
  exists p ps', year_pass c year b = Ok p /\
                run_years c rest (yp_after p) = Ok ps' /\ ps = p :: ps'.
Proof.
  cbn [run_years]. intros Hr. ok_inv Hr. injection Hr as <-. eauto.
Qed.

Lemma run_years_length (years : list Z) (b : Balances) (ps : list YearPass) :
  run_years c years b = Ok ps -> length ps = length years.
Proof.
  revert b ps. induction years as [|year rest IH]; intros b ps Hr.
  - injection Hr as <-. reflexivity.
  - apply run_years_cons_inv in Hr as (p & ps' & _ & Hr & ->).
    cbn. f_equal. eauto.
Qed.

Lemma run_years_chained (years : list Z) (b : Balances) (ps : list YearPass) :
  run_years c years b = Ok ps -> chained b ps.
Proof.
  revert b ps. induction years as [|year rest IH]; intros b ps Hr.
  - injection Hr as <-. exact I.
  - apply run_years_cons_inv in Hr as (p & ps' & Hp & Hr & ->).
    split; [|eauto]. exact (pc_before _ _ _ _ (year_pass_fields _ _ _ Hp)).
Qed.

(** The pass at position [i] ran on the year at position [i]. *)
Lemma run_years_lookup (years : list Z) (b : Balances) (ps : list YearPass)
    (i : nat) (p : YearPass) :
  run_years c years b = Ok ps -> ps !! i = Some p ->
  exists year b', years !! i = Some year /\ year_pass c year b' = Ok p.
Proof.
  revert b ps i. induction years as [|year rest IH]; intros b ps i Hr Hi.
  - injection Hr as <-. discriminate.
  - apply run_years_cons_inv in Hr as (p0 & ps' & Hp & Hr & ->).
    destruct i as [|i].
    + injection Hi as <-. eauto.
    + cbn in Hi. cbn. eauto.
Qed.

Lemma run_years_balances (years : list Z) (b : Balances)
    (ps : list YearPass) :
  0 <= usd_bal b -> 0 <= lkr_bal b ->
  run_years c years b = Ok ps -> Forall balances_kept ps.
Proof.
  revert b ps. induction years as [|year rest IH]; intros b ps Hu Hl Hr.
  - injection Hr as <-. constructor.
  - apply run_years_cons_inv in Hr as (p & ps' & Hp & Hr & ->).
    destruct (year_pass_balances _ _ _ Hp) as (Hu' & Hl' & Hlm & Hum).
    pose proof (pc_before _ _ _ _ (year_pass_fields _ _ _ Hp)) as Hb.
    constructor; [|exact (IH _ _ Hu' Hl' Hr)].
    unfold balances_kept. rewrite Hb.
    repeat (split; [assumption|]). split; [exact (Hlm Hl)|exact (Hum Hu)].
Qed.

(** The grace-period constant has no influence on the schedule. *)
Lemma year_pass_grace (g year : Z) (b : Balances) :
  year_pass (with_GRACE_PERIOD g c) year b = year_pass c year b.
Proof.
  unfold year_pass.
  change (compute_fx (with_GRACE_PERIOD g c)) with (compute_fx c).
  change (compute_revenue (with_GRACE_PERIOD g c)) with (compute_revenue c).
  change (compute_sscl (with_GRACE_PERIOD g c)) with (compute_sscl c).
  change (compute_opex (with_GRACE_PERIOD g c)) with (compute_opex c).
  change (compute_depreciation (with_GRACE_PERIOD g c))
    with (compute_depreciation c).
  change (lkr_policy (with_GRACE_PERIOD g c)) with (lkr_policy c).
  cbn [with_GRACE_PERIOD USD_DEBT_RATE LKR_DEBT_RATE TAX_RATE].
  repeat match goal with
         | |- ?m ≫= _ = _ => destruct m; cbn [mbind res_bind]; [|reflexivity]
         end.
  rewrite usd_policy_grace. reflexivity.
Qed.

Lemma run_years_grace (g : Z) (years : list Z) (b : Balances) :
  run_years (with_GRACE_PERIOD g c) years b = run_years c years b.
Proof.
  revert b. induction years as [|year rest IH]; intros b; [reflexivity|].
  cbn [run_years]. rewrite year_pass_grace.
  destruct (year_pass c year b) as [p|]; [|reflexivity].
  cbn [mbind res_bind]. by rewrite IH.
Qed.

Lemma debt_schedule_passes_grace (g : Z) :
  debt_schedule_passes (with_GRACE_PERIOD g c) = debt_schedule_passes c.
Proof. apply run_years_grace. Qed.

End SchedulerFacts.

(* ====================================================================== *)
(** * Schedules that are never short of cash *)
(* ====================================================================== *)

Section WellFunded.
Import Model.
Variable c : Config.

Lemma usd_policy_nonneg (year : Z) (bal avail : Q) :
  0 <= PRINCIPAL_PCT_1_4 c -> 0 <= PRINCIPAL_PCT_5_ON c ->
  0 <= bal -> 0 <= avail -> 0 <= usd_policy c year bal avail.
Proof.
  intros H14 H5 Hb Ha. unfold usd_policy.
  pose proof (Qmult_le_0_compat _ _ H14 Ha).
  pose proof (Qmult_le_0_compat _ _ H5 Ha).
  repeat match goal with
         | |- context [if ?t then _ else _] => destruct t
         end; try lra.
  - destruct (py_min_cases bal (PRINCIPAL_PCT_1_4 c * avail))
      as [[_ ->]|[_ ->]]; lra.
  - destruct (py_min_cases bal (PRINCIPAL_PCT_5_ON c * avail))
      as [[_ ->]|[_ ->]]; lra.
Qed.

Lemma compute_fx_positive (year : Z) (fx : Q) :
  (0 < FX_INITIAL c)%Z -> 0 < 1 + FX_DEPR c -> (1 <= year)%Z ->
  compute_fx c year = Ok fx -> 0 < fx.
Proof.
  intros Hi Hd Hy Hfx. rewrite compute_fx_ok in Hfx by exact Hy.
  injection Hfx as <-.
  apply Qmult_lt_0_compat; [|by apply Qpower_0_lt].
  change 0 with (inject_Z 0). rewrite <- Zlt_Qlt. exact Hi.
Qed.

(** Two passes over the same year compute the same operating cash flow. *)
Lemma year_pass_same_chain (year : Z) (b b0 : Balances) (p p0 : YearPass) :
  year_pass c year b = Ok p -> year_pass c year b0 = Ok p0 ->
  oc_op_cf (yp_chain p) = oc_op_cf (yp_chain p0) /\ yp_fx p = yp_fx p0.
Proof.
  intros Hp Hp0.
  destruct (year_pass_chain c _ _ _ Hp)
    as (rev & sscl & opex & da & Hr & Hs & Ho & Hd & Ce & _ & Cebit & Ctax
        & Cop).
  destruct (year_pass_chain c _ _ _ Hp0)
    as (rev0 & sscl0 & opex0 & da0 & Hr0 & Hs0 & Ho0 & Hd0 & Ce0 & _ & Cebit0
        & Ctax0 & Cop0).
  rewrite Hr in Hr0. injection Hr0 as <-.
  rewrite Hs in Hs0. injection Hs0 as <-.
  rewrite Ho in Ho0. injection Ho0 as <-.
  rewrite Hd in Hd0. injection Hd0 as <-.
  pose proof (pc_fx _ _ _ _ (year_pass_fields c _ _ _ Hp)) as Hfx.
  pose proof (pc_fx _ _ _ _ (year_pass_fields c _ _ _ Hp0)) as Hfx0.
  rewrite Hfx in Hfx0. injection Hfx0 as Hfx0. split; [|exact Hfx0].
  rewrite Cop, Cop0, Ctax, Ctax0, Cebit, Cebit0, Ce, Ce0. reflexivity.
Qed.

(** Smaller balances leave more cash for principal. *)
Lemma avail_monotone (year : Z) (b b0 : Balances) (p p0 : YearPass) :
  0 <= USD_DEBT_RATE c -> 0 <= LKR_DEBT_RATE c -> 0 < yp_fx p ->
  usd_bal b <= usd_bal b0 -> lkr_bal b <= lkr_bal b0 ->
  year_pass c year b = Ok p -> year_pass c year b0 = Ok p0 ->
  yp_op_cf_avail p0 <= yp_op_cf_avail p.
Proof.
  intros Hru Hrl Hfx Hu Hl Hp Hp0.
  destruct (year_pass_same_chain _ _ _ _ _ Hp Hp0) as [Hop Hsame].
  pose proof (year_pass_fields c _ _ _ Hp) as F.
  pose proof (year_pass_fields c _ _ _ Hp0) as F0.
  destruct (py_div_inv _ _ _ (pc_lkr_int_usd _ _ _ _ F)) as [Hnz Hdiv].
  destruct (py_div_inv _ _ _ (pc_lkr_int_usd _ _ _ _ F0)) as [Hnz0 Hdiv0].
  rewrite (pc_op_cf_avail _ _ _ _ F), (pc_op_cf_avail _ _ _ _ F0).
  rewrite Hdiv, Hdiv0, Hop.
  rewrite (pc_usd_int _ _ _ _ F), (pc_usd_int _ _ _ _ F0).
  rewrite (pc_lkr_int _ _ _ _ F), (pc_lkr_int _ _ _ _ F0), <- Hsame.
  assert (Hinv : 0 <= / yp_fx p) by (apply Qinv_le_0_compat; lra).
  unfold Qdiv.
  assert (H1 : usd_bal b * USD_DEBT_RATE c <= usd_bal b0 * USD_DEBT_RATE c)
    by (by apply Qmult_le_compat_r).
  assert (H2 : lkr_bal b * LKR_DEBT_RATE c * / yp_fx p
               <= lkr_bal b0 * LKR_DEBT_RATE c * / yp_fx p).
  { apply Qmult_le_compat_r; [|exact Hinv]. by apply Qmult_le_compat_r. }
  lra.
Qed.

Hypothesis Hw : well_funded c.

Lemma never_short_year (year : Z) :
  year ∈ years_range c ->
  exists p0, year_pass c year (initial_balances c) = Ok p0 /\
             0 <= yp_op_cf_avail p0.
Proof.
  intros Hin. destruct Hw as (_ & _ & _ & _ & _ & _ & Hn).
  unfold never_short in Hn. rewrite forallb_forall in Hn.
  specialize (Hn year). rewrite <- list_elem_of_In in Hn.
  specialize (Hn Hin). unfold avail_at_initial_balances in Hn.
  destruct (year_pass c year (initial_balances c)) as [p0|]; [|discriminate].
  exists p0. split; [reflexivity|]. by apply Qle_bool_iff.
Qed.

Lemma run_years_well_funded (years : list Z) (b : Balances)
    (ps : list YearPass) :
  Forall (fun year => year ∈ years_range c) years ->
  0 <= usd_bal b -> usd_bal b <= USD_DEBT_INIT c ->
  0 <= lkr_bal b -> lkr_bal b <= LKR_DEBT_INIT c ->
  run_years c years b = Ok ps -> Forall usd_repaid ps.
Proof.
  intros Hyears. revert b ps.
  induction Hyears as [|year rest Hin _ IH]; intros b ps Hu0 Hu1 Hl0 Hl1 Hr.
  - injection Hr as <-. constructor.
  - apply run_years_cons_inv in Hr as (p & ps' & Hp & Hr & ->).
    destruct Hw as (Hru & Hrl & H14 & H5 & Hi & Hd & _).
    destruct (never_short_year year Hin) as (p0 & Hp0 & Hshort).
    pose proof (year_pass_fields c _ _ _ Hp) as F.
    pose proof (pc_before _ _ _ _ F) as Hb.
    pose proof (pc_fx _ _ _ _ F) as Hfx.
    pose proof (pc_usd_prin _ _ _ _ F) as Hprin.
    assert (Hy : (1 <= year)%Z) by (apply elem_of_seqZ in Hin; lia).
    pose proof (compute_fx_positive _ _ Hi Hd Hy Hfx) as Hpos.
    pose proof (avail_monotone year b (initial_balances c) p p0
                  Hru Hrl Hpos Hu1 Hl1 Hp Hp0) as Hmono.
    assert (Hnn : 0 <= yp_usd_prin p).
    { rewrite Hprin. apply usd_policy_nonneg; try assumption. lra. }
    destruct (year_pass_balances c _ _ _ Hp) as (Hu' & Hl' & Hlm & Hum).
    specialize (Hlm Hl0). specialize (Hum Hu0 Hnn).
    constructor.
    + split; [exact Hnn|]. by rewrite Hb.
    + apply (IH (yp_after p)); try assumption; lra.
Qed.

(** On a well-funded configuration every principal is non-negative and the
    hard-currency balance never grows. *)
Lemma well_funded_schedule (ps : list YearPass) :
  0 <= USD_DEBT_INIT c -> 0 <= LKR_DEBT_INIT c ->
  debt_schedule_passes c = Ok ps -> Forall usd_repaid ps.
Proof.
  intros Hu Hl Hps.
  apply (run_years_well_funded (years_range c) (initial_balances c));
    try assumption; cbn; try lra.
  by apply Forall_forall.
Qed.

End WellFunded.

Lemma module_constants_well_funded : Model.well_funded Model.module_constants.
Proof.
  unfold Model.well_funded.
  do 6 (split; [discriminate || reflexivity|]).
  vm_compute. reflexivity.
Qed.

(* ====================================================================== *)
(** * compute_debt_schedule: balances and the first two years *)
(* ====================================================================== *)

Section ScheduleClaims.
Import Model.

Lemma compute_debt_schedule_passes (c : Config) (ps : list YearPass) :
  debt_schedule_passes c = Ok ps ->
  compute_debt_schedule c
  = Ok {| ds_usd_prin := yp_usd_prin <$> ps;
          ds_usd_int := yp_usd_int <$> ps;
          ds_lkr_prin := yp_lkr_prin <$> ps;
          ds_lkr_int := yp_lkr_int <$> ps;
          ds_lkr_ds := yp_lkr_ds <$> ps |}.
Proof. unfold compute_debt_schedule. by intros ->. Qed.

Lemma compute_debt_schedule_inv (c : Config) (s : DebtSchedule) :
  compute_debt_schedule c = Ok s ->
  exists ps, debt_schedule_passes c = Ok ps /\
             ds_usd_prin s = yp_usd_prin <$> ps /\
             ds_usd_int s = yp_usd_int <$> ps /\
             ds_lkr_prin s = yp_lkr_prin <$> ps /\
             ds_lkr_int s = yp_lkr_int <$> ps /\
             ds_lkr_ds s = yp_lkr_ds <$> ps.
Proof.
  unfold compute_debt_schedule. intros Hs. ok_inv Hs.
  injection Hs as <-. eauto 10.
Qed.

Lemma years_range_length (c : Config) :
  length (years_range c) = Z.to_nat (PROJECT_YEARS c).
Proof. apply length_seqZ. Qed.

Lemma years_range_lookup (c : Config) (i : nat) (year : Z) :
  years_range c !! i = Some year -> year = (1 + Z.of_nat i)%Z.
Proof.
  unfold years_range. intros Hi. apply lookup_seqZ in Hi. lia.
Qed.

(** The first year's hard-currency principal is zero whatever the
    constants. *)
Lemma first_pass_principal (c : Config) (ps : list YearPass) (p : YearPass) :
  debt_schedule_passes c = Ok ps -> ps !! 0%nat = Some p ->
  yp_usd_prin p = 0.
Proof.
  intros Hps Hp.
  destruct (run_years_lookup _ _ _ _ _ _ Hps Hp) as (year & b & Hy & Hpass).
  apply years_range_lookup in Hy. cbn in Hy. subst year.
  rewrite (pc_usd_prin _ _ _ _ (year_pass_fields _ _ _ _ Hpass)).
  apply usd_policy_year_1.
Qed.

(** The first two passes of the loop, run on their own. *)
Lemma schedule_first_two (c : Config) (ps : list YearPass) :
  (2 <= PROJECT_YEARS c)%Z -> debt_schedule_passes c = Ok ps ->
  exists p1 p2 rest,
    ps = p1 :: p2 :: rest /\
    year_pass c 1 (initial_balances c) = Ok p1 /\
    year_pass c 2 (yp_after p1) = Ok p2.
Proof.
  intros Hn Hr. unfold debt_schedule_passes, years_range in Hr.
  rewrite seqZ_cons in Hr by lia.
  rewrite seqZ_cons in Hr by lia.
  apply run_years_cons_inv in Hr as (p1 & ps1 & Hp1 & Hr & ->).
  apply run_years_cons_inv in Hr as (p2 & ps2 & Hp2 & _ & ->).
  eauto 10.
Qed.

Lemma module_constants_defined : schedule_defined module_constants.
Proof.
  intros _. split; [discriminate|]. split; [discriminate|].
  intros _. discriminate.
Qed.

Lemma low_wind_defined : schedule_defined low_wind.
Proof.
  intros _. split; [discriminate|]. split; [discriminate|].
  intros _. discriminate.
Qed.


(** Year 2 of the low-wind configuration: the principal is negative and the
    balance grows. *)
Lemma low_wind_year_2 :
  match p1 ← year_pass low_wind 1 (initial_balances low_wind);
        year_pass low_wind 2 (yp_after p1) with
  | Ok p2 => Qlt_bool (yp_usd_prin p2) 0
             && Qlt_bool (usd_bal (yp_before p2)) (usd_bal (yp_after p2))
  | Raise _ => false
  end = true.
Proof. vm_compute. reflexivity. Qed.

(** C1 (as the code has it).  On every configuration with non-negative
    initial debt, the scheduler returns one pass per project year, each pass
    starts from the balances the previous one left, both balances are
    non-negative after every year, the local-currency balance never
    increases, and the hard-currency balance does not increase in any year
    whose computed principal is non-negative: the principal is capped at the
    balance but not floored at zero.  When no year is short of cash at the
    initial balances (as under the constants of the source), every principal
    is non-negative and the hard-currency balance never increases. *)
Theorem C1_balances_kept (c : Config) :
  schedule_defined c -> 0 <= USD_DEBT_INIT c -> 0 <= LKR_DEBT_INIT c ->
  exists ps,
    debt_schedule_passes c = Ok ps /\
    length ps = Z.to_nat (PROJECT_YEARS c) /\
    chained (initial_balances c) ps /\
    Forall balances_kept ps /\
    (well_funded c -> Forall usd_repaid ps).
Proof.
  intros Hd Hu Hl.
  destruct (debt_schedule_passes_ok c Hd) as [ps Hps].
  exists ps. split; [exact Hps|]. split; [|split; [|split]].
  - rewrite <- years_range_length. by eapply run_years_length.
  - by eapply run_years_chained.
  - exact (run_years_balances c _ (initial_balances c) ps Hu Hl Hps).
  - intros Hw. by apply (well_funded_schedule c Hw).
Qed.

Lemma C1_balances_kept_witness :
  exists ps,
    debt_schedule_passes module_constants = Ok ps /\
    length ps = 20%nat /\
    chained (initial_balances module_constants) ps /\
    Forall balances_kept ps /\
    Forall usd_repaid ps.
Proof.
  destruct (C1_balances_kept module_constants) as (ps & Hps & Hn & Hc & Hk & Hr).
  - exact module_constants_defined.
  - vm_compute. discriminate.
  - vm_compute. discriminate.
  - exists ps. repeat (split; [assumption|]).
    apply Hr. exact module_constants_well_funded.
Defined.

(** C1 (as stated) fails: with a capacity factor of 5% and every other
    constant as in the source, the principal computed for year 2 is negative
    and the hard-currency balance is larger after year 2 than before it. *)
Lemma C1_counterexample :
  exists ps p,
    debt_schedule_passes low_wind = Ok ps /\ ps !! 1%nat = Some p /\
    yp_usd_prin p < 0 /\ usd_bal (yp_before p) < usd_bal (yp_after p).
Proof.
  destruct (debt_schedule_passes_ok low_wind low_wind_defined) as [ps Hps].
  assert (Hn : (2 <= PROJECT_YEARS low_wind)%Z) by (cbn; lia).
  destruct (schedule_first_two low_wind ps Hn Hps)
    as (p1 & p2 & rest & -> & H1 & H2).
  exists (p1 :: p2 :: rest), p2. split; [exact Hps|]. split; [reflexivity|].
  pose proof low_wind_year_2 as Hc. rewrite H1 in Hc. cbn [mbind res_bind] in Hc.
  rewrite H2 in Hc. apply andb_true_iff in Hc as [Hneg Hinc].
  split; by apply Qlt_bool_true.
Qed.

(** C10.  Whatever value the grace-period constant is given, zero included,
    the schedule's first hard-currency principal is zero: year 1 is served
    either by the grace branch or by the final [else], and both assign 0. *)
Theorem C10_year_1_principal_zero (c : Config) (g : Z) :
  schedule_defined c -> (1 <= PROJECT_YEARS c)%Z ->
  exists s,
    compute_debt_schedule (with_GRACE_PERIOD g c) = Ok s /\
    ds_usd_prin s !! 0%nat = Some 0.
Proof.
  intros Hd Hn.
  destruct (debt_schedule_passes_ok c Hd) as [ps Hps].
  eexists. split.
  - apply compute_debt_schedule_passes.
    rewrite debt_schedule_passes_grace. exact Hps.
  - cbn [ds_usd_prin]. rewrite list_lookup_fmap.
    pose proof (run_years_length _ _ _ _ Hps) as Hlen.
    rewrite years_range_length in Hlen.
    destruct ps as [|p ps]; [cbn in Hlen; lia|].
    cbn. f_equal. by eapply first_pass_principal.
Qed.

Lemma C10_year_1_principal_zero_witness :
  exists s,
    compute_debt_schedule (with_GRACE_PERIOD 0 module_constants) = Ok s /\
    ds_usd_prin s !! 0%nat = Some 0.
Proof.
  apply (C10_year_1_principal_zero module_constants 0).
  - exact module_constants_defined.
  - cbn. lia.
Defined.




End ScheduleClaims.

(* ====================================================================== *)
(** * build_full_model: the ledger *)
(* ====================================================================== *)

Section MapM.
Context {A B : Type} (f : A -> res B).

Lemma mapM_res_cons_inv (x : A) (l : list A) (ys : list B) :
  mapM f (x :: l) = Ok ys ->
  exists y ys', f x = Ok y /\ mapM f l = Ok ys' /\ ys = y :: ys'.
Proof.
  cbn [mapM]. intros Hm. ok_inv Hm. injection Hm as <-. eauto.
Qed.

Lemma mapM_res_ok (l : list A) :
  Forall (fun x => exists y, f x = Ok y) l -> exists ys, mapM f l = Ok ys.
Proof.
  induction 1 as [|x l [y Hy] _ [ys Hys]].
  - exists []. reflexivity.
  - exists (y :: ys). cbn [mapM]. rewrite Hy. cbn [mbind res_bind].
    rewrite Hys. reflexivity.
Qed.

Lemma mapM_res_length (l : list A) (ys : list B) :
  mapM f l = Ok ys -> length ys = length l.
Proof.
  revert ys. induction l as [|x l IH]; intros ys Hm.
  - injection Hm as <-. reflexivity.
  - apply mapM_res_cons_inv in Hm as (y & ys' & _ & Hm & ->).
    cbn. f_equal. eauto.
Qed.

Lemma mapM_res_lookup (l : list A) (ys : list B) (i : nat) (y : B) :
  mapM f l = Ok ys -> ys !! i = Some y ->
  exists x, l !! i = Some x /\ f x = Ok y.
Proof.
  revert ys i. induction l as [|x l IH]; intros ys i Hm Hi.
  - injection Hm as <-. discriminate.
  - apply mapM_res_cons_inv in Hm as (y0 & ys' & Hy & Hm & ->).
    destruct i as [|i].
    + injection Hi as <-. eauto.
    + cbn in Hi. cbn. eauto.
Qed.

End MapM.

Section LedgerFacts.
Import Model.
Variable c : Config.

Lemma ledger_defined_schedule : ledger_defined c -> schedule_defined c.
Proof.
  intros (_ & He & Hfx & Hd) Hn. auto.
Qed.

Lemma ledger_defined_years :
  ledger_defined c -> Forall (year_defined c) (years_range c).
Proof.
  intros Hl. by apply years_range_defined, ledger_defined_schedule.
Qed.

Lemma np_ones_ok (n : Z) :
  (0 <= n)%Z -> np_ones n = Ok (replicate (Z.to_nat n) 1).
Proof.
  intros Hn. unfold np_ones.
  replace (n <? 0)%Z with false; [reflexivity|].
  symmetry. apply Z.ltb_ge. exact Hn.
Qed.

Lemma np_ones_inv (n : Z) (l : list Q) :
  np_ones n = Ok l -> (0 <= n)%Z /\ l = replicate (Z.to_nat n) 1.
Proof.
  unfold np_ones. destruct (n <? 0)%Z eqn:E; [discriminate|].
  apply Z.ltb_ge in E. by intros [= <-].
Qed.

(** A run that returned has built every column as the source writes it. *)
Lemma build_full_model_inv (df : Ledger) :
  build_full_model c = Ok df -> exists d s, ledger_built c df d s.
Proof.
  intros Hb. unfold build_full_model in Hb. ok_inv Hb.
  injection Hb as <-.
  match goal with Ho : np_ones _ = Ok _ |- _ =>
    apply np_ones_inv in Ho as [Hn ->] end.
  do 2 eexists. constructor; cbn; first [eassumption|reflexivity].
Qed.

Lemma build_full_model_ok :
  ledger_defined c -> exists df, build_full_model c = Ok df.
Proof.
  intros Hl. pose proof (ledger_defined_years Hl) as Hy.
  pose proof Hl as (Hn & He & _ & _).
  unfold build_full_model.
  destruct (mapM_res_ok (compute_generation c) (years_range c)) as [gen ->].
  { eapply Forall_impl; [exact Hy|]. intros y Hd.
    apply compute_generation_ok, Hd. }
  destruct (mapM_res_ok (compute_fx c) (years_range c)) as [fx ->].
  { eapply Forall_impl; [exact Hy|]. intros y Hd.
    eexists. apply compute_fx_ok, Hd. }
  destruct (mapM_res_ok (compute_tariff_usd c) (years_range c)) as [t ->].
  { eapply Forall_impl; [exact Hy|]. intros y Hd.
    by apply compute_tariff_usd_ok. }
  destruct (mapM_res_ok (compute_revenue c) (years_range c)) as [r ->].
  { eapply Forall_impl; [exact Hy|]. intros y Hd.
    by apply compute_revenue_ok. }
  destruct (mapM_res_ok (compute_sscl c) (years_range c)) as [s ->].
  { eapply Forall_impl; [exact Hy|]. intros y Hd. by apply compute_sscl_ok. }
  destruct (mapM_res_ok (compute_opex c) (years_range c)) as [o ->].
  { eapply Forall_impl; [exact Hy|]. intros y Hd. by apply compute_opex_ok. }
  rewrite (compute_depreciation_ok c He). rewrite (np_ones_ok _ Hn).
  destruct (debt_schedule_passes_ok c (ledger_defined_schedule Hl))
    as [ps Hps].
  rewrite (compute_debt_schedule_passes c ps Hps).
  eexists. reflexivity.
Qed.

Lemma ledger_row_inv (df : Ledger) (i : nat) (r : LedgerRow) :
  ledger_row df i = Some r -> row_of df i r.
Proof.
  unfold ledger_row. intros Hr.
  repeat match type of Hr with
         | ?m ≫= _ = Some _ =>
             destruct m eqn:?; cbn [mbind option_bind] in Hr;
             [|discriminate Hr]
         end.
  injection Hr as <-. constructor; cbn; assumption.
Qed.

(** Every column has one cell per project year. *)
Lemma ledger_lengths (df : Ledger) :
  build_full_model c = Ok df ->
  columns_of_length df (Z.to_nat (PROJECT_YEARS c)).
Proof.
  intros Hb. set (n := Z.to_nat (PROJECT_YEARS c)).
  destruct (build_full_model_inv df Hb) as (d & s & B).
  pose proof (mapM_res_length _ _ _ (lb_Generation _ _ _ _ B)) as Hgen.
  pose proof (mapM_res_length _ _ _ (lb_FX _ _ _ _ B)) as Hfx.
  pose proof (mapM_res_length _ _ _ (lb_Tariff _ _ _ _ B)) as Htar.
  pose proof (mapM_res_length _ _ _ (lb_Revenue _ _ _ _ B)) as Hrev.
  pose proof (mapM_res_length _ _ _ (lb_SSCL _ _ _ _ B)) as Hsscl.
  pose proof (mapM_res_length _ _ _ (lb_OPEX _ _ _ _ B)) as Hopex.
  rewrite years_range_length in *.
  destruct (compute_debt_schedule_inv c s (lb_schedule _ _ _ _ B))
    as (ps & Hps & Hup & Hui & Hlp & Hli & Hds).
  apply run_years_length in Hps. rewrite years_range_length in Hps.
  assert (HlY : length (Year df) = n)
    by (rewrite (lb_Year _ _ _ _ B); apply years_range_length).
  assert (HlUI : length (USD_Int df) = n)
    by (rewrite (lb_USD_Int _ _ _ _ B), Hui, length_fmap; exact Hps).
  assert (HlUP : length (USD_Prin df) = n)
    by (rewrite (lb_USD_Prin _ _ _ _ B), Hup, length_fmap; exact Hps).
  assert (HlDA : length (DA df) = n)
    by (rewrite (lb_DA _ _ _ _ B), length_fmap, length_replicate;
        reflexivity).
  assert (HlE : length (EBITDA df) = n)
    by (rewrite (lb_EBITDA _ _ _ _ B); unfold vsub;
        rewrite !length_zip_with; lia).
  assert (HlEBIT : length (EBIT df) = n)
    by (rewrite (lb_EBIT _ _ _ _ B); unfold vsub;
        rewrite !length_zip_with; lia).
  assert (HlTax : length (Tax df) = n)
    by (rewrite (lb_Tax _ _ _ _ B), length_fmap; exact HlEBIT).
  assert (HlOp : length (Op_CF df) = n)
    by (rewrite (lb_Op_CF _ _ _ _ B); unfold vadd, vsub;
        rewrite !length_zip_with; lia).
  assert (HlLI : length (LKR_Int df) = n)
    by (rewrite (lb_LKR_Int _ _ _ _ B), Hli; unfold vdiv;
        rewrite length_zip_with, length_fmap; lia).
  assert (HlLP : length (LKR_Prin df) = n)
    by (rewrite (lb_LKR_Prin _ _ _ _ B), Hlp; unfold vdiv;
        rewrite length_zip_with, length_fmap; lia).
  assert (HlT : length (Total_DS df) = n)
    by (rewrite (lb_Total_DS _ _ _ _ B); unfold vadd;
        rewrite !length_zip_with; lia).
  assert (HlD : length (DSCR df) = n)
    by (rewrite (lb_DSCR _ _ _ _ B), length_zip_with; lia).
  assert (HlEq : length (Eq_CF df) = n)
    by (rewrite (lb_Eq_CF _ _ _ _ B); unfold vsub;
        rewrite length_zip_with; lia).
  constructor; assumption.
Qed.

(** Hence the ledger has a row for every project year. *)
Lemma ledger_row_some (df : Ledger) (i : nat) :
  build_full_model c = Ok df -> (i < Z.to_nat (PROJECT_YEARS c))%nat ->
  is_Some (ledger_row df i).
Proof.
  intros Hb Hi. destruct (ledger_lengths df Hb).
  unfold ledger_row.
  repeat match goal with
         | |- is_Some (?l !! i ≫= _) =>
             let x := fresh "x" in
             destruct (lookup_lt_is_Some_2 l i) as [x ->];
             [lia|cbn [mbind option_bind]]
         end.
  eexists. reflexivity.
Qed.

End LedgerFacts.

Section LedgerRows.
Import Model.
Variable c : Config.

Lemma zip_with_lookup_inv {A B C} (f : A -> B -> C) (l : list A)
    (k : list B) (i : nat) (x : A) (y : B) (z : C) :
  l !! i = Some x -> k !! i = Some y -> zip_with f l k !! i = Some z ->
  z = f x y.
Proof.
  intros Hl Hk. rewrite lookup_zip_with, Hl, Hk. cbn. by intros [= <-].
Qed.

Lemma fmap_lookup_inv {A B} (f : A -> B) (l : list A) (i : nat) (x : A)
    (z : B) :
  l !! i = Some x -> (f <$> l) !! i = Some z -> z = f x.
Proof.
  intros Hl. rewrite list_lookup_fmap, Hl. cbn. by intros [= <-].
Qed.

(** The engine columns of row [i] are the engine functions at year
    [i + 1]. *)
Lemma ledger_row_engine (df : Ledger) (i : nat) (r : LedgerRow) :
  build_full_model c = Ok df -> ledger_row df i = Some r ->
  r_Year r = (1 + Z.of_nat i)%Z /\
  years_range c !! i = Some (r_Year r) /\
  compute_generation c (r_Year r) = Ok (r_Generation_MWh r) /\
  compute_fx c (r_Year r) = Ok (r_FX r) /\
  compute_tariff_usd c (r_Year r) = Ok (r_Tariff_USD_MWh r) /\
  compute_revenue c (r_Year r) = Ok (r_Revenue_USD_M r) /\
  compute_sscl c (r_Year r) = Ok (r_SSCL_USD_M r) /\
  compute_opex c (r_Year r) = Ok (r_OPEX_USD_M r).
Proof.
  intros Hb Hr.
  destruct (build_full_model_inv c df Hb) as (d & s & B).
  pose proof (ledger_row_inv df i r Hr) as R.
  pose proof (ro_Year _ _ _ R) as Ry. rewrite (lb_Year _ _ _ _ B) in Ry.
  split; [by apply years_range_lookup in Ry|]. split; [exact Ry|].
  assert (Hcell : forall (f : Z -> res Q) (col : list Q) (v : Q),
             mapM f (years_range c) = Ok col -> col !! i = Some v ->
             f (r_Year r) = Ok v).
  { intros f col v Hm Hl.
    destruct (mapM_res_lookup f _ _ _ _ Hm Hl) as (y & Hy & Hv).
    rewrite Ry in Hy. by injection Hy as <-. }
  split; [exact (Hcell _ _ _ (lb_Generation _ _ _ _ B) (ro_Generation _ _ _ R))|].
  split; [exact (Hcell _ _ _ (lb_FX _ _ _ _ B) (ro_FX _ _ _ R))|].
  split; [exact (Hcell _ _ _ (lb_Tariff _ _ _ _ B) (ro_Tariff _ _ _ R))|].
  split; [exact (Hcell _ _ _ (lb_Revenue _ _ _ _ B) (ro_Revenue _ _ _ R))|].
  split; [exact (Hcell _ _ _ (lb_SSCL _ _ _ _ B) (ro_SSCL _ _ _ R))|].
  exact (Hcell _ _ _ (lb_OPEX _ _ _ _ B) (ro_OPEX _ _ _ R)).
Qed.

(** The EBITDA-to-operating-cash-flow chain of row [i]. *)
Lemma ledger_row_chain (df : Ledger) (i : nat) (r : LedgerRow) :
  build_full_model c = Ok df -> ledger_row df i = Some r ->
  exists d,
    compute_depreciation c = Ok d /\
    r_EBITDA r = r_Revenue_USD_M r - r_SSCL_USD_M r - r_OPEX_USD_M r /\
    r_DA r = d * 1 /\
    r_EBIT r = r_EBITDA r - r_DA r /\
    r_Tax r = np_maximum 0 (r_EBIT r * TAX_RATE c) /\
    r_Op_CF r = r_EBIT r - r_Tax r + r_DA r.
Proof.
  intros Hb Hr.
  destruct (build_full_model_inv c df Hb) as (d & s & B).
  pose proof (ledger_row_inv df i r Hr) as R.
  exists d. split; [exact (lb_depreciation _ _ _ _ B)|].
  assert (E1 : r_EBITDA r
               = r_Revenue_USD_M r - r_SSCL_USD_M r - r_OPEX_USD_M r).
  { pose proof (ro_EBITDA _ _ _ R) as Re.
    rewrite (lb_EBITDA _ _ _ _ B) in Re. unfold vsub in Re.
    apply lookup_zip_with_Some in Re as (x & y & -> & Hx & Hy).
    rewrite (ro_OPEX _ _ _ R) in Hy. injection Hy as <-.
    by rewrite (zip_with_lookup_inv _ _ _ _ _ _ _
                  (ro_Revenue _ _ _ R) (ro_SSCL _ _ _ R) Hx). }
  assert (E2 : r_DA r = d * 1).
  { pose proof (ro_DA _ _ _ R) as Rda. rewrite (lb_DA _ _ _ _ B) in Rda.
    apply list_lookup_fmap_Some in Rda as (o & -> & Ho).
    apply lookup_replicate in Ho as [-> _]. reflexivity. }
  assert (E3 : r_EBIT r = r_EBITDA r - r_DA r).
  { pose proof (ro_EBIT _ _ _ R) as Rebit.
    rewrite (lb_EBIT _ _ _ _ B) in Rebit.
    exact (zip_with_lookup_inv _ _ _ _ _ _ _
             (ro_EBITDA _ _ _ R) (ro_DA _ _ _ R) Rebit). }
  assert (E4 : r_Tax r = np_maximum 0 (r_EBIT r * TAX_RATE c)).
  { pose proof (ro_Tax _ _ _ R) as Rtax. rewrite (lb_Tax _ _ _ _ B) in Rtax.
    exact (fmap_lookup_inv _ _ _ _ _ (ro_EBIT _ _ _ R) Rtax). }
  repeat (split; [assumption|]).
  pose proof (ro_Op_CF _ _ _ R) as Rop. rewrite (lb_Op_CF _ _ _ _ B) in Rop.
  unfold vadd, vsub in Rop.
  apply lookup_zip_with_Some in Rop as (x & y & -> & Hx & Hy).
  rewrite (ro_DA _ _ _ R) in Hy. injection Hy as <-.
  by rewrite (zip_with_lookup_inv _ _ _ _ _ _ _
                (ro_EBIT _ _ _ R) (ro_Tax _ _ _ R) Hx).
Qed.

(** The debt columns of row [i] come from pass [i] of the scheduler. *)
Lemma ledger_row_debt (df : Ledger) (i : nat) (r : LedgerRow) :
  build_full_model c = Ok df -> ledger_row df i = Some r ->
  exists ps p,
    debt_schedule_passes c = Ok ps /\ ps !! i = Some p /\
    yp_year p = r_Year r /\ yp_fx p = r_FX r /\ ~ r_FX r == 0 /\
    r_USD_Int r = yp_usd_int p /\ r_USD_Prin r = yp_usd_prin p /\
    r_LKR_Int r = yp_lkr_int p / r_FX r /\
    r_LKR_Prin r = yp_lkr_prin p / r_FX r.
Proof.
  intros Hb Hr.
  destruct (ledger_row_engine df i r Hb Hr) as (Hyear1 & Hyr & Hgen & Hfx & Hrest).
  destruct (build_full_model_inv c df Hb) as (d & s & B).
  pose proof (ledger_row_inv df i r Hr) as R.
  destruct (compute_debt_schedule_inv c s (lb_schedule _ _ _ _ B))
    as (ps & Hps & Hup & Hui & Hlp & Hli & Hds).
  pose proof (ro_USD_Int _ _ _ R) as Rui.
  rewrite (lb_USD_Int _ _ _ _ B), Hui in Rui.
  apply list_lookup_fmap_Some in Rui as (p & Rui & Hp).
  exists ps, p. split; [exact Hps|]. split; [exact Hp|].
  destruct (run_years_lookup c (years_range c) (initial_balances c) ps i p
              Hps Hp) as (year & b & Hy & Hpass).
  rewrite Hyr in Hy. injection Hy as <-.
  pose proof (year_pass_year c (r_Year r) b p Hpass) as Hyear.
  pose proof (year_pass_fx c (r_Year r) b p Hpass) as [Hpfx Hnz].
  rewrite Hfx in Hpfx. injection Hpfx as Hpfx.
  split; [exact Hyear|]. split; [by symmetry|]. split.
  { by rewrite Hpfx. }
  split; [exact Rui|]. split.
  { pose proof (ro_USD_Prin _ _ _ R) as Rup.
    rewrite (lb_USD_Prin _ _ _ _ B), Hup in Rup.
    by rewrite (fmap_lookup_inv _ _ _ _ _ Hp Rup). }
  split.
  - pose proof (ro_LKR_Int _ _ _ R) as Rli.
    rewrite (lb_LKR_Int _ _ _ _ B), Hli in Rli. unfold vdiv in Rli.
    apply lookup_zip_with_Some in Rli as (x & y & -> & Hx & Hy).
    rewrite (ro_FX _ _ _ R) in Hy. injection Hy as <-.
    by rewrite (fmap_lookup_inv _ _ _ _ _ Hp Hx).
  - pose proof (ro_LKR_Prin _ _ _ R) as Rlp.
    rewrite (lb_LKR_Prin _ _ _ _ B), Hlp in Rlp. unfold vdiv in Rlp.
    apply lookup_zip_with_Some in Rlp as (x & y & -> & Hx & Hy).
    rewrite (ro_FX _ _ _ R) in Hy. injection Hy as <-.
    by rewrite (fmap_lookup_inv _ _ _ _ _ Hp Hx).
Qed.

(** Debt service, coverage ratio and equity cash flow of row [i]. *)
Lemma ledger_row_totals (df : Ledger) (i : nat) (r : LedgerRow) :
  build_full_model c = Ok df -> ledger_row df i = Some r ->
  r_Total_DS r
  = r_USD_Int r + r_USD_Prin r + r_LKR_Int r + r_LKR_Prin r /\
  r_DSCR r = dscr_cell (r_Op_CF r) (r_Total_DS r) /\
  r_Eq_CF r = r_Op_CF r - r_Total_DS r.
Proof.
  intros Hb Hr.
  destruct (build_full_model_inv c df Hb) as (d & s & B).
  pose proof (ledger_row_inv df i r Hr) as R.
  split; [|split].
  - pose proof (ro_Total_DS _ _ _ R) as Rt.
    rewrite (lb_Total_DS _ _ _ _ B) in Rt. unfold vadd in Rt.
    apply lookup_zip_with_Some in Rt as (x & y & -> & Hx & Hy).
    rewrite (ro_LKR_Prin _ _ _ R) in Hy. injection Hy as <-.
    apply lookup_zip_with_Some in Hx as (x' & y' & -> & Hx & Hy).
    rewrite (ro_LKR_Int _ _ _ R) in Hy. injection Hy as <-.
    by rewrite (zip_with_lookup_inv _ _ _ _ _ _ _
                  (ro_USD_Int _ _ _ R) (ro_USD_Prin _ _ _ R) Hx).
  - pose proof (ro_DSCR _ _ _ R) as Rd. rewrite (lb_DSCR _ _ _ _ B) in Rd.
    exact (zip_with_lookup_inv _ _ _ _ _ _ _
             (ro_Op_CF _ _ _ R) (ro_Total_DS _ _ _ R) Rd).
  - pose proof (ro_Eq_CF _ _ _ R) as Req.
    rewrite (lb_Eq_CF _ _ _ _ B) in Req. unfold vsub in Req.
    exact (zip_with_lookup_inv _ _ _ _ _ _ _
             (ro_Op_CF _ _ _ R) (ro_Total_DS _ _ _ R) Req).
Qed.

End LedgerRows.

(* ====================================================================== *)
(** * The model returns exactly on the defined configurations *)
(* ====================================================================== *)

Section Defined.
Import Model.
Variable c : Config.

Lemma inject_Z_zero (z : Z) : ~ inject_Z z == 0 -> z <> 0%Z.
Proof. intros Hz ->. by apply Hz. Qed.

(** A pass over [year] has divided by the economic life and by that year's
    FX rate. *)
Lemma year_pass_divisors (year : Z) (b : Balances) (p : YearPass) :
  (1 <= year)%Z -> year_pass c year b = Ok p ->
  ECON_LIFE c <> 0%Z /\ FX_INITIAL c <> 0%Z /\
  ((2 <= year)%Z -> ~ 1 + FX_DEPR c == 0).
Proof.
  intros Hy Hp.
  destruct (year_pass_chain c _ _ _ Hp)
    as (rev & sscl & opex & da & Hrev & Hsscl & Hopex & Hda & Hrest).
  destruct (year_pass_fx c _ _ _ Hp) as [Hfx Hnz].
  rewrite compute_fx_ok in Hfx by exact Hy. injection Hfx as Hfx.
  split; [|split].
  - unfold compute_depreciation in Hda.
    apply py_div_inv in Hda as [He _]. by apply inject_Z_zero.
  - intros Hz. apply Hnz. rewrite <- Hfx, Hz. ring.
  - intros Hy2 Hd. apply Hnz. rewrite <- Hfx, Hd.
    rewrite Qpower_0 by lia. ring.
Qed.

Lemma debt_schedule_passes_defined (ps : list YearPass) :
  debt_schedule_passes c = Ok ps -> schedule_defined c.
Proof.
  intros Hps Hn.
  pose proof (run_years_length _ _ _ _ Hps) as Hlen.
  rewrite years_range_length in Hlen.
  assert (Hpass : forall i : nat, (i < Z.to_nat (PROJECT_YEARS c))%nat ->
            exists b p, year_pass c (1 + Z.of_nat i) b = Ok p).
  { intros i Hi.
    destruct (lookup_lt_is_Some_2 ps i) as [p Hp]; [lia|].
    destruct (run_years_lookup c _ _ _ _ _ Hps Hp) as (year & b & Hy & Hpass).
    apply years_range_lookup in Hy. subst year. eauto. }
  destruct (Hpass 0%nat) as (b & p & Hp); [lia|].
  destruct (year_pass_divisors (1 + Z.of_nat 0) b p ltac:(lia) Hp)
    as (He & Hfx & _).
  split; [exact He|]. split; [exact Hfx|].
  intros Hn2. destruct (Hpass 1%nat) as (b2 & p2 & Hp2); [lia|].
  destruct (year_pass_divisors (1 + Z.of_nat 1) b2 p2 ltac:(lia) Hp2)
    as (_ & _ & Hd).
  apply Hd. lia.
Qed.

(** The scheduler returns exactly when no divisor of a project year is
    zero. *)
Lemma debt_schedule_passes_ok_iff :
  (exists ps, debt_schedule_passes c = Ok ps) <-> schedule_defined c.
Proof.
  split.
  - intros [ps Hps]. by eapply debt_schedule_passes_defined.
  - apply debt_schedule_passes_ok.
Qed.

(** The assembler returns exactly on the configurations of
    [ledger_defined]. *)
Lemma build_full_model_ok_iff :
  (exists df, build_full_model c = Ok df) <-> ledger_defined c.
Proof.
  split; [|apply build_full_model_ok].
  intros [df Hb]. destruct (build_full_model_inv c df Hb) as (d & s & B).
  destruct (compute_debt_schedule_inv c s (lb_schedule _ _ _ _ B))
    as (ps & Hps & Hrest).
  pose proof (debt_schedule_passes_defined ps Hps) as Hs.
  split; [exact (lb_horizon _ _ _ _ B)|]. split.
  - pose proof (lb_depreciation _ _ _ _ B) as Hd.
    unfold compute_depreciation in Hd.
    apply py_div_inv in Hd as [He _]. by apply inject_Z_zero.
  - split.
    + intros Hn. by destruct (Hs Hn) as (_ & Hfx & _).
    + intros Hn. destruct Hs as (_ & _ & Hd); [lia|by apply Hd].
Qed.

End Defined.

(* ====================================================================== *)
(** * The figures of the first year under the constants of the source *)
(* ====================================================================== *)

Section FirstYear.
Import Model.

Example generation_year_1 :
  compute_generation module_constants 1 = Ok (inject_Z 1314000 * 0.40 * 1).
Proof. reflexivity. Qed.

Example generation_year_1_value : inject_Z 1314000 * 0.40 * 1 == 525600.
Proof. reflexivity. Qed.

Example fx_year_1 : compute_fx module_constants 1 = Ok (inject_Z 300 * 1).
Proof. reflexivity. Qed.

Example depreciation_value :
  compute_depreciation module_constants = Ok (146.38 / inject_Z 20).
Proof. reflexivity. Qed.

Example policy_year_1_without_grace :
  usd_policy (with_GRACE_PERIOD 0 module_constants) 1 56.36 16.8 = 0.
Proof. reflexivity. Qed.

Example policy_year_2 :
  usd_policy module_constants 2 56.36 16 = 0.80 * 16.
Proof. reflexivity. Qed.

Example policy_year_2_short_of_cash :
  usd_policy module_constants 2 56.36 (-3) = 0.80 * (-3).
Proof. reflexivity. Qed.

Example policy_year_5 :
  usd_policy module_constants 5 2 16 = 2.
Proof. reflexivity. Qed.

Example sign_changes_conventional :
  Irr.sign_changes [-100; 30; 30; 30; 30; 30] = 1%nat.
Proof. reflexivity. Qed.

Example npv_at_zero_rate :
  Irr.calculate_npv 0 [-100; 30; 30; 30; 30; 30]
  ≫= (fun v => Ok (Qeq_bool v 50)) = Ok true.
Proof. reflexivity. Qed.

Example dscr_cell_zero_debt_service : dscr_cell 24 0 = NaN.
Proof. reflexivity. Qed.

Example dscr_cell_usual : dscr_cell 24 12 = Fin (24 / 12).
Proof. reflexivity. Qed.

End FirstYear.

Section LedgerClaims.
Import Model.

Lemma module_constants_ledger_defined : ledger_defined module_constants.
Proof.
  split; [discriminate|]. split; [discriminate|].
  split; intros _; discriminate.
Qed.

Lemma long_horizon_ledger_defined : ledger_defined long_horizon.
Proof.
  split; [discriminate|]. split; [discriminate|].
  split; intros _; discriminate.
Qed.

(** [np.sum] of an array whose cells all equal [v]. *)
Lemma np_sum_constant (v : Q) (l : list Q) :
  Forall (fun x => x == v) l ->
  np_sum l == inject_Z (Z.of_nat (length l)) * v.
Proof.
  intros Hall. unfold np_sum.
  assert (Hacc : forall a, foldl Qplus a l
                           == a + inject_Z (Z.of_nat (length l)) * v).
  { induction Hall as [|x l Hx _ IH]; intros a.
    - cbn. ring.
    - cbn [foldl length]. rewrite IH, Hx, Nat2Z.inj_succ.
      unfold Z.succ. rewrite inject_Z_plus. ring. }
  rewrite Hacc. ring.
Qed.

(** The depreciation column: the same amount in every project year. *)
Lemma depreciation_column (c : Config) (df : Ledger) :
  build_full_model c = Ok df ->
  ECON_LIFE c <> 0%Z /\
  compute_depreciation c
  = Ok (CAPEX_TOTAL c / inject_Z (ECON_LIFE c)) /\
  length (DA df) = Z.to_nat (PROJECT_YEARS c) /\
  Forall (fun x => x == CAPEX_TOTAL c / inject_Z (ECON_LIFE c)) (DA df) /\
  np_sum (DA df)
  == inject_Z (PROJECT_YEARS c)
     * (CAPEX_TOTAL c / inject_Z (ECON_LIFE c)).
Proof.
  intros Hb.
  destruct (build_full_model_inv c df Hb) as (d & s & B).
  pose proof (lb_depreciation _ _ _ _ B) as Hd.
  pose proof (lb_horizon _ _ _ _ B) as Hn.
  pose proof (lb_DA _ _ _ _ B) as HDA.
  pose proof Hd as Hd'. unfold compute_depreciation in Hd'.
  apply py_div_inv in Hd' as [He ->].
  assert (Hlife : ECON_LIFE c <> 0%Z) by (by intros Heq; rewrite Heq in He).
  assert (Hlen : length (DA df) = Z.to_nat (PROJECT_YEARS c))
    by (rewrite HDA, length_fmap, length_replicate; reflexivity).
  assert (Hall : Forall (fun x => x == CAPEX_TOTAL c / inject_Z (ECON_LIFE c))
                        (DA df)).
  { rewrite HDA. apply Forall_fmap, Forall_forall. intros o Ho.
    apply elem_of_replicate in Ho as [-> _]. cbn. ring. }
  repeat (split; [assumption|]).
  rewrite (np_sum_constant _ _ Hall), Hlen, Z2Nat.id by exact Hn.
  reflexivity.
Qed.

(** C2.  The code at a 25-year horizon over the 20-year economic life, every
    other constant as in the source: year 21 lies beyond the economic life,
    yet its depreciation is 146.38 / 20 = 7.319 and not zero, and the
    depreciation summed over the horizon is 25 * 7.319 = 182.975, not the
    total capital expenditure of 146.38.  [compute_depreciation] takes no
    year and the column is that amount in every project year. *)
Theorem C2_depreciation_past_economic_life :
  exists df x,
    build_full_model long_horizon = Ok df /\
    (ECON_LIFE long_horizon < 21 <= PROJECT_YEARS long_horizon)%Z /\
    Year df !! 20%nat = Some 21%Z /\
    DA df !! 20%nat = Some x /\ x == 7.319 /\ ~ x == 0 /\
    np_sum (DA df) == 182.975 /\
    ~ np_sum (DA df) == CAPEX_TOTAL long_horizon.
Proof.
  destruct (build_full_model_ok _ long_horizon_ledger_defined) as [df Hb].
  destruct (depreciation_column _ df Hb) as (_ & _ & Hlen & Hall & Hsum).
  destruct (lookup_lt_is_Some_2 (DA df) 20) as [x Hx].
  { rewrite Hlen. cbn. lia. }
  exists df, x. split; [exact Hb|]. split; [cbn; lia|]. split.
  { destruct (build_full_model_inv _ df Hb) as (d & s & B).
    rewrite (lb_Year _ _ _ _ B). reflexivity. }
  split; [exact Hx|].
  assert (Hval : x == 7.319).
  { rewrite Forall_forall in Hall.
    rewrite (Hall x) by (by eapply list_elem_of_lookup_2). reflexivity. }
  split; [exact Hval|]. split; [rewrite Hval; discriminate|].
  split; [rewrite Hsum; reflexivity|].
  rewrite Hsum. discriminate.
Qed.

(** C3.  On every configuration on which the model runs, the ledger has a
    row for every project year, and in every row the equity cash flow is the
    operating cash flow minus the total debt service, the latter being the
    sum of the hard-currency interest and principal and of the
    local-currency interest and principal, each divided by that year's
    (non-zero) FX rate. *)
Theorem C3_equity_cash_flow (c : Config) :
  ledger_defined c ->
  exists df,
    build_full_model c = Ok df /\
    (forall i, (i < Z.to_nat (PROJECT_YEARS c))%nat ->
               is_Some (ledger_row df i)) /\
    forall i r, ledger_row df i = Some r ->
      r_Eq_CF r = r_Op_CF r - r_Total_DS r /\
      r_Total_DS r
      = r_USD_Int r + r_USD_Prin r + r_LKR_Int r + r_LKR_Prin r /\
      exists ps p,
        debt_schedule_passes c = Ok ps /\ ps !! i = Some p /\
        yp_year p = r_Year r /\
        compute_fx c (r_Year r) = Ok (r_FX r) /\ ~ r_FX r == 0 /\
        r_USD_Int r = yp_usd_int p /\ r_USD_Prin r = yp_usd_prin p /\
        r_LKR_Int r = yp_lkr_int p / r_FX r /\
        r_LKR_Prin r = yp_lkr_prin p / r_FX r.
Proof.
  intros Hl. destruct (build_full_model_ok c Hl) as [df Hb].
  exists df. split; [exact Hb|]. split.
  { intros i Hi. by apply (ledger_row_some c). }
  intros i r Hr.
  destruct (ledger_row_totals c df i r Hb Hr) as (Ht & _ & He).
  destruct (ledger_row_engine c df i r Hb Hr) as (_ & _ & _ & Hfx & _).
  destruct (ledger_row_debt c df i r Hb Hr)
    as (ps & p & Hps & Hp & Hy & _ & Hnz & Hrest).
  split; [exact He|]. split; [exact Ht|].
  exists ps, p. auto 10.
Qed.

Lemma C3_equity_cash_flow_witness :
  exists df,
    build_full_model module_constants = Ok df /\
    (forall i, (i < 20)%nat -> is_Some (ledger_row df i)) /\
    forall i r, ledger_row df i = Some r ->
      r_Eq_CF r = r_Op_CF r - r_Total_DS r /\
      r_Total_DS r
      = r_USD_Int r + r_USD_Prin r + r_LKR_Int r + r_LKR_Prin r /\
      exists ps p,
        debt_schedule_passes module_constants = Ok ps /\ ps !! i = Some p /\
        yp_year p = r_Year r /\
        compute_fx module_constants (r_Year r) = Ok (r_FX r) /\
        ~ r_FX r == 0 /\
        r_USD_Int r = yp_usd_int p /\ r_USD_Prin r = yp_usd_prin p /\
        r_LKR_Int r = yp_lkr_int p / r_FX r /\
        r_LKR_Prin r = yp_lkr_prin p / r_FX r.
Proof.
  apply (C3_equity_cash_flow module_constants).
  exact module_constants_ledger_defined.
Defined.

(** One cell of the coverage ratio: the quotient above the threshold,
    not-a-number at or below it, and never an infinity, although the
    quotient is evaluated before the selection even for a zero divisor. *)
Lemma dscr_cell_spec (op_cf total_ds : Q) :
  (1e-6 < total_ds -> dscr_cell op_cf total_ds = Fin (op_cf / total_ds)) /\
  (total_ds <= 1e-6 -> dscr_cell op_cf total_ds = NaN) /\
  is_inf (dscr_cell op_cf total_ds) = false.
Proof.
  unfold dscr_cell, np_where.
  destruct (Qlt_bool 1e-6 total_ds) eqn:E.
  - apply Qlt_bool_true in E.
    assert (Hd : np_divide op_cf total_ds = Fin (op_cf / total_ds)).
    { unfold np_divide. destruct (Qeq_bool total_ds 0) eqn:E0; [|reflexivity].
      apply Qeq_bool_iff in E0. rewrite E0 in E. discriminate E. }
    rewrite Hd. split; [reflexivity|]. split; [|reflexivity].
    intros Hle. lra.
  - apply Qlt_bool_false in E. split; [|split; reflexivity].
    intros Hlt. lra.
Qed.

(** C6.  In every row of the ledger the coverage ratio is operating cash
    flow divided by total debt service when the debt service exceeds
    [1e-6], and not-a-number otherwise; it is never an infinity.  The cell
    is computed by a total function: nothing in it can raise. *)
Theorem C6_dscr_guarded (c : Config) :
  ledger_defined c ->
  exists df,
    build_full_model c = Ok df /\
    (forall i, (i < Z.to_nat (PROJECT_YEARS c))%nat ->
               is_Some (ledger_row df i)) /\
    forall i r, ledger_row df i = Some r ->
      (1e-6 < r_Total_DS r -> r_DSCR r = Fin (r_Op_CF r / r_Total_DS r)) /\
      (r_Total_DS r <= 1e-6 -> r_DSCR r = NaN) /\
      is_inf (r_DSCR r) = false.
Proof.
  intros Hl. destruct (build_full_model_ok c Hl) as [df Hb].
  exists df. split; [exact Hb|]. split.
  { intros i Hi. by apply (ledger_row_some c). }
  intros i r Hr.
  destruct (ledger_row_totals c df i r Hb Hr) as (_ & -> & _).
  apply dscr_cell_spec.
Qed.

Lemma C6_dscr_guarded_witness :
  exists df,
    build_full_model module_constants = Ok df /\
    (forall i, (i < 20)%nat -> is_Some (ledger_row df i)) /\
    forall i r, ledger_row df i = Some r ->
      (1e-6 < r_Total_DS r -> r_DSCR r = Fin (r_Op_CF r / r_Total_DS r)) /\
      (r_Total_DS r <= 1e-6 -> r_DSCR r = NaN) /\
      is_inf (r_DSCR r) = false.
Proof.
  apply (C6_dscr_guarded module_constants).
  exact module_constants_ledger_defined.
Defined.

(** C9.  For every project year, the operating cash flow that the scheduler
    computes inside its loop equals the [Op_CF] cell that the assembler
    computes for the same year, and so do the intermediate EBITDA,
    depreciation, EBIT and tax. *)
Theorem C9_operating_cash_flow_chains_agree (c : Config) :
  ledger_defined c ->
  exists df ps,
    build_full_model c = Ok df /\ debt_schedule_passes c = Ok ps /\
    length ps = Z.to_nat (PROJECT_YEARS c) /\
    forall i p, ps !! i = Some p ->
      exists r,
        ledger_row df i = Some r /\ yp_year p = r_Year r /\
        oc_ebitda (yp_chain p) == r_EBITDA r /\
        oc_da (yp_chain p) == r_DA r /\
        oc_ebit (yp_chain p) == r_EBIT r /\
        oc_tax (yp_chain p) == r_Tax r /\
        oc_op_cf (yp_chain p) == r_Op_CF r.
Proof.
  intros Hl. destruct (build_full_model_ok c Hl) as [df Hb].
  destruct (debt_schedule_passes_ok c (ledger_defined_schedule c Hl))
    as [ps Hps].
  pose proof (run_years_length _ _ _ _ Hps) as Hlen.
  rewrite years_range_length in Hlen.
  exists df, ps. split; [exact Hb|]. split; [exact Hps|].
  split; [exact Hlen|].
  intros i p Hp.
  destruct (ledger_row_some c df i Hb) as [r Hr].
  { rewrite <- Hlen. by eapply lookup_lt_Some. }
  exists r. split; [exact Hr|].
  destruct (ledger_row_engine c df i r Hb Hr)
    as (_ & Hyr & _ & _ & _ & Hrev & Hsscl & Hopex).
  destruct (ledger_row_chain c df i r Hb Hr)
    as (d & Hd & He & Hda & Hebit & Htax & Hop).
  destruct (run_years_lookup c _ _ _ _ _ Hps Hp) as (year & b & Hy & Hpass).
  rewrite Hyr in Hy. injection Hy as <-.
  pose proof (year_pass_year c _ _ _ Hpass) as Hyear.
  destruct (year_pass_chain c _ _ _ Hpass)
    as (rev & sscl & opex & da & Hrev' & Hsscl' & Hopex' & Hd' & Ce & Cda
        & Cebit & Ctax & Cop).
  rewrite Hrev in Hrev'. injection Hrev' as <-.
  rewrite Hsscl in Hsscl'. injection Hsscl' as <-.
  rewrite Hopex in Hopex'. injection Hopex' as <-.
  rewrite Hd in Hd'. injection Hd' as <-.
  split; [exact Hyear|].
  assert (E1 : oc_ebitda (yp_chain p) == r_EBITDA r)
    by (rewrite Ce, He; reflexivity).
  assert (E2 : oc_da (yp_chain p) == r_DA r) by (rewrite Cda, Hda; ring).
  assert (E3 : oc_ebit (yp_chain p) == r_EBIT r)
    by (rewrite Cebit, Hebit, E1, Hda; ring).
  assert (E4 : oc_tax (yp_chain p) == r_Tax r).
  { rewrite Ctax, Htax, py_max_np_maximum.
    unfold np_maximum.
    assert (Hm : oc_ebit (yp_chain p) * TAX_RATE c
                 == r_EBIT r * TAX_RATE c) by (by rewrite E3).
    destruct (Qle_bool 0 (oc_ebit (yp_chain p) * TAX_RATE c)) eqn:Ea;
      destruct (Qle_bool 0 (r_EBIT r * TAX_RATE c)) eqn:Eb;
      try exact Hm; try reflexivity.
    - apply Qle_bool_iff in Ea. apply Qle_bool_false in Eb. lra.
    - apply Qle_bool_iff in Eb. apply Qle_bool_false in Ea. lra. }
  repeat (split; [assumption|]).
  rewrite Cop, Hop, E3, E4, Hda. ring.
Qed.

Lemma C9_operating_cash_flow_chains_agree_witness :
  exists df ps,
    build_full_model module_constants = Ok df /\
    debt_schedule_passes module_constants = Ok ps /\
    length ps = 20%nat /\
    forall i p, ps !! i = Some p ->
      exists r,
        ledger_row df i = Some r /\ yp_year p = r_Year r /\
        oc_ebitda (yp_chain p) == r_EBITDA r /\
        oc_da (yp_chain p) == r_DA r /\
        oc_ebit (yp_chain p) == r_EBIT r /\
        oc_tax (yp_chain p) == r_Tax r /\
        oc_op_cf (yp_chain p) == r_Op_CF r.
Proof.
  apply (C9_operating_cash_flow_chains_agree module_constants).
  exact module_constants_ledger_defined.
Defined.

End LedgerClaims.

(* ====================================================================== *)
(** * calculate_irr_robust: the input guards *)
(* ====================================================================== *)

Section IrrClaims.
Import Irr.
Context {solvers : Solvers}.

Lemma all_nonnegative_Forall (cash_flows : list Q) :
  all_nonnegative cash_flows = true <-> Forall (fun cf => 0 <= cf) cash_flows.
Proof.
  unfold all_nonnegative. rewrite forallb_forall, Forall_forall.
  split; intros Hall cf Hin.
  - apply Qle_bool_iff, Hall. by apply list_elem_of_In.
  - apply Qle_bool_iff, Hall. by apply list_elem_of_In.
Qed.

Lemma all_nonpositive_Forall (cash_flows : list Q) :
  all_nonpositive cash_flows = true <-> Forall (fun cf => cf <= 0) cash_flows.
Proof.
  unfold all_nonpositive. rewrite forallb_forall, Forall_forall.
  split; intros Hall cf Hin.
  - apply Qle_bool_iff, Hall. by apply list_elem_of_In.
  - apply Qle_bool_iff, Hall. by apply list_elem_of_In.
Qed.

(** What the guards' dictionary holds. *)
Lemma guard_error_entries (message : string) :
  guard_error message !! "status" = Some (VStr "ERROR") /\
  guard_error message !! "message" = Some (VStr message) /\
  guard_error message !! "irr" = Some VNone /\
  guard_error message !! "method" = Some VNone.
Proof. repeat split. Qed.

(** C4.  Whatever the solvers, the method and the tolerances:
    an input of fewer than two cash flows, an input without a negative cash
    flow and an input without a positive cash flow each make
    [calculate_irr_robust] return (not raise) a dictionary whose status is
    ERROR, whose rate is [None] and whose message names the case; the three
    messages differ.  The result does not mention the solvers: no solve is
    attempted. *)
Theorem C4_ill_posed_input (cash_flows : list Q) (method : string)
    (initial_guess tolerance : Q) (max_iterations : Z) :
  let result :=
    calculate_irr_robust cash_flows method initial_guess tolerance
                         max_iterations in
  ((length cash_flows < 2)%nat -> result = Ok (guard_error msg_too_few)) /\
  ((2 <= length cash_flows)%nat ->
   Forall (fun cf => 0 <= cf) cash_flows ->
   result = Ok (guard_error msg_no_negative)) /\
  ((2 <= length cash_flows)%nat ->
   ~ Forall (fun cf => 0 <= cf) cash_flows ->
   Forall (fun cf => cf <= 0) cash_flows ->
   result = Ok (guard_error msg_no_positive)) /\
  ((length cash_flows < 2)%nat \/
   Forall (fun cf => 0 <= cf) cash_flows \/
   Forall (fun cf => cf <= 0) cash_flows ->
   exists message,
     result = Ok (guard_error message) /\
     guard_error message !! "status" = Some (VStr "ERROR") /\
     guard_error message !! "irr" = Some VNone) /\
  msg_too_few <> msg_no_negative /\ msg_too_few <> msg_no_positive /\
  msg_no_negative <> msg_no_positive.
Proof.
  intros result.
  assert (H1 : (length cash_flows < 2)%nat ->
               result = Ok (guard_error msg_too_few)).
  { intros Hlen. subst result. unfold calculate_irr_robust.
    replace (length cash_flows <? 2)%nat with true; [reflexivity|].
    symmetry. by apply Nat.ltb_lt. }
  assert (H2 : (2 <= length cash_flows)%nat ->
               Forall (fun cf => 0 <= cf) cash_flows ->
               result = Ok (guard_error msg_no_negative)).
  { intros Hlen Hall. subst result. unfold calculate_irr_robust.
    replace (length cash_flows <? 2)%nat with false
      by (symmetry; apply Nat.ltb_ge; exact Hlen).
    apply all_nonnegative_Forall in Hall. rewrite Hall. reflexivity. }
  assert (H3 : (2 <= length cash_flows)%nat ->
               ~ Forall (fun cf => 0 <= cf) cash_flows ->
               Forall (fun cf => cf <= 0) cash_flows ->
               result = Ok (guard_error msg_no_positive)).
  { intros Hlen Hsome Hall. subst result. unfold calculate_irr_robust.
    replace (length cash_flows <? 2)%nat with false
      by (symmetry; apply Nat.ltb_ge; exact Hlen).
    destruct (all_nonnegative cash_flows) eqn:E.
    - exfalso. by apply Hsome, all_nonnegative_Forall.
    - apply all_nonpositive_Forall in Hall. rewrite Hall. reflexivity. }
  repeat (split; [assumption|]). split; [|by repeat split].
  intros Hill.
  destruct (Nat.lt_ge_cases (length cash_flows) 2) as [Hlt|Hge].
  { exists msg_too_few. split; [by apply H1|by split]. }
  destruct (all_nonnegative cash_flows) eqn:E.
  { exists msg_no_negative. split; [|by split].
    by apply H2, all_nonnegative_Forall. }
  assert (Hsome : ~ Forall (fun cf => 0 <= cf) cash_flows).
  { intros Hall. apply all_nonnegative_Forall in Hall. congruence. }
  destruct Hill as [Hlt|[Hall|Hall]]; [lia|contradiction|].
  exists msg_no_positive. split; [by apply H3|by split].
Qed.

End IrrClaims.

(** The three guarded cases on concrete inputs, with no solver at hand. *)
Lemma C4_ill_posed_input_witness :
  Irr.calculate_irr_robust (solvers := Irr.no_solvers) [10; 10; 10] "brentq" 0.10 1e-8 1000
  = Ok (Irr.guard_error Irr.msg_no_negative) /\
  Irr.calculate_irr_robust (solvers := Irr.no_solvers) [-100] "brentq" 0.10 1e-8 1000
  = Ok (Irr.guard_error Irr.msg_too_few) /\
  Irr.calculate_irr_robust (solvers := Irr.no_solvers) [-5; 0; -7] "both" 0.10 1e-8 1000
  = Ok (Irr.guard_error Irr.msg_no_positive).
Proof.
  split; [|split].
  - apply (C4_ill_posed_input (solvers := Irr.no_solvers) [10; 10; 10]).
    + cbn. lia.
    + repeat constructor; discriminate.
  - apply (C4_ill_posed_input (solvers := Irr.no_solvers) [-100]). cbn. lia.
  - apply (C4_ill_posed_input (solvers := Irr.no_solvers) [-5; 0; -7]).
    + cbn. lia.
    + intros Hall. inversion Hall as [|? ? Hneg]. by apply Hneg.
    + repeat constructor; discriminate.
Defined.

(* ====================================================================== *)
(** * optimize_capital_structure: what is caught and what is returned *)
(* ====================================================================== *)

Section OptimizerClaims.
Import V12 Optimizer.
Context {collaborators : Collaborators} {scipy : Scipy} {builtins : Builtins}.
Variable objective : string.
Variable constraints : gmap string Q.

Lemma try_except_total {A} (body : res A) (handler : exn -> res A) :
  (forall e, exists a, handler e = Ok a) ->
  exists a, try_except body handler = Ok a.
Proof.
  intros Hh. destruct body as [a|e]; cbn; [eauto|apply Hh].
Qed.

Lemma try_except_caught {A} (body : res A) (handler : exn -> res A) (e : exn) :
  body = Raise e -> try_except body handler = handler e.
Proof. by intros ->. Qed.

(** A trial evaluation that raises makes each of the three bodies raise. *)
Lemma trial_raises (params debt_template : pydict) (x : list Q) (e : exn) :
  trial params debt_template x = Raise e ->
  objective_body objective params debt_template x = Raise e /\
  constraint_min_irr_body constraints params debt_template x = Raise e /\
  constraint_min_dscr_body constraints params debt_template x = Raise e.
Proof.
  intros Ht.
  unfold objective_body, constraint_min_irr_body, constraint_min_dscr_body.
  rewrite Ht. by repeat split.
Qed.

Lemma success_result_entries (dratio usd_pct dfi_pct : Q) (model : pydict)
    (r : OptimizeResult) (equity_irr project_irr npv min_dscr : pyval)
    (irr_violation dscr_violation : Q) :
  let d := success_result dratio usd_pct dfi_pct model r equity_irr
                          project_irr npv min_dscr irr_violation
                          dscr_violation in
  d !! "convergence" = Some (VBool (opt_success r)) /\
  d !! "message" = Some (VStr (opt_message r)) /\
  d !! "constraint_violations"
  = Some (VDict {[ "irr_violation" := VNum (py_max 0 irr_violation);
                   "dscr_violation" := VNum (py_max 0 dscr_violation) ]}) /\
  d !! "error" = None.
Proof. repeat split. Qed.

Lemma failure_result_entries (e : exn) :
  failure_result e !! "convergence" = Some (VBool false) /\
  failure_result e !! "message"
  = Some (VStr ("Optimization failed with error: " +:+ str e)) /\
  failure_result e !! "error" = Some (VStr (str e)) /\
  failure_result e !! "constraint_violations" = None.
Proof. repeat split. Qed.

Lemma getitem_inv (d : pydict) (k : string) (v : pyval) :
  getitem d k = Ok v -> d !! k = Some v.
Proof. unfold getitem. destruct (d !! k); [by intros [= ->]|discriminate]. Qed.

Lemma constraint_threshold_inv (k : string) (t : Q) :
  constraint_threshold constraints k = Ok t -> constraints !! k = Some t.
Proof.
  unfold constraint_threshold.
  destruct (constraints !! k); [by intros [= ->]|discriminate].
Qed.

(** A [try] block that ran to its end called the optimiser, evaluated the
    model at the point it returned, read both thresholds and both model
    figures and returned the success dictionary. *)
Lemma optimize_body_inv (params debt_template : pydict) (d : pydict) :
  optimize_body objective constraints params debt_template = Ok d ->
  exists r dratio usd_pct dfi_pct model t_irr e_irr t_dscr m_dscr,
    completed objective constraints params debt_template d r dratio usd_pct
              dfi_pct model t_irr e_irr t_dscr m_dscr.
Proof.
  unfold optimize_body. intros Hb.
  apply bind_ok_inv in Hb as (r & Hr & Hb).
  apply bind_ok_inv in Hb as ([[[dratio usd_pct] dfi_pct] model] & Ht & Hb).
  apply bind_ok_inv in Hb as (t_irr & Hti & Hb).
  apply bind_ok_inv in Hb as (e_irr & Hei & Hb).
  apply bind_ok_inv in Hb as (t_dscr & Htd & Hb).
  apply bind_ok_inv in Hb as (m_dscr & Hmd & Hb).
  apply bind_ok_inv in Hb as (equity_irr & Hg1 & Hb).
  apply bind_ok_inv in Hb as (project_irr & Hg2 & Hb).
  apply bind_ok_inv in Hb as (npv & Hg3 & Hb).
  apply bind_ok_inv in Hb as (min_dscr & Hg4 & Hb).
  injection Hb as <-.
  apply bind_ok_inv in Hei as (v1 & Hv1 & Ha1).
  apply bind_ok_inv in Hmd as (v2 & Hv2 & Ha2).
  exists r, dratio, usd_pct, dfi_pct, model, t_irr, e_irr, t_dscr, m_dscr.
  constructor.
  - exact Hr.
  - exact Ht.
  - by apply constraint_threshold_inv.
  - exists v1. split; [by apply getitem_inv|exact Ha1].
  - by apply constraint_threshold_inv.
  - exists v2. split; [by apply getitem_inv|exact Ha2].
  - exists equity_irr, project_irr, npv, min_dscr.
    repeat (split; [by apply getitem_inv|]). reflexivity.
Qed.

Lemma py_max_clamped (v : Q) : v <= 0 -> py_max 0 v = 0.
Proof.
  intros Hv. destruct (py_max_cases 0 v) as [[Hlt _]|[_ ->]]; [lra|reflexivity].
Qed.

(** C7 (as the code has it).  The objective and the two constraint functions
    never raise: an exception in the trial evaluation, or anywhere else in
    their bodies, is turned into [1e10] for the objective and [-1e10] for the
    constraints.  [optimize_capital_structure] calls the two default
    constructors before its [try] block, so an exception of theirs reaches
    the caller; once both have returned it never raises, and the dictionary
    it returns always has a boolean under ["convergence"] and a string under
    ["message"].  When the outer [try] block runs to its end, the dictionary
    carries the optimiser's flag and message and both constraint violations:
    the threshold minus the model's figure at the point the optimiser
    returned, floored at zero.  When an exception reaches the outer handler
    it carries the exception text under ["error"] and in ["message"],
    [False] under ["convergence"], and no constraint-violation entry. *)
Theorem C7_optimizer_never_raises :
  (forall params debt_template x,
     (exists v, objective_func objective params debt_template x = Ok v) /\
     (exists v, constraint_min_irr constraints params debt_template x = Ok v) /\
     (exists v,
        constraint_min_dscr constraints params debt_template x = Ok v)) /\
  (forall params debt_template x e,
     (objective_body objective params debt_template x = Raise e ->
      objective_func objective params debt_template x = Ok 1e10) /\
     (constraint_min_irr_body constraints params debt_template x = Raise e ->
      constraint_min_irr constraints params debt_template x = Ok (- 1e10)) /\
     (constraint_min_dscr_body constraints params debt_template x = Raise e ->
      constraint_min_dscr constraints params debt_template x = Ok (- 1e10)) /\
     (trial params debt_template x = Raise e ->
      objective_func objective params debt_template x = Ok 1e10 /\
      constraint_min_irr constraints params debt_template x = Ok (- 1e10) /\
      constraint_min_dscr constraints params debt_template x
      = Ok (- 1e10))) /\
  (forall e,
     create_default_parameters = Raise e ->
     optimize_capital_structure objective constraints = Raise e) /\
  (forall params e,
     create_default_parameters = Ok params ->
     create_default_debt_structure = Raise e ->
     optimize_capital_structure objective constraints = Raise e) /\
  (forall params debt_template,
     create_default_parameters = Ok params ->
     create_default_debt_structure = Ok debt_template ->
     exists d,
       optimize_capital_structure objective constraints = Ok d /\
       (exists b, d !! "convergence" = Some (VBool b)) /\
       (exists m, d !! "message" = Some (VStr m)) /\
       ((exists r dratio usd_pct dfi_pct model t_irr e_irr t_dscr m_dscr,
           completed objective constraints params debt_template d r dratio
                     usd_pct dfi_pct model t_irr e_irr t_dscr m_dscr /\
           d !! "convergence" = Some (VBool (opt_success r)) /\
           d !! "message" = Some (VStr (opt_message r)) /\
           d !! "constraint_violations"
           = Some (VDict
                     {[ "irr_violation" := VNum (py_max 0 (t_irr - e_irr));
                        "dscr_violation"
                        := VNum (py_max 0 (t_dscr - m_dscr)) ]}) /\
           0 <= py_max 0 (t_irr - e_irr) /\
           0 <= py_max 0 (t_dscr - m_dscr) /\
           (t_irr <= e_irr -> py_max 0 (t_irr - e_irr) = 0) /\
           (t_dscr <= m_dscr -> py_max 0 (t_dscr - m_dscr) = 0) /\
           (e_irr < t_irr -> py_max 0 (t_irr - e_irr) = t_irr - e_irr) /\
           (m_dscr < t_dscr ->
            py_max 0 (t_dscr - m_dscr) = t_dscr - m_dscr)) \/
        (exists e,
           optimize_body objective constraints params debt_template
           = Raise e /\
           d = failure_result e /\
           d !! "convergence" = Some (VBool false) /\
           d !! "message"
           = Some (VStr ("Optimization failed with error: " +:+ str e)) /\
           d !! "error" = Some (VStr (str e)) /\
           d !! "constraint_violations" = None))).
Proof.
  split; [|split; [|split; [|split]]].
  - intros params debt_template x.
    repeat split; apply try_except_total; intros e; eexists; reflexivity.
  - intros params debt_template x e.
    split; [intros Hb; unfold objective_func; by rewrite Hb|].
    split; [intros Hb; unfold constraint_min_irr; by rewrite Hb|].
    split; [intros Hb; unfold constraint_min_dscr; by rewrite Hb|].
    intros Ht.
    destruct (trial_raises params debt_template x e Ht) as (Ho & Hi & Hd).
    unfold objective_func, constraint_min_irr, constraint_min_dscr.
    rewrite Ho, Hi, Hd. by repeat split.
  - intros e He. unfold optimize_capital_structure. by rewrite He.
  - intros params e Hp He. unfold optimize_capital_structure.
    by rewrite Hp, He.
  - intros params debt_template Hp Ht. unfold optimize_capital_structure.
    rewrite Hp, Ht. cbn [mbind res_bind].
    destruct (optimize_body objective constraints params debt_template)
      as [d|e] eqn:Hb; cbn [try_except mret res_ret].
    + exists d. split; [reflexivity|].
      destruct (optimize_body_inv params debt_template d Hb)
        as (r & dratio & usd_pct & dfi_pct & model & t_irr & e_irr & t_dscr
            & m_dscr & Hc).
      destruct (cp_result _ _ _ _ _ _ _ _ _ _ _ _ _ _ Hc)
        as (equity_irr & project_irr & npv & min_dscr & _ & _ & _ & _ & Hd).
      destruct (success_result_entries dratio usd_pct dfi_pct model r
                  equity_irr project_irr npv min_dscr (t_irr - e_irr)
                  (t_dscr - m_dscr)) as (Hcv & Hm & Hv & _).
      rewrite <- Hd in Hcv, Hm, Hv.
      split; [eexists; exact Hcv|]. split; [eexists; exact Hm|].
      left. exists r, dratio, usd_pct, dfi_pct, model, t_irr, e_irr, t_dscr,
              m_dscr.
      split; [exact Hc|]. split; [exact Hcv|]. split; [exact Hm|].
      split; [exact Hv|].
      split; [apply py_max_floor|]. split; [apply py_max_floor|].
      split; [intros; apply py_max_clamped; lra|].
      split; [intros; apply py_max_clamped; lra|].
      split; intros Hlt.
      * destruct (py_max_cases 0 (t_irr - e_irr)) as [[_ ->]|[Hle _]];
          [reflexivity|lra].
      * destruct (py_max_cases 0 (t_dscr - m_dscr)) as [[_ ->]|[Hle _]];
          [reflexivity|lra].
    + exists (failure_result e). split; [reflexivity|].
      destruct (failure_result_entries e) as (Hc & Hm & He & Hv).
      split; [eexists; exact Hc|]. split; [eexists; exact Hm|].
      right. exists e. split; [reflexivity|]. split; [reflexivity|].
      split; [exact Hc|]. split; [exact Hm|]. split; [exact He|exact Hv].
Qed.

End OptimizerClaims.

(** C7 (as stated) fails.  When the model reports no rate of return at the
    point the optimiser stops at, the final evaluation raises inside the
    outer [try] block, and the dictionary returned has no
    constraint-violation entry. *)
Lemma C7_counterexample :
  exists d,
    Optimizer.optimize_capital_structure
      (collaborators := Optimizer.no_rate_model)
      (scipy := Optimizer.stalled_search)
      (builtins := Optimizer.class_and_argument)
      Optimizer.default_objective Optimizer.default_constraints = Ok d /\
    d !! "convergence" = Some (VBool false) /\
    d !! "constraint_violations" = None.
Proof.
  exists (Optimizer.failure_result
            (builtins := Optimizer.class_and_argument)
            (TypeError "unsupported operand type(s)")).
  split; [reflexivity|]. split; reflexivity.
Qed.

(** On a model that always reports an equity IRR of 18% and a minimum DSCR
    of 1.1 against thresholds of 15% and 1.3, the IRR violation is clamped
    to zero and the DSCR violation is reported. *)
Lemma C7_optimizer_never_raises_witness :
  exists d,
    Optimizer.optimize_capital_structure
      (collaborators := Optimizer.flat_model)
      (scipy := Optimizer.stalled_search)
      (builtins := Optimizer.class_and_argument)
      Optimizer.default_objective Optimizer.default_constraints = Ok d /\
    (exists b, d !! "convergence" = Some (VBool b)) /\
    (exists m, d !! "message" = Some (VStr m)).
Proof.
  destruct (C7_optimizer_never_raises
              (collaborators := Optimizer.flat_model)
              (scipy := Optimizer.stalled_search)
              (builtins := Optimizer.class_and_argument)
              Optimizer.default_objective Optimizer.default_constraints)
    as (_ & _ & _ & _ & H).
  destruct (H {[ "total_capex" := VNum 155 ]} ∅ eq_refl eq_refl)
    as (d & Hd & Hc & Hm & _).
  exists d. by repeat split.
Defined.

(* ====================================================================== *)
(** * Monte Carlo: the rows of a run *)
(* ====================================================================== *)

Section MonteCarloRows.
Import V12 MonteCarlo.
Context {collaborators : Collaborators} {numpy : NumpyRandom}.

(** The row of draw [i] holds the five sampled values of index [i]. *)
Lemma mc_iteration_sampled (params debt_template : pydict)
    (scenarios : gmap string (list Q)) (i : Z) (row : pydict) :
  mc_iteration params debt_template scenarios i = Ok row ->
  forall k, k ∈ sampled_fields ->
    exists v, scenario scenarios k i = Ok v /\ row !! k = Some (VNum v).
Proof.
  unfold mc_iteration. intros Hrow.
  apply bind_ok_inv in Hrow as (capfac & Hcf & Hrow).
  apply bind_ok_inv in Hrow as (fxdepr & Hfx & Hrow).
  apply bind_ok_inv in Hrow as (dratio & Hdr & Hrow).
  apply bind_ok_inv in Hrow as (urate & Hur & Hrow).
  apply bind_ok_inv in Hrow as (lrate & Hlr & Hrow).
  ok_inv Hrow. injection Hrow as <-.
  intros k Hk. unfold sampled_fields in Hk.
  repeat (apply elem_of_cons in Hk as [->|Hk]; [eauto|]).
  by apply elem_of_nil in Hk.
Qed.

End MonteCarloRows.

(* ====================================================================== *)
(** * The cash-flow engine from one year to the next *)
(* ====================================================================== *)

Section EngineGrowth.
Import Model.
Variable c : Config.

Lemma Qpower_next (a : Q) (year : Z) :
  ~ a == 0 -> a ^ (year + 1 - 1) == a ^ (year - 1) * a.
Proof.
  intros Ha. replace (year + 1 - 1)%Z with (year - 1 + 1)%Z by lia.
  rewrite Qpower_plus by exact Ha. by rewrite Qpower_1_r.
Qed.

Lemma compute_generation_value (year : Z) :
  (1 <= year)%Z ->
  compute_generation c year
  = Ok (inject_Z (NAMEPLATE_MW c * HOURS_PER_YEAR c) * CF_P50 c
        * (1 - YEARLY_DEGRADATION c) ^ (year - 1)).
Proof.
  intros Hy. unfold compute_generation. by rewrite py_pow_ok by lia.
Qed.

Lemma compute_tariff_usd_value (year : Z) :
  year_defined c year ->
  compute_tariff_usd c year
  = Ok (TARIFF_LKR_KWH c
        / (inject_Z (FX_INITIAL c) * (1 + FX_DEPR c) ^ (year - 1)) * 1000).
Proof.
  intros Hd. unfold compute_tariff_usd.
  rewrite compute_fx_ok by apply Hd. cbn [mbind res_bind].
  by rewrite py_div_ok by by apply fx_nonzero.
Qed.

Lemma compute_revenue_value (year : Z) :
  year_defined c year ->
  compute_revenue c year
  = Ok (inject_Z (NAMEPLATE_MW c * HOURS_PER_YEAR c) * CF_P50 c
        * (1 - YEARLY_DEGRADATION c) ^ (year - 1)
        * (TARIFF_LKR_KWH c
           / (inject_Z (FX_INITIAL c) * (1 + FX_DEPR c) ^ (year - 1)) * 1000)
        / 1000000).
Proof.
  intros Hd. unfold compute_revenue.
  rewrite compute_generation_value by apply Hd. cbn [mbind res_bind].
  by rewrite compute_tariff_usd_value.
Qed.

Lemma compute_opex_value (year : Z) :
  year_defined c year ->
  compute_opex c year
  = Ok (inject_Z (NAMEPLATE_MW c * HOURS_PER_YEAR c) * CF_P50 c
        * (1 - YEARLY_DEGRADATION c) ^ (year - 1)
        * (OPEX_USD_MWH c * OPEX_SPLIT_USD c * (1 + OPEX_ESC_USD c) ^ (year - 1)
           + OPEX_USD_MWH c * OPEX_SPLIT_LKR c
             * (1 + OPEX_ESC_LKR c) ^ (year - 1)
             / (inject_Z (FX_INITIAL c) * (1 + FX_DEPR c) ^ (year - 1)
                / inject_Z (FX_INITIAL c)))
        / 1000000).
Proof.
  intros Hd. pose proof Hd as (Hy & _ & Hfx & _). unfold compute_opex.
  rewrite compute_generation_value by exact Hy. cbn [mbind res_bind].
  rewrite compute_fx_ok by exact Hy. cbn [mbind res_bind].
  rewrite !py_pow_ok by lia. cbn [mbind res_bind].
  pose proof (fx_nonzero c year Hd) as Hnz.
  pose proof (inject_Z_nonzero _ Hfx) as Hi.
  rewrite py_div_ok by exact Hi. cbn [mbind res_bind].
  rewrite py_div_ok by by apply Qdiv_nonzero. reflexivity.
Qed.

Lemma year_defined_next (year : Z) :
  year_defined c year -> ~ 1 + FX_DEPR c == 0 -> year_defined c (year + 1).
Proof.
  intros (Hy & He & Hfx & _) Hd.
  split; [lia|]. split; [exact He|]. split; [exact Hfx|]. by intros _.
Qed.

(** X1.  Generation falls by the degradation rate each year: for a
    positive nameplate capacity, hours and capacity factor and a degradation
    rate strictly between 0 and 1, next year's generation is this year's
    times [1 - YEARLY_DEGRADATION], positive and strictly smaller. *)
Theorem X1_generation_declines (year : Z) :
  (1 <= year)%Z ->
  (0 < NAMEPLATE_MW c * HOURS_PER_YEAR c)%Z -> 0 < CF_P50 c ->
  0 < YEARLY_DEGRADATION c -> YEARLY_DEGRADATION c < 1 ->
  exists g g',
    compute_generation c year = Ok g /\
    compute_generation c (year + 1) = Ok g' /\
    g' == g * (1 - YEARLY_DEGRADATION c) /\ 0 < g' /\ g' < g.
Proof.
  intros Hy Hn Hcf Hd0 Hd1.
  do 2 eexists. split; [by apply compute_generation_value|].
  split; [apply compute_generation_value; lia|].
  set (k := inject_Z (NAMEPLATE_MW c * HOURS_PER_YEAR c) * CF_P50 c).
  set (q := 1 - YEARLY_DEGRADATION c).
  assert (Hq : 0 < q) by (unfold q; lra).
  assert (Hk : 0 < k).
  { apply Qmult_lt_0_compat; [|exact Hcf].
    change 0 with (inject_Z 0). rewrite <- Zlt_Qlt. exact Hn. }
  assert (Hp : 0 < q ^ (year - 1)) by (by apply Qpower_0_lt).
  assert (Hnext : q ^ (year + 1 - 1) == q ^ (year - 1) * q)
    by (apply Qpower_next; lra).
  assert (Hg : 0 < k * q ^ (year - 1)) by (by apply Qmult_lt_0_compat).
  rewrite Hnext. set (qp := q ^ (year - 1)) in *.
  split; [unfold q; ring|].
  assert (Hq1 : q < 1) by (unfold q; lra).
  split; nra.
Qed.

(** X2.  The FX rate compounds: for a positive initial rate and a positive
    depreciation rate, year 1 has the initial rate, and each year's rate is
    the previous year's times [1 + FX_DEPR], strictly larger. *)
Theorem X2_fx_compounds (year : Z) :
  (1 <= year)%Z -> (0 < FX_INITIAL c)%Z -> 0 < FX_DEPR c ->
  exists fx1 fx fx',
    compute_fx c 1 = Ok fx1 /\ fx1 == inject_Z (FX_INITIAL c) /\
    compute_fx c year = Ok fx /\ compute_fx c (year + 1) = Ok fx' /\
    fx' == fx * (1 + FX_DEPR c) /\ fx1 <= fx /\ fx < fx'.
Proof.
  intros Hy Hi Hd.
  do 3 eexists. split; [apply compute_fx_ok; lia|].
  split; [change ((1 + FX_DEPR c) ^ (1 - 1)) with 1; ring|].
  split; [by apply compute_fx_ok|].
  split; [apply compute_fx_ok; lia|].
  set (q := 1 + FX_DEPR c).
  assert (Hq : 1 < q) by (unfold q; lra).
  assert (Hf : 0 < inject_Z (FX_INITIAL c)).
  { change 0 with (inject_Z 0). rewrite <- Zlt_Qlt. exact Hi. }
  assert (Hp : 1 <= q ^ (year - 1)) by (apply Qpower_1_le; [lra|lia]).
  assert (Hnext : q ^ (year + 1 - 1) == q ^ (year - 1) * q)
    by (apply Qpower_next; lra).
  rewrite Hnext. change (q ^ (1 - 1)) with 1.
  set (qp := q ^ (year - 1)) in *.
  split; [unfold q; ring|].
  assert (Hm : 0 < inject_Z (FX_INITIAL c) * qp) by nra.
  split; [nra|].
  assert (Ha : inject_Z (FX_INITIAL c) * (qp * q)
               == inject_Z (FX_INITIAL c) * qp * q) by ring.
  rewrite Ha. nra.
Qed.

(** X3.  Revenue converted back at the year's FX rate is generation times
    the tariff, whatever the FX path; and with a positive tariff, capacity
    and FX rate, a degradation rate strictly between 0 and 1 and a
    non-negative FX depreciation rate, revenue is positive and strictly
    smaller each year, by the factor [(1 - degradation) / (1 + FX_DEPR)]. *)
Theorem X3_revenue_declines (year : Z) :
  (1 <= year)%Z -> ECON_LIFE c <> 0%Z ->
  (0 < FX_INITIAL c)%Z -> 0 <= FX_DEPR c ->
  (0 < NAMEPLATE_MW c * HOURS_PER_YEAR c)%Z -> 0 < CF_P50 c ->
  0 < TARIFF_LKR_KWH c ->
  0 < YEARLY_DEGRADATION c -> YEARLY_DEGRADATION c < 1 ->
  exists g fx r r',
    compute_generation c year = Ok g /\ compute_fx c year = Ok fx /\
    compute_revenue c year = Ok r /\
    compute_revenue c (year + 1) = Ok r' /\
    r * fx == g * TARIFF_LKR_KWH c / 1000 /\
    r' == r * ((1 - YEARLY_DEGRADATION c) / (1 + FX_DEPR c)) /\
    0 < r' /\ r' < r.
Proof.
  intros Hy He Hi Hd Hn Hcf Ht Hd0 Hd1.
  assert (Hdef : year_defined c year).
  { split; [exact Hy|]. split; [exact He|]. split; [lia|]. intros _. lra. }
  assert (Hdef' : year_defined c (year + 1))
    by (apply year_defined_next; [exact Hdef|lra]).
  do 4 eexists. split; [by apply compute_generation_value|].
  split; [by apply compute_fx_ok|].
  split; [by apply compute_revenue_value|].
  split; [by apply compute_revenue_value|].
  set (k := inject_Z (NAMEPLATE_MW c * HOURS_PER_YEAR c) * CF_P50 c).
  set (q := 1 - YEARLY_DEGRADATION c).
  set (f := 1 + FX_DEPR c).
  set (i := inject_Z (FX_INITIAL c)).
  assert (Hq : 0 < q) by (unfold q; lra).
  assert (Hq1 : q < 1) by (unfold q; lra).
  assert (Hf : 1 <= f) by (unfold f; lra).
  assert (Hipos : 0 < i).
  { unfold i. change 0 with (inject_Z 0). rewrite <- Zlt_Qlt. exact Hi. }
  assert (Hk : 0 < k).
  { apply Qmult_lt_0_compat; [|exact Hcf].
    change 0 with (inject_Z 0). rewrite <- Zlt_Qlt. exact Hn. }
  assert (Hqp : 0 < q ^ (year - 1)) by (by apply Qpower_0_lt).
  assert (Hfp : 0 < f ^ (year - 1)) by (apply Qpower_0_lt; lra).
  rewrite (Qpower_next q year) by lra.
  rewrite (Qpower_next f year) by lra.
  set (qp := q ^ (year - 1)) in *. set (fp := f ^ (year - 1)) in *.
  assert (Hr : k * qp * (TARIFF_LKR_KWH c / (i * fp) * 1000) / 1000000
               == k * qp * TARIFF_LKR_KWH c / (1000 * i * fp)).
  { field. split; lra. }
  assert (Hrpos : 0 < k * qp * TARIFF_LKR_KWH c / (1000 * i * fp)).
  { assert (Hkq : 0 < k * qp) by nra.
    apply Qlt_shift_div_l; [nra|]. nra. }
  split; [field; split; lra|]. split; [field; split; lra|].
  assert (Hratio : k * (qp * q) * (TARIFF_LKR_KWH c / (i * (fp * f)) * 1000)
                   / 1000000
                   == k * qp * TARIFF_LKR_KWH c / (1000 * i * fp) * (q / f)).
  { field. split; [lra|split; lra]. }
  assert (Hqf : 0 < q / f /\ q / f < 1).
  { split; [apply Qlt_shift_div_l; lra|apply Qlt_shift_div_r; lra]. }
  rewrite Hratio, Hr. split; nra.
Qed.

(** X4.  OPEX does not depend on the initial FX rate: the local-currency
    leg is divided by [FX(year) / FX_INITIAL], which is the compounded
    depreciation alone.  In year 1 nothing has escalated and OPEX is
    generation times the base rate times the sum of the two shares. *)
Theorem X4_opex_closed_form (year : Z) :
  year_defined c year ->
  exists g o g1 o1,
    compute_generation c year = Ok g /\ compute_opex c year = Ok o /\
    o == g * OPEX_USD_MWH c
         * (OPEX_SPLIT_USD c * (1 + OPEX_ESC_USD c) ^ (year - 1)
            + OPEX_SPLIT_LKR c * (1 + OPEX_ESC_LKR c) ^ (year - 1)
              / (1 + FX_DEPR c) ^ (year - 1))
         / 1000000 /\
    compute_generation c 1 = Ok g1 /\ compute_opex c 1 = Ok o1 /\
    o1 == g1 * OPEX_USD_MWH c * (OPEX_SPLIT_USD c + OPEX_SPLIT_LKR c)
          / 1000000.
Proof.
  intros Hd. pose proof Hd as (Hy & He & Hfx & Hdep).
  assert (Hd1 : year_defined c 1).
  { split; [lia|]. split; [exact He|]. split; [exact Hfx|]. lia. }
  do 4 eexists. split; [by apply compute_generation_value|].
  split; [by apply compute_opex_value|]. split.
  - pose proof (inject_Z_nonzero _ Hfx) as Hi.
    assert (Hp : ~ (1 + FX_DEPR c) ^ (year - 1) == 0).
    { destruct (Z.eq_dec year 1%Z) as [->|Hne]; [cbn; discriminate|].
      apply Qpower_not_0, Hdep. lia. }
    set (fp := (1 + FX_DEPR c) ^ (year - 1)) in *.
    set (qp := (1 - YEARLY_DEGRADATION c) ^ (year - 1)).
    set (up := (1 + OPEX_ESC_USD c) ^ (year - 1)).
    set (lp := (1 + OPEX_ESC_LKR c) ^ (year - 1)).
    field. split; [exact Hp|exact Hi].
  - split; [apply compute_generation_value; lia|].
    split; [by apply compute_opex_value|].
    pose proof (inject_Z_nonzero _ Hfx) as Hi.
    change ((1 - YEARLY_DEGRADATION c) ^ (1 - 1)) with 1.
    change ((1 + OPEX_ESC_USD c) ^ (1 - 1)) with 1.
    change ((1 + OPEX_ESC_LKR c) ^ (1 - 1)) with 1.
    change ((1 + FX_DEPR c) ^ (1 - 1)) with 1.
    field. exact Hi.
Qed.

End EngineGrowth.

Lemma X1_generation_declines_witness :
  exists g g',
    Model.compute_generation Model.module_constants 1 = Ok g /\
    Model.compute_generation Model.module_constants (1 + 1) = Ok g' /\
    g' == g * (1 - 0.006) /\ 0 < g' /\ g' < g.
Proof.
  apply (X1_generation_declines Model.module_constants 1);
    first [lia|reflexivity].
Defined.

Lemma X2_fx_compounds_witness :
  exists fx1 fx fx',
    Model.compute_fx Model.module_constants 1 = Ok fx1 /\
    fx1 == inject_Z 300 /\
    Model.compute_fx Model.module_constants 7 = Ok fx /\
    Model.compute_fx Model.module_constants (7 + 1) = Ok fx' /\
    fx' == fx * (1 + 0.03) /\ fx1 <= fx /\ fx < fx'.
Proof.
  apply (X2_fx_compounds Model.module_constants 7); first [lia|reflexivity].
Defined.

Lemma X3_revenue_declines_witness :
  exists g fx r r',
    Model.compute_generation Model.module_constants 1 = Ok g /\
    Model.compute_fx Model.module_constants 1 = Ok fx /\
    Model.compute_revenue Model.module_constants 1 = Ok r /\
    Model.compute_revenue Model.module_constants (1 + 1) = Ok r' /\
    r * fx == g * 20.36 / 1000 /\
    r' == r * ((1 - 0.006) / (1 + 0.03)) /\ 0 < r' /\ r' < r.
Proof.
  apply (X3_revenue_declines Model.module_constants 1);
    first [lia|reflexivity|discriminate].
Defined.

Lemma X4_opex_closed_form_witness :
  exists g o g1 o1,
    Model.compute_generation Model.module_constants 3 = Ok g /\
    Model.compute_opex Model.module_constants 3 = Ok o /\
    o == g * 6.83
         * (0.3 * (1 + 0.02) ^ (3 - 1)
            + 0.7 * (1 + 0.05) ^ (3 - 1) / (1 + 0.03) ^ (3 - 1))
         / 1000000 /\
    Model.compute_generation Model.module_constants 1 = Ok g1 /\
    Model.compute_opex Model.module_constants 1 = Ok o1 /\
    o1 == g1 * 6.83 * (0.3 + 0.7) / 1000000.
Proof.
  apply (X4_opex_closed_form Model.module_constants 3).
  split; [lia|]. split; [discriminate|]. split; [discriminate|].
  intros _. discriminate.
Defined.

(* ====================================================================== *)
(** * The schedule as a whole: what is repaid and what is left *)
(* ====================================================================== *)

Section Repayment.
Import Model.
Variable c : Config.

Lemma np_sum_from (a : Q) (l : list Q) : foldl Qplus a l == a + np_sum l.
Proof.
  unfold np_sum. revert a. induction l as [|x l IH]; intros a.
  - cbn. ring.
  - cbn [foldl]. rewrite (IH (a + x)), (IH (0 + x)). ring.
Qed.

Lemma np_sum_cons (x : Q) (l : list Q) : np_sum (x :: l) == x + np_sum l.
Proof.
  unfold np_sum at 1. cbn [foldl]. rewrite np_sum_from. ring.
Qed.

Lemma closing_balances_cons (b : Balances) (p : YearPass)
    (ps : list YearPass) :
  closing_balances b (p :: ps) = closing_balances (yp_after p) ps.
Proof.
  unfold closing_balances. rewrite last_cons.
  by destruct (last ps).
Qed.

(** A pass takes from each balance exactly the principal it computed: the
    floor at zero of the balance update never bites. *)
Lemma year_pass_subtracts (year : Z) (b : Balances) (p : YearPass) :
  0 <= usd_bal b -> 0 <= lkr_bal b -> year_pass c year b = Ok p ->
  yp_usd_prin p <= usd_bal b /\
  usd_bal (yp_after p) == usd_bal b - yp_usd_prin p /\
  0 <= yp_lkr_prin p /\ yp_lkr_prin p <= lkr_bal b /\
  lkr_bal (yp_after p) == lkr_bal b - yp_lkr_prin p.
Proof.
  intros Hu Hl Hp. pose proof (year_pass_fields c _ _ _ Hp) as F.
  assert (Hcap : yp_usd_prin p <= usd_bal b).
  { rewrite (pc_usd_prin _ _ _ _ F). by apply usd_policy_capped. }
  destruct (lkr_policy_bounds c _ _ _ (pc_lkr_prin _ _ _ _ F) Hl) as [H0 H1].
  rewrite (pc_usd_after _ _ _ _ F), (pc_lkr_after _ _ _ _ F).
  split; [exact Hcap|]. split.
  { destruct (py_max_cases 0 (usd_bal b - yp_usd_prin p))
      as [[? ->]|[? ->]]; lra. }
  split; [exact H0|]. split; [exact H1|].
  destruct (py_max_cases 0 (lkr_bal b - yp_lkr_prin p))
    as [[? ->]|[? ->]]; lra.
Qed.

Lemma run_years_repaid (years : list Z) (b : Balances) (ps : list YearPass) :
  0 <= usd_bal b -> 0 <= lkr_bal b -> run_years c years b = Ok ps ->
  np_sum (yp_usd_prin <$> ps)
  == usd_bal b - usd_bal (closing_balances b ps) /\
  np_sum (yp_lkr_prin <$> ps)
  == lkr_bal b - lkr_bal (closing_balances b ps) /\
  0 <= usd_bal (closing_balances b ps) /\
  0 <= lkr_bal (closing_balances b ps).
Proof.
  revert b ps. induction years as [|year rest IH]; intros b ps Hu Hl Hr.
  - injection Hr as <-. cbn. repeat split; try assumption; ring.
  - apply run_years_cons_inv in Hr as (p & ps' & Hp & Hr & ->).
    destruct (year_pass_subtracts _ _ _ Hu Hl Hp)
      as (Hcap & Hua & Hl0 & Hl1 & Hla).
    destruct (year_pass_balances c _ _ _ Hp) as (Hu' & Hl' & Hrest).
    destruct (IH _ _ Hu' Hl' Hr) as (Su & Sl & Cu & Cl).
    rewrite closing_balances_cons. cbn [fmap list_fmap].
    rewrite !np_sum_cons, Su, Sl, Hua, Hla.
    repeat split; try assumption; ring.
Qed.

(** X5.  Nothing is repaid twice and nothing is lost: on every
    configuration with non-negative initial debt, the principals of each
    facility add up to the initial debt minus the balance the loop ends
    with, so the total repaid never exceeds the initial debt, and no single
    principal exceeds the balance it is taken from. *)
Theorem X5_repaid_plus_left_is_borrowed :
  schedule_defined c -> 0 <= USD_DEBT_INIT c -> 0 <= LKR_DEBT_INIT c ->
  exists s ps,
    compute_debt_schedule c = Ok s /\ debt_schedule_passes c = Ok ps /\
    let closing := closing_balances (initial_balances c) ps in
    np_sum (ds_usd_prin s) == USD_DEBT_INIT c - usd_bal closing /\
    np_sum (ds_lkr_prin s) == LKR_DEBT_INIT c - lkr_bal closing /\
    np_sum (ds_usd_prin s) <= USD_DEBT_INIT c /\
    np_sum (ds_lkr_prin s) <= LKR_DEBT_INIT c /\
    Forall (fun p => yp_usd_prin p <= usd_bal (yp_before p) /\
                     yp_lkr_prin p <= lkr_bal (yp_before p)) ps.
Proof.
  intros Hd Hu Hl.
  destruct (debt_schedule_passes_ok c Hd) as [ps Hps].
  eexists. exists ps. split; [by apply compute_debt_schedule_passes|].
  split; [exact Hps|]. cbn [ds_usd_prin ds_lkr_prin].
  destruct (run_years_repaid _ (initial_balances c) ps Hu Hl Hps)
    as (Su & Sl & Cu & Cl).
  cbn [initial_balances usd_bal lkr_bal] in Su, Sl.
  split; [exact Su|]. split; [exact Sl|].
  split; [rewrite Su; lra|]. split; [rewrite Sl; lra|].
  pose proof (run_years_balances c _ (initial_balances c) ps Hu Hl Hps) as Hk.
  apply Forall_forall. intros p Hin.
  rewrite Forall_forall in Hk. destruct (Hk p Hin) as (Hb0 & Hb1 & _).
  apply list_elem_of_lookup in Hin as [i Hi].
  destruct (run_years_lookup c _ _ _ _ _ Hps Hi) as (year & b & _ & Hpass).
  pose proof (pc_before _ _ _ _ (year_pass_fields c _ _ _ Hpass)) as Hb.
  rewrite Hb in Hb0, Hb1 |- *.
  destruct (year_pass_subtracts _ _ _ Hb0 Hb1 Hpass) as (Hcap & _ & _ & Hl1 & _).
  by split.
Qed.

(** ** The local-currency facility: equal principal *)

Lemma straight_line_last (year : Z) :
  (LKR_DEBT_TENOR c < year)%Z -> straight_line_balance c year == 0.
Proof.
  intros Hy. unfold straight_line_balance.
  rewrite Z.max_l by lia. unfold Qdiv. ring.
Qed.

(** The balance a pass leaves is the straight-line balance of the next
    year, and its principal is the equal share while the tenor runs. *)
Lemma year_pass_straight_line (year : Z) (b : Balances) (p : YearPass) :
  (1 <= year)%Z -> (1 <= LKR_DEBT_TENOR c)%Z -> 0 <= LKR_DEBT_INIT c ->
  lkr_bal b == straight_line_balance c year ->
  year_pass c year b = Ok p ->
  lkr_bal (yp_after p) == straight_line_balance c (year + 1) /\
  ((year <= LKR_DEBT_TENOR c)%Z ->
   yp_lkr_prin p == LKR_DEBT_INIT c / inject_Z (LKR_DEBT_TENOR c)) /\
  ((LKR_DEBT_TENOR c < year)%Z ->
   yp_lkr_prin p = 0 /\ yp_lkr_int p == 0).
Proof.
  intros Hy Ht Hl Hbal Hp. pose proof (year_pass_fields c _ _ _ Hp) as F.
  pose proof (pc_lkr_prin _ _ _ _ F) as Hprin.
  pose proof (pc_lkr_after _ _ _ _ F) as Hafter.
  assert (HT : 0 < inject_Z (LKR_DEBT_TENOR c)).
  { change 0 with (inject_Z 0). rewrite <- Zlt_Qlt. lia. }
  unfold lkr_policy in Hprin.
  destruct (year <=? LKR_DEBT_TENOR c)%Z eqn:E.
  - apply Z.leb_le in E. apply py_div_inv in Hprin as [Hnz Hprin].
    unfold straight_line_balance in Hbal |- *.
    rewrite Z.max_r in Hbal by lia.
    replace (Z.max 0 (LKR_DEBT_TENOR c - (year + 1) + 1))
      with (LKR_DEBT_TENOR c - year)%Z by lia.
    assert (Hk : inject_Z (LKR_DEBT_TENOR c - year + 1)
                 == inject_Z (LKR_DEBT_TENOR c - year) + 1).
    { rewrite inject_Z_plus. reflexivity. }
    assert (Hk0 : 0 <= inject_Z (LKR_DEBT_TENOR c - year)).
    { change 0 with (inject_Z 0). rewrite <- Zle_Qle. lia. }
    set (k := inject_Z (LKR_DEBT_TENOR c - year)) in *.
    set (T := inject_Z (LKR_DEBT_TENOR c)) in *.
    assert (Hshare : yp_lkr_prin p == LKR_DEBT_INIT c / T).
    { rewrite Hprin, Hbal, Hk. field. split; lra. }
    assert (Hleft : lkr_bal b - yp_lkr_prin p == LKR_DEBT_INIT c * k / T).
    { rewrite Hshare, Hbal, Hk. field. lra. }
    assert (Hnn : 0 <= LKR_DEBT_INIT c * k / T).
    { apply Qle_shift_div_l; [exact HT|]. nra. }
    split; [|split; [by intros _|lia]].
    rewrite Hafter.
    destruct (py_max_cases 0 (lkr_bal b - yp_lkr_prin p))
      as [[? ->]|[? ->]]; lra.
  - apply Z.leb_gt in E. injection Hprin as Hprin.
    rewrite straight_line_last in Hbal by exact E.
    split; [|split; [lia|]].
    + rewrite straight_line_last by lia. rewrite Hafter, <- Hprin.
      destruct (py_max_cases 0 (lkr_bal b - 0)) as [[? ->]|[? ->]]; lra.
    + intros _. split; [by symmetry|].
      rewrite (pc_lkr_int _ _ _ _ F), Hbal. ring.
Qed.

Lemma run_years_straight_line (n : nat) (year : Z) (b : Balances)
    (ps : list YearPass) :
  (1 <= year)%Z -> (1 <= LKR_DEBT_TENOR c)%Z -> 0 <= LKR_DEBT_INIT c ->
  lkr_bal b == straight_line_balance c year ->
  run_years c (seqZ year (Z.of_nat n)) b = Ok ps ->
  Forall (fun p =>
            lkr_bal (yp_before p) == straight_line_balance c (yp_year p) /\
            lkr_bal (yp_after p) == straight_line_balance c (yp_year p + 1) /\
            ((yp_year p <= LKR_DEBT_TENOR c)%Z ->
             yp_lkr_prin p
             == LKR_DEBT_INIT c / inject_Z (LKR_DEBT_TENOR c)) /\
            ((LKR_DEBT_TENOR c < yp_year p)%Z ->
             yp_lkr_prin p = 0 /\ yp_lkr_int p == 0)) ps /\
  lkr_bal (closing_balances b ps)
  == straight_line_balance c (year + Z.of_nat n).
Proof.
  intros Hy Ht Hl. revert year b ps Hy.
  induction n as [|n IH]; intros year b ps Hy Hbal Hr.
  - injection Hr as <-. split; [constructor|].
    cbn. by rewrite Z.add_0_r.
  - rewrite seqZ_cons in Hr by lia.
    apply run_years_cons_inv in Hr as (p & ps' & Hp & Hr & ->).
    destruct (year_pass_straight_line _ _ _ Hy Ht Hl Hbal Hp)
      as (Hnext & Hshare & Hlate).
    replace (Z.pred (Z.of_nat (S n))) with (Z.of_nat n) in Hr by lia.
    destruct (IH (Z.succ year) (yp_after p) ps' ltac:(lia) Hnext Hr)
      as [Hall Hclose].
    pose proof (year_pass_fields c _ _ _ Hp) as F.
    split.
    + constructor; [|exact Hall].
      cbn beta. rewrite (pc_year _ _ _ _ F), (pc_before _ _ _ _ F).
      split; [exact Hbal|]. split; [exact Hnext|].
      split; [exact Hshare|exact Hlate].
    + rewrite closing_balances_cons, Hclose.
      by replace (Z.succ year + Z.of_nat n)%Z
        with (year + Z.of_nat (S n))%Z by lia.
Qed.

(** X6.  The local-currency facility is repaid in equal instalments: with a
    tenor of at least one year and a non-negative initial debt, every year
    up to the tenor has principal [LKR_DEBT_INIT / LKR_DEBT_TENOR] and leaves
    the balance [LKR_DEBT_INIT * (tenor - year) / tenor]; every later year
    has principal 0 and interest 0. *)
Theorem X6_lkr_equal_instalments :
  schedule_defined c -> (1 <= LKR_DEBT_TENOR c)%Z -> 0 <= LKR_DEBT_INIT c ->
  exists ps,
    debt_schedule_passes c = Ok ps /\
    Forall (fun p =>
              lkr_bal (yp_after p)
              == LKR_DEBT_INIT c
                 * inject_Z (Z.max 0 (LKR_DEBT_TENOR c - yp_year p))
                 / inject_Z (LKR_DEBT_TENOR c) /\
              ((yp_year p <= LKR_DEBT_TENOR c)%Z ->
               yp_lkr_prin p
               == LKR_DEBT_INIT c / inject_Z (LKR_DEBT_TENOR c)) /\
              ((LKR_DEBT_TENOR c < yp_year p)%Z ->
               yp_lkr_prin p = 0 /\ yp_lkr_int p == 0)) ps.
Proof.
  intros Hd Ht Hl.
  destruct (debt_schedule_passes_ok c Hd) as [ps Hps].
  exists ps. split; [exact Hps|].
  pose proof Hps as Hr. unfold debt_schedule_passes, years_range in Hr.
  destruct (Z.le_gt_cases (PROJECT_YEARS c) 0) as [Hn|Hn].
  { unfold seqZ in Hr. rewrite Z2Nat.nonpos in Hr by exact Hn.
    injection Hr as <-. constructor. }
  rewrite <- (Z2Nat.id (PROJECT_YEARS c)) in Hr by lia.
  destruct (run_years_straight_line (Z.to_nat (PROJECT_YEARS c)) 1
              (initial_balances c) ps ltac:(lia) Ht Hl) as [Hall _];
    [|exact Hr|].
  { unfold straight_line_balance. cbn [initial_balances lkr_bal].
    replace (Z.max 0 (LKR_DEBT_TENOR c - 1 + 1)) with (LKR_DEBT_TENOR c)
      by lia.
    field. apply inject_Z_nonzero. lia. }
  eapply Forall_impl; [exact Hall|].
  intros p (_ & Hafter & Hshare & Hlate).
  split; [|by split].
  rewrite Hafter. unfold straight_line_balance.
  by replace (LKR_DEBT_TENOR c - (yp_year p + 1) + 1)%Z
    with (LKR_DEBT_TENOR c - yp_year p)%Z by lia.
Qed.

(** X7.  When the tenor fits in the project horizon, the local-currency
    debt is repaid in full: the balance the loop ends with is zero and the
    principals add up to the initial debt. *)
Theorem X7_lkr_repaid_by_tenor :
  schedule_defined c ->
  (1 <= LKR_DEBT_TENOR c)%Z -> (LKR_DEBT_TENOR c <= PROJECT_YEARS c)%Z ->
  0 <= USD_DEBT_INIT c -> 0 <= LKR_DEBT_INIT c ->
  exists s ps,
    compute_debt_schedule c = Ok s /\ debt_schedule_passes c = Ok ps /\
    lkr_bal (closing_balances (initial_balances c) ps) == 0 /\
    np_sum (ds_lkr_prin s) == LKR_DEBT_INIT c.
Proof.
  intros Hd Ht Hn Hu Hl.
  destruct (debt_schedule_passes_ok c Hd) as [ps Hps].
  eexists. exists ps. split; [by apply compute_debt_schedule_passes|].
  split; [exact Hps|]. cbn [ds_lkr_prin].
  pose proof Hps as Hr. unfold debt_schedule_passes, years_range in Hr.
  rewrite <- (Z2Nat.id (PROJECT_YEARS c)) in Hr by lia.
  destruct (run_years_straight_line (Z.to_nat (PROJECT_YEARS c)) 1
              (initial_balances c) ps ltac:(lia) Ht Hl) as [_ Hclose];
    [|exact Hr|].
  { unfold straight_line_balance. cbn [initial_balances lkr_bal].
    replace (Z.max 0 (LKR_DEBT_TENOR c - 1 + 1)) with (LKR_DEBT_TENOR c)
      by lia.
    field. apply inject_Z_nonzero. lia. }
  rewrite Z2Nat.id in Hclose by lia.
  rewrite straight_line_last in Hclose by lia.
  split; [exact Hclose|].
  destruct (run_years_repaid _ (initial_balances c) ps Hu Hl Hps)
    as (_ & Sl & _).
  rewrite Sl, Hclose. cbn [initial_balances lkr_bal]. ring.
Qed.

End Repayment.

Lemma X5_repaid_plus_left_is_borrowed_witness :
  exists s ps,
    Model.compute_debt_schedule Model.module_constants = Ok s /\
    Model.debt_schedule_passes Model.module_constants = Ok ps /\
    let closing :=
      Model.closing_balances
        (Model.initial_balances Model.module_constants) ps in
    np_sum (Model.ds_usd_prin s) == 56.36 - Model.usd_bal closing /\
    np_sum (Model.ds_lkr_prin s) == 13833.0 - Model.lkr_bal closing /\
    np_sum (Model.ds_usd_prin s) <= 56.36 /\
    np_sum (Model.ds_lkr_prin s) <= 13833.0 /\
    Forall (fun p =>
              Model.yp_usd_prin p <= Model.usd_bal (Model.yp_before p) /\
              Model.yp_lkr_prin p <= Model.lkr_bal (Model.yp_before p)) ps.
Proof.
  apply (X5_repaid_plus_left_is_borrowed Model.module_constants).
  - exact module_constants_defined.
  - vm_compute. discriminate.
  - vm_compute. discriminate.
Defined.

Lemma X6_lkr_equal_instalments_witness :
  exists ps,
    Model.debt_schedule_passes Model.module_constants = Ok ps /\
    Forall (fun p =>
              Model.lkr_bal (Model.yp_after p)
              == 13833.0 * inject_Z (Z.max 0 (15 - Model.yp_year p))
                 / inject_Z 15 /\
              ((Model.yp_year p <= 15)%Z ->
               Model.yp_lkr_prin p == 13833.0 / inject_Z 15) /\
              ((15 < Model.yp_year p)%Z ->
               Model.yp_lkr_prin p = 0 /\ Model.yp_lkr_int p == 0)) ps.
Proof.
  apply (X6_lkr_equal_instalments Model.module_constants).
  - exact module_constants_defined.
  - cbn. lia.
  - vm_compute. discriminate.
Defined.

Lemma X7_lkr_repaid_by_tenor_witness :
  exists s ps,
    Model.compute_debt_schedule Model.module_constants = Ok s /\
    Model.debt_schedule_passes Model.module_constants = Ok ps /\
    Model.lkr_bal
      (Model.closing_balances
         (Model.initial_balances Model.module_constants) ps) == 0 /\
    np_sum (Model.ds_lkr_prin s) == 13833.0.
Proof.
  apply (X7_lkr_repaid_by_tenor Model.module_constants).
  - exact module_constants_defined.
  - cbn. lia.
  - cbn. lia.
  - vm_compute. discriminate.
  - vm_compute. discriminate.
Defined.

(* ====================================================================== *)
(** * When the model returns, and what it raises otherwise *)
(* ====================================================================== *)

Section Raising.
Import Model.
Variable c : Config.

Lemma raises_only_ret {A} (P : exn -> Prop) (a : A) : raises_only P (mret a).
Proof. intros e He. discriminate He. Qed.

Lemma raises_only_bind {A B} (P : exn -> Prop) (m : res A)
    (f : A -> res B) :
  raises_only P m -> (forall a, raises_only P (f a)) ->
  raises_only P (m ≫= f).
Proof.
  intros Hm Hf e He. destruct m as [a|e0]; cbn in He.
  - by eapply Hf.
  - injection He as <-. by apply Hm.
Qed.

Lemma py_div_raises (a b : Q) : raises_only zero_division (py_div a b).
Proof.
  intros e. unfold py_div. destruct (Qeq_bool b 0); [|discriminate].
  by intros [= <-].
Qed.

Lemma py_pow_raises (b : Q) (z : Z) : raises_only zero_division (py_pow b z).
Proof.
  intros e. unfold py_pow.
  destruct ((z <? 0)%Z && Qeq_bool b 0); [|discriminate].
  by intros [= <-].
Qed.

End Raising.

Ltac raising :=
  repeat first
    [ apply raises_only_bind; [|intros ?]
    | apply raises_only_ret
    | apply py_div_raises
    | apply py_pow_raises
    | assumption ].

Section RaisingModel.
Import Model.
Variable c : Config.

Lemma compute_generation_raises (year : Z) :
  raises_only zero_division (compute_generation c year).
Proof. unfold compute_generation. raising. Qed.

Lemma compute_fx_raises (year : Z) :
  raises_only zero_division (compute_fx c year).
Proof. unfold compute_fx. raising. Qed.

Lemma compute_tariff_usd_raises (year : Z) :
  raises_only zero_division (compute_tariff_usd c year).
Proof.
  unfold compute_tariff_usd.
  apply raises_only_bind; [apply compute_fx_raises|intros ?]. raising.
Qed.

Lemma compute_revenue_raises (year : Z) :
  raises_only zero_division (compute_revenue c year).
Proof.
  unfold compute_revenue.
  apply raises_only_bind; [apply compute_generation_raises|intros ?].
  apply raises_only_bind; [apply compute_tariff_usd_raises|intros ?].
  raising.
Qed.

Lemma compute_sscl_raises (year : Z) :
  raises_only zero_division (compute_sscl c year).
Proof.
  unfold compute_sscl.
  apply raises_only_bind; [apply compute_revenue_raises|intros ?]. raising.
Qed.

Lemma compute_opex_raises (year : Z) :
  raises_only zero_division (compute_opex c year).
Proof.
  unfold compute_opex.
  apply raises_only_bind; [apply compute_generation_raises|intros ?].
  apply raises_only_bind; [apply compute_fx_raises|intros ?].
  raising.
Qed.

Lemma year_pass_raises (year : Z) (b : Balances) :
  raises_only zero_division (year_pass c year b).
Proof.
  unfold year_pass.
  apply raises_only_bind; [apply compute_fx_raises|intros ?].
  apply raises_only_bind; [apply py_div_raises|intros ?].
  apply raises_only_bind; [apply compute_revenue_raises|intros ?].
  apply raises_only_bind; [apply compute_sscl_raises|intros ?].
  apply raises_only_bind; [apply compute_opex_raises|intros ?].
  apply raises_only_bind; [apply py_div_raises|intros ?].
  apply raises_only_bind; [|intros ?; apply raises_only_ret].
  unfold lkr_policy. destruct (year <=? LKR_DEBT_TENOR c)%Z; raising.
Qed.

Lemma run_years_raises (years : list Z) (b : Balances) :
  raises_only zero_division (run_years c years b).
Proof.
  revert b. induction years as [|year rest IH]; intros b; cbn [run_years].
  - apply raises_only_ret.
  - apply raises_only_bind; [apply year_pass_raises|intros p].
    apply raises_only_bind; [apply IH|intros ?]. apply raises_only_ret.
Qed.

Lemma compute_debt_schedule_raises :
  raises_only zero_division (compute_debt_schedule c).
Proof.
  unfold compute_debt_schedule, debt_schedule_passes.
  apply raises_only_bind; [apply run_years_raises|intros ?].
  apply raises_only_ret.
Qed.

(** X8.  A zero divisor is not guarded against: with at least one project
    year and an economic life or an initial FX rate of zero, or with at
    least two project years and an FX depreciation rate of exactly [-1],
    [compute_debt_schedule] raises [ZeroDivisionError] and returns nothing.
    What it returns otherwise are five arrays of [PROJECT_YEARS] cells
    each (none for a horizon of zero or less), in which the local-currency
    debt service of a year is its interest plus its principal. *)
Theorem X8_schedule_zero_divisors_and_shape :
  ((1 <= PROJECT_YEARS c)%Z /\ (ECON_LIFE c = 0%Z \/ FX_INITIAL c = 0%Z) \/
   (2 <= PROJECT_YEARS c)%Z /\ 1 + FX_DEPR c == 0 ->
   compute_debt_schedule c = Raise ZeroDivisionError) /\
  (forall s, compute_debt_schedule c = Ok s ->
     let n := Z.to_nat (PROJECT_YEARS c) in
     length (ds_usd_prin s) = n /\ length (ds_usd_int s) = n /\
     length (ds_lkr_prin s) = n /\ length (ds_lkr_int s) = n /\
     length (ds_lkr_ds s) = n /\
     forall i ds, ds_lkr_ds s !! i = Some ds ->
       exists li lp, ds_lkr_int s !! i = Some li /\
                     ds_lkr_prin s !! i = Some lp /\ ds = li + lp).
Proof.
  split.
  - intros Hzero.
    destruct (compute_debt_schedule c) as [s|e] eqn:Hs.
    + exfalso.
      apply compute_debt_schedule_inv in Hs as (ps & Hps & _).
      assert (Hd : schedule_defined c)
        by (apply debt_schedule_passes_ok_iff; eauto).
      destruct Hzero as [[Hn [He|Hf]]|[Hn Hz]].
      * destruct (Hd Hn) as (He' & _). contradiction.
      * destruct (Hd Hn) as (_ & Hf' & _). contradiction.
      * destruct (Hd ltac:(lia)) as (_ & _ & Hz'). by apply Hz'.
    + f_equal. exact (compute_debt_schedule_raises e Hs).
  - intros s Hs n.
    apply compute_debt_schedule_inv in Hs
      as (ps & Hps & -> & -> & -> & -> & ->).
    pose proof (run_years_length _ _ _ _ Hps) as Hlen.
    rewrite years_range_length in Hlen. rewrite !length_fmap.
    repeat (split; [exact Hlen|]).
    intros i ds Hds. apply list_lookup_fmap_Some in Hds as (p & -> & Hp).
    exists (yp_lkr_int p), (yp_lkr_prin p).
    rewrite !list_lookup_fmap, Hp. split; [reflexivity|].
    split; [reflexivity|].
    destruct (run_years_lookup c _ _ _ _ _ Hps Hp) as (year & b & _ & Hpass).
    exact (pc_lkr_ds _ _ _ _ (year_pass_fields c _ _ _ Hpass)).
Qed.

(** X9.  The two entry points disagree on a negative horizon:
    [compute_debt_schedule] returns five empty arrays, while
    [build_full_model] raises, [ZeroDivisionError] when the economic life
    is zero (the depreciation is computed first) and otherwise the
    [ValueError] of [np.ones]. *)
Theorem X9_negative_horizon :
  (PROJECT_YEARS c < 0)%Z ->
  compute_debt_schedule c
  = Ok {| ds_usd_prin := []; ds_usd_int := []; ds_lkr_prin := [];
          ds_lkr_int := []; ds_lkr_ds := [] |} /\
  (ECON_LIFE c <> 0%Z ->
   build_full_model c
   = Raise (ValueError "negative dimensions are not allowed")) /\
  (ECON_LIFE c = 0%Z -> build_full_model c = Raise ZeroDivisionError).
Proof.
  intros Hn.
  assert (Hy : years_range c = []).
  { unfold years_range, seqZ. by rewrite Z2Nat.nonpos by lia. }
  split; [|split].
  - unfold compute_debt_schedule, debt_schedule_passes. by rewrite Hy.
  - intros He. unfold build_full_model. rewrite Hy.
    cbn [mapM mbind res_bind mret res_ret].
    rewrite (compute_depreciation_ok c He). cbn [mbind res_bind].
    unfold np_ones. replace (PROJECT_YEARS c <? 0)%Z with true; [reflexivity|].
    symmetry. by apply Z.ltb_lt.
  - intros He. unfold build_full_model. rewrite Hy.
    cbn [mapM mbind res_bind mret res_ret].
    unfold compute_depreciation, py_div. rewrite He. reflexivity.
Qed.

End RaisingModel.

Lemma X9_negative_horizon_witness :
  Model.compute_debt_schedule
    (Model.with_PROJECT_YEARS (-1) Model.module_constants)
  = Ok {| Model.ds_usd_prin := []; Model.ds_usd_int := [];
          Model.ds_lkr_prin := []; Model.ds_lkr_int := [];
          Model.ds_lkr_ds := [] |} /\
  Model.build_full_model
    (Model.with_PROJECT_YEARS (-1) Model.module_constants)
  = Raise (ValueError "negative dimensions are not allowed").
Proof.
  destruct (X9_negative_horizon
              (Model.with_PROJECT_YEARS (-1) Model.module_constants))
    as (Hs & Hv & _).
  - cbn. lia.
  - split; [exact Hs|]. apply Hv. discriminate.
Defined.

(* ====================================================================== *)
(** * Tax, coverage and debt service in the rows of the ledger *)
(* ====================================================================== *)

Section LedgerCoverage.
Import Model.

Lemma np_maximum_floor (x : Q) :
  0 <= np_maximum 0 x /\ x <= np_maximum 0 x /\
  (0 <= x -> np_maximum 0 x == x) /\ (x <= 0 -> np_maximum 0 x == 0).
Proof.
  unfold np_maximum. destruct (Qle_bool 0 x) eqn:E.
  - apply Qle_bool_iff in E. repeat split; intros; lra.
  - assert (x < 0).
    { apply Qnot_le_lt. intros H. apply Qle_bool_iff in H. congruence. }
    repeat split; intros; lra.
Qed.

(** X10.  In every row of the ledger the tax is never negative, it is
    [EBIT * TAX_RATE] when that product is not negative and zero when it is
    not positive (a loss year pays no tax and earns no credit); the levy is
    the revenue times [SSCL_RATE]; and operating cash flow is EBITDA less
    tax, so it never exceeds EBITDA. *)
Theorem X10_tax_floored_at_zero (c : Config) :
  ledger_defined c ->
  exists df,
    build_full_model c = Ok df /\
    forall i r, ledger_row df i = Some r ->
      0 <= r_Tax r /\
      (0 <= r_EBIT r * TAX_RATE c -> r_Tax r == r_EBIT r * TAX_RATE c) /\
      (r_EBIT r * TAX_RATE c <= 0 -> r_Tax r == 0) /\
      r_SSCL_USD_M r = r_Revenue_USD_M r * SSCL_RATE c /\
      r_Op_CF r == r_EBITDA r - r_Tax r /\
      r_Op_CF r <= r_EBITDA r.
Proof.
  intros Hl. destruct (build_full_model_ok c Hl) as [df Hb].
  exists df. split; [exact Hb|]. intros i r Hr.
  destruct (ledger_row_chain c df i r Hb Hr)
    as (d & Hd & Hebitda & Hda & Hebit & Htax & Hop).
  destruct (ledger_row_engine c df i r Hb Hr)
    as (Hy & Hyr & Hgen & Hfx & Htar & Hrev & Hsscl & Hopex).
  destruct (np_maximum_floor (r_EBIT r * TAX_RATE c)) as (F1 & F2 & F3 & F4).
  rewrite <- Htax in F1, F2, F3, F4.
  split; [exact F1|]. split; [exact F3|]. split; [exact F4|].
  split.
  { unfold compute_sscl in Hsscl. rewrite Hrev in Hsscl.
    cbn in Hsscl. by injection Hsscl as <-. }
  assert (E : r_Op_CF r == r_EBITDA r - r_Tax r).
  { rewrite Hop, Hebit. ring. }
  split; [exact E|]. rewrite E. lra.
Qed.

Lemma X10_tax_floored_at_zero_witness :
  exists df,
    build_full_model module_constants = Ok df /\
    forall i r, ledger_row df i = Some r ->
      0 <= r_Tax r /\
      (0 <= r_EBIT r * TAX_RATE module_constants ->
       r_Tax r == r_EBIT r * TAX_RATE module_constants) /\
      (r_EBIT r * TAX_RATE module_constants <= 0 -> r_Tax r == 0) /\
      r_SSCL_USD_M r = r_Revenue_USD_M r * SSCL_RATE module_constants /\
      r_Op_CF r == r_EBITDA r - r_Tax r /\
      r_Op_CF r <= r_EBITDA r.
Proof.
  apply (X10_tax_floored_at_zero module_constants).
  exact module_constants_ledger_defined.
Defined.

(** X11.  In a row whose total debt service exceeds [1e-6] the coverage
    ratio is a finite number [q] with [q * Total_DS = Op_CF]; it is at least
    one exactly when the equity cash flow of the row is not negative, and
    positive exactly when the operating cash flow is. *)
Theorem X11_coverage_and_equity (c : Config) :
  ledger_defined c ->
  exists df,
    build_full_model c = Ok df /\
    forall i r, ledger_row df i = Some r -> 1e-6 < r_Total_DS r ->
      exists q,
        r_DSCR r = Fin q /\
        q * r_Total_DS r == r_Op_CF r /\
        (1 <= q <-> 0 <= r_Eq_CF r) /\
        (0 < q <-> 0 < r_Op_CF r).
Proof.
  intros Hl. destruct (build_full_model_ok c Hl) as [df Hb].
  exists df. split; [exact Hb|]. intros i r Hr Ht.
  destruct (ledger_row_totals c df i r Hb Hr) as (_ & Hd & He).
  destruct (dscr_cell_spec (r_Op_CF r) (r_Total_DS r)) as (Hq & _).
  exists (r_Op_CF r / r_Total_DS r).
  split; [rewrite Hd; by apply Hq|].
  assert (Hpos : 0 < r_Total_DS r).
  { apply Qlt_trans with (2 := Ht). reflexivity. }
  assert (Hnz : ~ r_Total_DS r == 0) by lra.
  assert (Hm : r_Op_CF r / r_Total_DS r * r_Total_DS r == r_Op_CF r).
  { field. exact Hnz. }
  split; [exact Hm|].
  rewrite He. revert Hm.
  generalize (r_Op_CF r / r_Total_DS r) as q. intros q Hm.
  split; split; intros H.
  - assert (0 <= (q - 1) * r_Total_DS r) by (apply Qmult_le_0_compat; lra).
    lra.
  - destruct (Qlt_le_dec q 1) as [Hq1|Hq1]; [|exact Hq1].
    assert (0 < (1 - q) * r_Total_DS r) by (apply Qmult_lt_0_compat; lra).
    lra.
  - assert (0 < q * r_Total_DS r) by (apply Qmult_lt_0_compat; lra).
    lra.
  - destruct (Qlt_le_dec 0 q) as [Hq0|Hq0]; [exact Hq0|].
    assert (0 <= (0 - q) * r_Total_DS r) by (apply Qmult_le_0_compat; lra).
    lra.
Qed.

Lemma X11_coverage_and_equity_witness :
  exists df,
    build_full_model module_constants = Ok df /\
    forall i r, ledger_row df i = Some r -> 1e-6 < r_Total_DS r ->
      exists q,
        r_DSCR r = Fin q /\
        q * r_Total_DS r == r_Op_CF r /\
        (1 <= q <-> 0 <= r_Eq_CF r) /\
        (0 < q <-> 0 < r_Op_CF r).
Proof.
  apply (X11_coverage_and_equity module_constants).
  exact module_constants_ledger_defined.
Defined.

(** X12.  [build_full_model] unpacks the fifth array of the schedule
    ([lkr_ds], local-currency debt service) and never uses it; its
    [Total_DS] column nevertheless agrees with it: the total debt service of
    a row is the dollar interest and principal plus that year's [lkr_ds]
    converted at that year's FX rate. *)
Theorem X12_total_debt_service_uses_lkr_ds (c : Config) :
  ledger_defined c ->
  exists df s,
    build_full_model c = Ok df /\ compute_debt_schedule c = Ok s /\
    forall i r, ledger_row df i = Some r ->
      exists ds,
        ds_lkr_ds s !! i = Some ds /\
        r_Total_DS r == r_USD_Int r + r_USD_Prin r + ds / r_FX r.
Proof.
  intros Hl. destruct (build_full_model_ok c Hl) as [df Hb].
  destruct (build_full_model_inv c df Hb) as (d & s & B).
  exists df, s. split; [exact Hb|]. split; [exact (lb_schedule _ _ _ _ B)|].
  intros i r Hr.
  destruct (ledger_row_totals c df i r Hb Hr) as (Ht & _ & _).
  destruct (ledger_row_debt c df i r Hb Hr)
    as (ps & p & Hps & Hp & Hyear & Hfx & Hnz & Hui & Hup & Hli & Hlp).
  destruct (compute_debt_schedule_inv c s (lb_schedule _ _ _ _ B))
    as (ps' & Hps' & _ & _ & _ & _ & Hds).
  rewrite Hps in Hps'. injection Hps' as <-.
  exists (yp_lkr_ds p). split.
  { rewrite Hds, list_lookup_fmap, Hp. reflexivity. }
  destruct (run_years_lookup c _ _ _ _ _ Hps Hp) as (year & b & _ & Hpass).
  rewrite (pc_lkr_ds _ _ _ _ (year_pass_fields c _ _ _ Hpass)).
  rewrite Ht, Hli, Hlp. field. exact Hnz.
Qed.

Lemma X12_total_debt_service_uses_lkr_ds_witness :
  exists df s,
    build_full_model module_constants = Ok df /\
    compute_debt_schedule module_constants = Ok s /\
    forall i r, ledger_row df i = Some r ->
      exists ds,
        ds_lkr_ds s !! i = Some ds /\
        r_Total_DS r == r_USD_Int r + r_USD_Prin r + ds / r_FX r.
Proof.
  apply (X12_total_debt_service_uses_lkr_ds module_constants).
  exact module_constants_ledger_defined.
Defined.

End LedgerCoverage.

(* ====================================================================== *)
(** * Net present value *)
(* ====================================================================== *)

Section Npv.
Import Irr.

Lemma npv_terms_raises (rate : Q) (cash_flows : list Q) (i : Z) :
  raises_only zero_division (npv_terms rate i cash_flows).
Proof.
  revert i. induction cash_flows as [|cf rest IH]; intros i; cbn [npv_terms].
  - apply raises_only_ret.
  - apply raises_only_bind; [apply py_pow_raises|intros ?].
    apply raises_only_bind; [apply py_div_raises|intros ?].
    apply raises_only_bind; [apply IH|intros ?]. apply raises_only_ret.
Qed.

Lemma calculate_npv_raises (rate : Q) (cash_flows : list Q) :
  raises_only zero_division (calculate_npv rate cash_flows).
Proof.
  unfold calculate_npv.
  apply raises_only_bind; [apply npv_terms_raises|intros ?].
  apply raises_only_ret.
Qed.

(** Discounting every term by one more period divides the sum by
    [1 + rate]. *)
Lemma npv_terms_shift (rate : Q) (cash_flows : list Q) (i : Z) :
  (0 <= i)%Z -> ~ 1 + rate == 0 ->
  exists ts ts',
    npv_terms rate i cash_flows = Ok ts /\
    npv_terms rate (i + 1) cash_flows = Ok ts' /\
    np_sum ts' == np_sum ts / (1 + rate).
Proof.
  intros Hi Hb. revert i Hi.
  induction cash_flows as [|cf rest IH]; intros i Hi.
  - exists [], []. split; [reflexivity|]. split; [reflexivity|].
    unfold np_sum. cbn [foldl]. field. exact Hb.
  - destruct (IH (i + 1)%Z ltac:(lia)) as (A & B & HA & HB & Hsum).
    assert (Hpi : ~ (1 + rate) ^ i == 0) by (by apply Qpower_not_0).
    assert (Hpi1 : ~ (1 + rate) ^ (i + 1) == 0) by (by apply Qpower_not_0).
    exists (cf / (1 + rate) ^ i :: A), (cf / (1 + rate) ^ (i + 1) :: B).
    split; [|split].
    + cbn [npv_terms]. rewrite (py_pow_ok _ _ Hi). cbn [mbind res_bind].
      rewrite (py_div_ok _ _ Hpi). cbn [mbind res_bind]. rewrite HA.
      reflexivity.
    + cbn [npv_terms]. rewrite (py_pow_ok (1 + rate) (i + 1)) by lia.
      cbn [mbind res_bind].
      rewrite (py_div_ok _ _ Hpi1). cbn [mbind res_bind]. rewrite HB.
      reflexivity.
    + rewrite !np_sum_cons, Hsum.
      assert (Hp : (1 + rate) ^ (i + 1) == (1 + rate) ^ i * (1 + rate)).
      { rewrite Qpower_plus by exact Hb. by rewrite Qpower_1_r. }
      rewrite Hp. revert Hpi. generalize ((1 + rate) ^ i). intros q Hq.
      field. split; [exact Hq|exact Hb].
Qed.

Lemma calculate_npv_step (rate cf : Q) (rest : list Q) :
  ~ 1 + rate == 0 ->
  exists v w,
    calculate_npv rate (cf :: rest) = Ok v /\
    calculate_npv rate rest = Ok w /\
    v == cf + w / (1 + rate).
Proof.
  intros Hb.
  destruct (npv_terms_shift rate rest 0 ltac:(lia) Hb)
    as (A & B & HA & HB & Hsum).
  exists (np_sum (cf / (1 + rate) ^ 0 :: B)), (np_sum A).
  split; [|split].
  - unfold calculate_npv. cbn [npv_terms].
    rewrite (py_pow_ok (1 + rate) 0) by lia. cbn [mbind res_bind].
    rewrite py_div_ok by (cbn; discriminate). cbn [mbind res_bind].
    change (0 + 1)%Z with 1%Z in HB |- *. rewrite HB. reflexivity.
  - unfold calculate_npv. rewrite HA. reflexivity.
  - rewrite np_sum_cons, Hsum. change ((1 + rate) ^ 0) with 1. field.
    exact Hb.
Qed.

Lemma calculate_npv_ok (rate : Q) (cash_flows : list Q) :
  ~ 1 + rate == 0 -> exists v, calculate_npv rate cash_flows = Ok v.
Proof.
  intros Hb.
  destruct (npv_terms_shift rate cash_flows 0 ltac:(lia) Hb)
    as (A & B & HA & _).
  exists (np_sum A). unfold calculate_npv. by rewrite HA.
Qed.

Lemma calculate_npv_raise_inv (rate : Q) (cash_flows : list Q) (e : exn) :
  calculate_npv rate cash_flows = Raise e ->
  e = ZeroDivisionError /\ 1 + rate == 0.
Proof.
  intros He. split; [exact (calculate_npv_raises _ _ _ He)|].
  destruct (Qeq_dec (1 + rate) 0) as [Hz|Hnz]; [exact Hz|].
  destruct (calculate_npv_ok rate cash_flows Hnz) as [v Hv]. congruence.
Qed.

(** At a rate of exactly [-1] the second discount factor is zero. *)
Lemma calculate_npv_minus_one (rate : Q) (cash_flows : list Q) :
  1 + rate == 0 -> (2 <= length cash_flows)%nat ->
  calculate_npv rate cash_flows = Raise ZeroDivisionError.
Proof.
  intros Hz Hlen.
  destruct cash_flows as [|c0 [|c1 rest]]; [cbn in Hlen; lia..|].
  unfold calculate_npv. cbn [npv_terms].
  rewrite (py_pow_ok (1 + rate) 0) by lia. cbn [mbind res_bind].
  rewrite py_div_ok by (cbn; discriminate). cbn [mbind res_bind].
  rewrite (py_pow_ok (1 + rate) (0 + 1)) by lia. cbn [mbind res_bind].
  unfold py_div at 1.
  replace (Qeq_bool ((1 + rate) ^ (0 + 1)) 0) with true; [reflexivity|].
  symmetry. apply Qeq_bool_iff. change (0 + 1)%Z with 1%Z.
  by rewrite Qpower_1_r.
Qed.

Lemma calculate_npv_single (rate cf : Q) :
  exists v, calculate_npv rate [cf] = Ok v /\ v == cf.
Proof.
  exists (np_sum [cf / (1 + rate) ^ 0]). split.
  - unfold calculate_npv. cbn [npv_terms].
    rewrite (py_pow_ok (1 + rate) 0) by lia. cbn [mbind res_bind].
    rewrite py_div_ok by (cbn; discriminate). reflexivity.
  - unfold np_sum. cbn [foldl]. change ((1 + rate) ^ 0) with 1. field.
Qed.

(** X13.  Whenever [calculate_npv] values a stream, it also values the
    stream without its first cash flow, and the value of the whole is the
    first cash flow plus the value of the rest discounted by one period. *)
Theorem X13_npv_discounts_one_period (rate cf : Q) (rest : list Q) (v : Q) :
  calculate_npv rate (cf :: rest) = Ok v ->
  exists w, calculate_npv rate rest = Ok w /\ v == cf + w / (1 + rate).
Proof.
  intros Hv.
  destruct (Qeq_dec (1 + rate) 0) as [Hz|Hnz].
  - destruct rest as [|c1 rest].
    + exists 0. split; [reflexivity|].
      destruct (calculate_npv_single rate cf) as (v' & Hv' & Heq).
      rewrite Hv in Hv'. injection Hv' as <-. rewrite Heq, Hz.
      unfold Qdiv. ring.
    + rewrite (calculate_npv_minus_one rate (cf :: c1 :: rest) Hz) in Hv
        by (cbn; lia).
      discriminate Hv.
  - destruct (calculate_npv_step rate cf rest Hnz)
      as (v' & w & Hv' & Hw & Heq).
    rewrite Hv in Hv'. injection Hv' as <-. by exists w.
Qed.

Lemma X13_npv_discounts_one_period_witness :
  exists w,
    calculate_npv 0.10 [60; 60] = Ok w /\
    np_sum [-100 / (1 + 0.10) ^ 0; 60 / (1 + 0.10) ^ (0 + 1);
            60 / (1 + 0.10) ^ (0 + 1 + 1)]
    == -100 + w / (1 + 0.10).
Proof.
  apply (X13_npv_discounts_one_period 0.10 (-100) [60; 60]). reflexivity.
Defined.

(** X14.  The edges of [calculate_npv]: at a rate of exactly [-1] it raises
    [ZeroDivisionError] as soon as there are two cash flows; a single cash
    flow is valued at itself for every rate, [-1] included ([0.0 ** 0] is
    [1.0]), and the empty stream at zero; at a rate of zero every stream is
    valued, at the plain sum of its cash flows. *)
Theorem X14_npv_edge_cases (rate : Q) (cash_flows : list Q) :
  (1 + rate == 0 -> (2 <= length cash_flows)%nat ->
   calculate_npv rate cash_flows = Raise ZeroDivisionError) /\
  calculate_npv rate [] = Ok 0 /\
  (forall cf, exists v, calculate_npv rate [cf] = Ok v /\ v == cf) /\
  (exists v, calculate_npv 0 cash_flows = Ok v /\ v == np_sum cash_flows).
Proof.
  split; [apply calculate_npv_minus_one|]. split; [reflexivity|].
  split; [apply calculate_npv_single|].
  induction cash_flows as [|cf rest IH].
  - exists 0. split; reflexivity.
  - assert (Hone : ~ 1 + 0 == 0) by discriminate.
    destruct (calculate_npv_step 0 cf rest Hone) as (v & w & Hv & Hw & Hvw).
    exists v. split; [exact Hv|].
    destruct IH as (v0 & Hv0 & Hs). rewrite Hw in Hv0. injection Hv0 as <-.
    rewrite Hvw, np_sum_cons, Hs. field.
Qed.

End Npv.

(* ====================================================================== *)
(** * calculate_irr_robust: what a returned dictionary means *)
(* ====================================================================== *)

Section IrrOutcomes.
Import Irr.
Context {solvers : Solvers}.

Variable cash_flows : list Q.
Variable method : string.
Variable initial_guess tolerance : Q.
Variable max_iterations : Z.

Lemma converged_entries (irr npv_check : Q) (m : string) (w : pyval) :
  converged irr npv_check m w !! "status" = Some (VStr "CONVERGED") /\
  converged irr npv_check m w !! "irr" = Some (VNum irr) /\
  converged irr npv_check m w !! "npv_check" = Some (VNum npv_check) /\
  converged irr npv_check m w !! "method" = Some (VStr m) /\
  converged irr npv_check m w !! "warning" = Some w.
Proof. repeat split. Qed.

(** The [brentq] block hands back a dictionary in two cases only. *)
Lemma brentq_block_inv (w : pyval) (d : pydict) :
  brentq_block cash_flows method tolerance max_iterations w = Ok (Some d) ->
  (exists irr chk,
     d = converged irr chk "Brentq (Bracketing)" w /\
     brentq (fun r => calculate_npv r cash_flows) (-0.99) 5.00 tolerance
            max_iterations = Ok irr /\
     calculate_npv irr cash_flows = Ok chk /\
     Qabs chk < tolerance * 10) \/
  (exists m,
     method = "brentq" /\
     brentq (fun r => calculate_npv r cash_flows) (-0.99) 5.00 tolerance
            max_iterations = Raise (ValueError m) /\
     d = {[ "irr" := VNone; "status" := VStr "ERROR";
            "message" := VStr ("Brentq failed: " +:+ m);
            "method" := VStr "Brentq (Bracketing)";
            "warning" := w ]}).
Proof.
  unfold brentq_block.
  destruct (brentq _ _ _ _ _) as [x|e] eqn:Hx; cbn [mbind res_bind].
  - destruct (calculate_npv x cash_flows) as [chk|e] eqn:Hc;
      cbn [mbind res_bind mret res_ret].
    + destruct (Qlt_bool (Qabs chk) (tolerance * 10)) eqn:Et;
        [|discriminate].
      intros [= <-]. left. exists x, chk.
      split; [reflexivity|]. split; [reflexivity|]. split; [exact Hc|].
      by apply Qlt_bool_true.
    + rewrite (calculate_npv_raises _ _ _ Hc). discriminate.
  - destruct e; try discriminate.
    destruct (String.eqb method "brentq") eqn:Em; [|discriminate].
    intros [= <-]. right. eexists. split; [by apply String.eqb_eq|].
    split; reflexivity.
Qed.

(** An exception leaves the [brentq] block only if it is not a
    [ValueError]: either the root finder raised it, or the rate it returned
    is [-1] and the residual cannot be computed. *)
Lemma brentq_block_raise (w : pyval) (e : exn) :
  brentq_block cash_flows method tolerance max_iterations w = Raise e ->
  (forall m, e <> ValueError m) /\
  (brentq (fun r => calculate_npv r cash_flows) (-0.99) 5.00 tolerance
          max_iterations = Raise e \/
   exists x,
     brentq (fun r => calculate_npv r cash_flows) (-0.99) 5.00 tolerance
            max_iterations = Ok x /\
     calculate_npv x cash_flows = Raise e /\
     e = ZeroDivisionError /\ 1 + x == 0).
Proof.
  unfold brentq_block.
  destruct (brentq _ _ _ _ _) as [x|e0] eqn:Hx; cbn [mbind res_bind].
  - destruct (calculate_npv x cash_flows) as [chk|e0] eqn:Hc;
      cbn [mbind res_bind mret res_ret].
    + destruct (Qlt_bool (Qabs chk) (tolerance * 10)); discriminate.
    + destruct (calculate_npv_raise_inv _ _ _ Hc) as [-> Hz].
      intros [= <-]. split; [discriminate|]. right. exists x.
      split; [reflexivity|]. split; [exact Hc|]. by split.
  - destruct e0; try (intros [= <-]; split; [discriminate|by left]).
    destruct (String.eqb method "brentq"); discriminate.
Qed.

(** The [newton] block never raises; what it hands back is a converged
    dictionary for a rate inside the bracket. *)
Lemma newton_block_total (w : pyval) :
  exists o,
    newton_block cash_flows initial_guess tolerance max_iterations w = Ok o /\
    forall d, o = Some d ->
      exists irr chk,
        d = converged irr chk "Newton-Raphson (with derivative)" w /\
        calculate_npv irr cash_flows = Ok chk /\
        Qabs chk < tolerance * 10 /\ -0.99 < irr /\ irr < 5.0.
Proof.
  unfold newton_block.
  destruct (newton _ _ _ _ _) as [x|e] eqn:Hx;
    cbn [mbind res_bind try_except];
    [|exists None; split; [reflexivity|discriminate]].
  destruct (calculate_npv x cash_flows) as [chk|e] eqn:Hc;
    cbn [mbind res_bind try_except];
    [|exists None; split; [reflexivity|discriminate]].
  destruct (Qlt_bool (Qabs chk) (tolerance * 10)) eqn:E1; cbn [andb];
    [|exists None; split; [reflexivity|discriminate]].
  destruct (Qlt_bool (-0.99) x) eqn:E2; cbn [andb];
    [|exists None; split; [reflexivity|discriminate]].
  destruct (Qlt_bool x 5.0) eqn:E3;
    [|exists None; split; [reflexivity|discriminate]].
  eexists. split; [reflexivity|]. intros d [= <-]. exists x, chk.
  split; [reflexivity|]. split; [exact Hc|].
  split; [by apply Qlt_bool_true|]. split; by apply Qlt_bool_true.
Qed.

(** The four kinds of dictionary that [calculate_irr_robust] returns. *)
Lemma calculate_irr_robust_inv (d : pydict) :
  calculate_irr_robust cash_flows method initial_guess tolerance
                       max_iterations = Ok d ->
  (exists message, d = guard_error message) \/
  (exists irr chk m w,
     d = converged irr chk m w /\
     calculate_npv irr cash_flows = Ok chk /\ Qabs chk < tolerance * 10) \/
  (exists m w,
     method = "brentq" /\
     d = {[ "irr" := VNone; "status" := VStr "ERROR";
            "message" := VStr ("Brentq failed: " +:+ m);
            "method" := VStr "Brentq (Bracketing)";
            "warning" := w ]}) \/
  (exists w,
     d = {[ "irr" := VNone; "status" := VStr "FAILED";
            "message" := VStr "All solver methods failed to converge";
            "method" := VNone; "warning" := w ]}).
Proof.
  unfold calculate_irr_robust.
  destruct (length cash_flows <? 2)%nat; [intros [= <-]; left; eauto|].
  destruct (all_nonnegative cash_flows); [intros [= <-]; left; eauto|].
  destruct (all_nonpositive cash_flows); [intros [= <-]; left; eauto|].
  cbv zeta.
  match goal with
  | |- context [brentq_block _ _ _ _ ?w0] => generalize w0
  end.
  intros w Hd. right.
  assert (Hnewton : forall d',
    (n ← (if String.eqb method "newton" || String.eqb method "both"
          then newton_block cash_flows initial_guess tolerance
                            max_iterations w
          else mret None);
     match n with
     | Some d0 => mret d0
     | None =>
         mret {[ "irr" := VNone; "status" := VStr "FAILED";
                 "message" := VStr "All solver methods failed to converge";
                 "method" := VNone; "warning" := w ]}
     end) = Ok d' ->
    (exists irr chk m w',
       d' = converged irr chk m w' /\
       calculate_npv irr cash_flows = Ok chk /\ Qabs chk < tolerance * 10) \/
    (exists w',
       d' = {[ "irr" := VNone; "status" := VStr "FAILED";
               "message" := VStr "All solver methods failed to converge";
               "method" := VNone; "warning" := w' ]})).
  { intros d'.
    destruct (String.eqb method "newton" || String.eqb method "both").
    - destruct (newton_block_total w) as (o & -> & Ho).
      cbn [mbind res_bind]. destruct o as [d0|].
      + intros [= <-].
        destruct (Ho d0 eq_refl) as (irr & chk & -> & Hc & Ht & _).
        left. by exists irr, chk, "Newton-Raphson (with derivative)", w.
      + intros [= <-]. right. by exists w.
    - cbn [mbind res_bind mret res_ret]. intros [= <-]. right. by exists w. }
  destruct (String.eqb method "brentq" || String.eqb method "both").
  - destruct (brentq_block cash_flows method tolerance max_iterations w)
      as [[d0|]|e] eqn:Hb; cbn [mbind res_bind] in Hd.
    + injection Hd as <-.
      destruct (brentq_block_inv w d0 Hb)
        as [(irr & chk & -> & _ & Hc & Ht)|(m & Hm & _ & ->)].
      * left. by exists irr, chk, "Brentq (Bracketing)", w.
      * right. left. by exists m, w.
    + destruct (Hnewton d Hd) as [H|H]; [by left|by right; right].
    + discriminate Hd.
  - cbn [mbind res_bind mret res_ret] in Hd.
    destruct (Hnewton d Hd) as [H|H]; [by left|by right; right].
Qed.

(** X15.  Whatever the solvers do, a dictionary returned by
    [calculate_irr_robust] has status ERROR, CONVERGED or FAILED; status
    CONVERGED comes with a numeric rate whose recomputed net present value
    is stored under [npv_check] and is below ten times the tolerance in
    absolute value; with any other status the rate is [None]. *)
Theorem X15_converged_means_small_residual (d : pydict) :
  calculate_irr_robust cash_flows method initial_guess tolerance
                       max_iterations = Ok d ->
  (d !! "status" = Some (VStr "ERROR") \/
   d !! "status" = Some (VStr "CONVERGED") \/
   d !! "status" = Some (VStr "FAILED")) /\
  (d !! "status" = Some (VStr "CONVERGED") ->
   exists irr chk,
     d !! "irr" = Some (VNum irr) /\ d !! "npv_check" = Some (VNum chk) /\
     calculate_npv irr cash_flows = Ok chk /\ Qabs chk < tolerance * 10) /\
  (d !! "status" <> Some (VStr "CONVERGED") -> d !! "irr" = Some VNone).
Proof.
  intros Hd.
  destruct (calculate_irr_robust_inv d Hd)
    as [(msg & ->)|[(irr & chk & m & w & -> & Hc & Ht)
        |[(m & w & _ & ->)|(w & ->)]]].
  - destruct (guard_error_entries msg) as (Hs & _ & Hi & _).
    rewrite Hs, Hi. split; [by left|]. split; [discriminate|reflexivity].
  - destruct (converged_entries irr chk m w) as (Hs & Hi & Hn & _).
    rewrite Hs, Hi, Hn. split; [by right; left|]. split.
    + intros _. by exists irr, chk.
    + intros Hne. by contradiction Hne.
  - change (({[ "irr" := VNone; "status" := VStr "ERROR";
                "message" := VStr ("Brentq failed: " +:+ m);
                "method" := VStr "Brentq (Bracketing)";
                "warning" := w ]} : pydict) !! "status")
      with (Some (VStr "ERROR")).
    split; [by left|]. split; [discriminate|reflexivity].
  - change (({[ "irr" := VNone; "status" := VStr "FAILED";
                "message" := VStr "All solver methods failed to converge";
                "method" := VNone; "warning" := w ]} : pydict) !! "status")
      with (Some (VStr "FAILED")).
    split; [by right; right|]. split; [discriminate|reflexivity].
Qed.

(** X16.  The only exceptions that leave [calculate_irr_robust] come out of
    the [brentq] block, and they are never a [ValueError]: either the
    bracketing solver raised something else, or it returned the rate [-1],
    at which the residual check divides by zero.  With any method other than
    'brentq' and 'both' the function always returns; a method name that is
    none of the three is not refused but answered without a rate. *)
Theorem X16_only_the_bracketing_solver_raises :
  (forall e,
     calculate_irr_robust cash_flows method initial_guess tolerance
                          max_iterations = Raise e ->
     (method = "brentq" \/ method = "both") /\
     (forall m, e <> ValueError m) /\
     (brentq (fun r => calculate_npv r cash_flows) (-0.99) 5.00 tolerance
             max_iterations = Raise e \/
      exists x,
        brentq (fun r => calculate_npv r cash_flows) (-0.99) 5.00 tolerance
               max_iterations = Ok x /\
        calculate_npv x cash_flows = Raise e /\
        e = ZeroDivisionError /\ 1 + x == 0)) /\
  (method <> "brentq" -> method <> "both" ->
   exists d,
     calculate_irr_robust cash_flows method initial_guess tolerance
                          max_iterations = Ok d) /\
  (method <> "brentq" -> method <> "both" -> method <> "newton" ->
   exists d,
     calculate_irr_robust cash_flows method initial_guess tolerance
                          max_iterations = Ok d /\
     d !! "irr" = Some VNone /\
     (d !! "status" = Some (VStr "ERROR") \/
      d !! "status" = Some (VStr "FAILED"))).
Proof.
  assert (Hneq : forall s, method <> s -> String.eqb method s = false).
  { intros s Hs. by apply String.eqb_neq. }
  split; [|split].
  - intros e. unfold calculate_irr_robust.
    destruct (length cash_flows <? 2)%nat; [discriminate|].
    destruct (all_nonnegative cash_flows); [discriminate|].
    destruct (all_nonpositive cash_flows); [discriminate|].
    cbv zeta.
    match goal with
    | |- context [brentq_block _ _ _ _ ?w0] => generalize w0
    end.
    intros w.
    assert (Hnewton : forall e',
      (n ← (if String.eqb method "newton" || String.eqb method "both"
            then newton_block cash_flows initial_guess tolerance
                              max_iterations w
            else mret None);
       match n with
       | Some d0 => mret d0
       | None =>
           mret {[ "irr" := VNone; "status" := VStr "FAILED";
                   "message" := VStr "All solver methods failed to converge";
                   "method" := VNone; "warning" := w ]}
       end) <> Raise e').
    { intros e'.
      destruct (String.eqb method "newton" || String.eqb method "both").
      - destruct (newton_block_total w) as (o & -> & _).
        cbn [mbind res_bind]. destruct o; discriminate.
      - discriminate. }
    destruct (String.eqb method "brentq" || String.eqb method "both") eqn:Em.
    + destruct (brentq_block cash_flows method tolerance max_iterations w)
        as [[d0|]|e0] eqn:Hb; cbn [mbind res_bind].
      * discriminate.
      * intros He. by apply Hnewton in He.
      * intros [= <-]. split; [|by apply (brentq_block_raise w)].
        apply orb_true_iff in Em as [Em|Em]; apply String.eqb_eq in Em;
          [by left|by right].
    + cbn [mbind res_bind mret res_ret]. intros He. by apply Hnewton in He.
  - intros H1 H2. unfold calculate_irr_robust.
    destruct (length cash_flows <? 2)%nat; [eauto|].
    destruct (all_nonnegative cash_flows); [eauto|].
    destruct (all_nonpositive cash_flows); [eauto|].
    cbv zeta. rewrite (Hneq _ H1), (Hneq _ H2). cbn [orb mbind res_bind mret res_ret].
    match goal with
    | |- context [newton_block _ _ _ _ ?w0] =>
        destruct (newton_block_total w0) as (o & Ho & _)
    end.
    destruct (String.eqb method "newton" || false).
    + rewrite Ho. cbn [mbind res_bind]. destruct o; eauto.
    + cbn [mbind res_bind mret res_ret]. eauto.
  - intros H1 H2 H3. unfold calculate_irr_robust.
    destruct (length cash_flows <? 2)%nat.
    { eexists. split; [reflexivity|]. split; [reflexivity|by left]. }
    destruct (all_nonnegative cash_flows).
    { eexists. split; [reflexivity|]. split; [reflexivity|by left]. }
    destruct (all_nonpositive cash_flows).
    { eexists. split; [reflexivity|]. split; [reflexivity|by left]. }
    cbv zeta. rewrite (Hneq _ H1), (Hneq _ H2), (Hneq _ H3).
    cbn [orb mbind res_bind mret res_ret].
    eexists. split; [reflexivity|]. split; [reflexivity|by right].
Qed.

End IrrOutcomes.

(** A mocked solver answers 10 % for the stream [-100, 110], whose net
    present value at that rate is zero. *)
Lemma X15_converged_means_small_residual_witness :
  let d := Irr.converged 0.10
             (np_sum [-100 / (1 + 0.10) ^ 0; 110 / (1 + 0.10) ^ (0 + 1)])
             "Brentq (Bracketing)" VNone in
  (d !! "status" = Some (VStr "ERROR") \/
   d !! "status" = Some (VStr "CONVERGED") \/
   d !! "status" = Some (VStr "FAILED")) /\
  (d !! "status" = Some (VStr "CONVERGED") ->
   exists irr chk,
     d !! "irr" = Some (VNum irr) /\ d !! "npv_check" = Some (VNum chk) /\
     Irr.calculate_npv irr [-100; 110] = Ok chk /\ Qabs chk < 1e-8 * 10) /\
  (d !! "status" <> Some (VStr "CONVERGED") -> d !! "irr" = Some VNone).
Proof.
  intros d.
  apply (X15_converged_means_small_residual (solvers := Irr.answering 0.10)
           [-100; 110] "brentq" 0.10 1e-8 1000 d).
  reflexivity.
Defined.

(** Without SciPy the bracketing solver's [RuntimeError] escapes. *)
Lemma X16_only_the_bracketing_solver_raises_witness :
  Irr.calculate_irr_robust (solvers := Irr.no_solvers) [-100; 110] "brentq"
                           0.10 1e-8 1000
  = Raise (RuntimeError "brentq unavailable") /\
  exists d,
    Irr.calculate_irr_robust (solvers := Irr.no_solvers) [-100; 110] "newton"
                             0.10 1e-8 1000 = Ok d.
Proof.
  split; [reflexivity|].
  apply (X16_only_the_bracketing_solver_raises (solvers := Irr.no_solvers)
           [-100; 110] "newton" 0.10 1e-8 1000); discriminate.
Defined.

(* ====================================================================== *)
(** * Sign changes of a cash-flow stream *)
(* ====================================================================== *)

Section SignChanges.
Import Irr.

Lemma sign_changes_cons (a b : Q) (rest : list Q) :
  sign_changes (a :: b :: rest)
  = ((if Qlt_bool (a * b) 0 then 1 else 0) + sign_changes (b :: rest))%nat.
Proof. reflexivity. Qed.

Lemma sign_changes_bound (cash_flows : list Q) :
  (sign_changes cash_flows <= length cash_flows - 1)%nat.
Proof.
  induction cash_flows as [|a [|b rest] IH]; [cbn; lia..|].
  rewrite sign_changes_cons. cbn [length] in *.
  destruct (Qlt_bool (a * b) 0); lia.
Qed.

(** X17.  The count of sign changes that [calculate_irr_robust] uses for its
    multiple-root warning is at most the number of adjacent pairs, and a
    zero cash flow never counts as a change of sign, on either side.  So a
    stream that goes from negative to positive through a zero passes the
    input guards (it has a negative and a positive cash flow) and is counted
    as having no sign change at all. *)
Theorem X17_zero_hides_a_sign_change (cash_flows : list Q) :
  (sign_changes cash_flows <= length cash_flows - 1)%nat /\
  (forall a,
     sign_changes (a :: 0 :: cash_flows) = sign_changes (0 :: cash_flows)) /\
  (forall b,
     sign_changes (0 :: b :: cash_flows) = sign_changes (b :: cash_flows)) /\
  (forall a b, a < 0 -> 0 < b ->
     all_nonnegative [a; 0; b] = false /\
     all_nonpositive [a; 0; b] = false /\
     sign_changes [a; 0; b] = 0%nat).
Proof.
  assert (Hl : forall a, Qlt_bool (a * 0) 0 = false)
    by (intros a; apply Qlt_bool_false; lra).
  assert (Hr : forall b, Qlt_bool (0 * b) 0 = false)
    by (intros b; apply Qlt_bool_false; lra).
  split; [apply sign_changes_bound|]. split; [|split].
  - intros a. by rewrite sign_changes_cons, Hl.
  - intros b. by rewrite sign_changes_cons, Hr.
  - intros a b Ha Hb. split; [|split].
    + unfold all_nonnegative. cbn [forallb].
      replace (Qle_bool 0 a) with false; [reflexivity|].
      symmetry. by apply Qle_bool_false.
    + unfold all_nonpositive. cbn [forallb].
      replace (Qle_bool b 0) with false; [|symmetry; by apply Qle_bool_false].
      by rewrite !andb_false_r.
    + rewrite !sign_changes_cons, Hl, Hr. reflexivity.
Qed.

End SignChanges.

(* ====================================================================== *)
(** * optimize_capital_structure: objective names and reported violations *)
(* ====================================================================== *)

Section OptimizerReport.
Import V12 Optimizer.
Context {collaborators : Collaborators} {scipy : Scipy} {builtins : Builtins}.
Variable objective : string.
Variable constraints : gmap string Q.

Lemma py_max_zero_iff (v : Q) : py_max 0 v == 0 <-> v <= 0.
Proof.
  destruct (py_max_cases 0 v) as [[Hlt ->]|[Hle ->]]; split; intros; lra.
Qed.

(** X18.  An objective name that is none of 'equity_irr', 'project_irr' and
    'npv' is not refused: the objective function, and with it the whole
    optimisation, is that of 'equity_irr'. *)
Theorem X18_unknown_objective_is_equity_irr :
  objective <> "project_irr" -> objective <> "npv" ->
  (forall params debt_template x,
     objective_func objective params debt_template x
     = objective_func "equity_irr" params debt_template x) /\
  optimize_capital_structure objective constraints
  = optimize_capital_structure "equity_irr" constraints.
Proof.
  intros H1 H2.
  apply String.eqb_neq in H1. apply String.eqb_neq in H2.
  unfold optimize_capital_structure, optimize_body, objective_func,
    objective_body.
  rewrite H1, H2.
  destruct (String.eqb objective "equity_irr"); split; reflexivity.
Qed.

(** X19.  When the outer [try] block runs to its end, the point reported
    under the three [optimal_...] keys is the point [res.x] that the call to
    [minimize] returned, as it is, and the convergence flag is that of the
    optimiser.  The two constraint functions return at that point, and each
    reported violation is the negated constraint value floored at zero: it
    is zero whenever the constraint function is not negative there, and a
    positive violation means the constraint function is negative there. *)
Theorem X19_violations_match_constraints (params debt_template d : pydict) :
  optimize_body objective constraints params debt_template = Ok d ->
  exists r dratio usd_pct dfi_pct vi vd ci cd,
    minimize (objective_func objective params debt_template) x0 "SLSQP"
             bounds
             [nlc_irr constraints params debt_template;
              nlc_dscr constraints params debt_template] options = Ok r /\
    opt_x r = [dratio; usd_pct; dfi_pct] /\
    d !! "optimal_debt_ratio" = Some (VNum dratio) /\
    d !! "optimal_usd_pct" = Some (VNum usd_pct) /\
    d !! "optimal_dfi_pct" = Some (VNum dfi_pct) /\
    d !! "convergence" = Some (VBool (opt_success r)) /\
    d !! "constraint_violations"
    = Some (VDict {[ "irr_violation" := VNum vi;
                     "dscr_violation" := VNum vd ]}) /\
    constraint_min_irr constraints params debt_template (opt_x r) = Ok ci /\
    constraint_min_dscr constraints params debt_template (opt_x r) = Ok cd /\
    vi == py_max 0 (- ci) /\ vd == py_max 0 (- cd) /\
    (0 <= ci -> vi == 0) /\ (0 <= cd -> vd == 0) /\
    (0 < vi -> ci < 0) /\ (0 < vd -> cd < 0).
Proof.
  intros Hd.
  destruct (optimize_body_inv objective constraints params debt_template d Hd)
    as (r & dratio & usd_pct & dfi_pct & model & t_irr & e_irr & t_dscr
        & m_dscr & Hc).
  destruct Hc as [Hmin Ht Hti (v1 & Hg1 & Ha1) Htd (v2 & Hg2 & Ha2)
                  (equity_irr & project_irr & npv & min_dscr & _ & _ & _ & _
                   & ->)].
  exists r, dratio, usd_pct, dfi_pct, (py_max 0 (t_irr - e_irr)),
    (py_max 0 (t_dscr - m_dscr)), (e_irr - t_irr), (m_dscr - t_dscr).
  split; [exact Hmin|].
  assert (Hx : opt_x r = [dratio; usd_pct; dfi_pct]).
  { unfold trial in Ht. apply bind_ok_inv in Ht as ([[a b] c0] & Hu & Ht).
    ok_inv Ht. injection Ht as <- <- <- _.
    destruct (opt_x r) as [|x1 [|x2 [|x3 [|x4 rest]]]]; try discriminate Hu.
    by injection Hu as -> -> ->. }
  split; [exact Hx|]. do 5 (split; [reflexivity|]).
  split.
  { unfold constraint_min_irr, constraint_min_irr_body. rewrite Ht.
    cbn [mbind res_bind]. unfold getitem, constraint_threshold.
    rewrite Hg1, Hti. cbn [mbind res_bind]. rewrite Ha1. reflexivity. }
  split.
  { unfold constraint_min_dscr, constraint_min_dscr_body. rewrite Ht.
    cbn [mbind res_bind]. unfold getitem, constraint_threshold.
    rewrite Hg2, Htd. cbn [mbind res_bind]. rewrite Ha2. reflexivity. }
  assert (Hcompat : forall a b, a == b -> py_max 0 a == py_max 0 b).
  { intros a b Hab.
    destruct (py_max_cases 0 a) as [[? ->]|[? ->]];
      destruct (py_max_cases 0 b) as [[? ->]|[? ->]]; lra. }
  split; [apply Hcompat; ring|]. split; [apply Hcompat; ring|].
  pose proof (py_max_zero_iff (t_irr - e_irr)) as Zi.
  pose proof (py_max_zero_iff (t_dscr - m_dscr)) as Zd.
  pose proof (py_max_floor (t_irr - e_irr)) as Fi.
  pose proof (py_max_floor (t_dscr - m_dscr)) as Fd.
  split; [intros; apply Zi; lra|]. split; [intros; apply Zd; lra|].
  split; intros Hpos.
  - destruct (Qlt_le_dec (e_irr - t_irr) 0) as [Hn|Hn]; [exact Hn|].
    assert (py_max 0 (t_irr - e_irr) == 0) by (apply Zi; lra). lra.
  - destruct (Qlt_le_dec (m_dscr - t_dscr) 0) as [Hn|Hn]; [exact Hn|].
    assert (py_max 0 (t_dscr - m_dscr) == 0) by (apply Zd; lra). lra.
Qed.

End OptimizerReport.

(** The objective name 'irr' is taken for 'equity_irr'. *)
Lemma X18_unknown_objective_is_equity_irr_witness :
  Optimizer.optimize_capital_structure
    (collaborators := Optimizer.flat_model)
    (scipy := Optimizer.stalled_search)
    (builtins := Optimizer.class_and_argument)
    "irr" Optimizer.default_constraints
  = Optimizer.optimize_capital_structure
      (collaborators := Optimizer.flat_model)
      (scipy := Optimizer.stalled_search)
      (builtins := Optimizer.class_and_argument)
      "equity_irr" Optimizer.default_constraints.
Proof.
  apply (X18_unknown_objective_is_equity_irr
           (collaborators := Optimizer.flat_model)
           (scipy := Optimizer.stalled_search)
           (builtins := Optimizer.class_and_argument) "irr"
           Optimizer.default_constraints); discriminate.
Defined.

(** On the model that always reports an equity IRR of 18 % and a minimum DSCR
    of 1.1, against thresholds of 15 % and 1.3, with an optimiser that stops
    at its starting point. *)
Lemma X19_violations_match_constraints_witness :
  exists d vi vd ci cd,
    Optimizer.optimize_body (collaborators := Optimizer.flat_model)
      (scipy := Optimizer.stalled_search) Optimizer.default_objective
      Optimizer.default_constraints {[ "total_capex" := VNum 155 ]} ∅
    = Ok d /\
    d !! "optimal_debt_ratio" = Some (VNum 0.8) /\
    d !! "constraint_violations"
    = Some (VDict {[ "irr_violation" := VNum vi;
                     "dscr_violation" := VNum vd ]}) /\
    Optimizer.constraint_min_irr (collaborators := Optimizer.flat_model)
      Optimizer.default_constraints {[ "total_capex" := VNum 155 ]} ∅
      Optimizer.x0 = Ok ci /\
    Optimizer.constraint_min_dscr (collaborators := Optimizer.flat_model)
      Optimizer.default_constraints {[ "total_capex" := VNum 155 ]} ∅
      Optimizer.x0 = Ok cd /\
    vi == 0 /\ vd == 0.2 /\ ci == 0.03 /\ cd == -0.2.
Proof.
  destruct (Optimizer.optimize_body (collaborators := Optimizer.flat_model)
              (scipy := Optimizer.stalled_search) Optimizer.default_objective
              Optimizer.default_constraints {[ "total_capex" := VNum 155 ]} ∅)
    as [d|e] eqn:Hd; [|discriminate Hd].
  exists d.
  destruct (X19_violations_match_constraints
              (collaborators := Optimizer.flat_model)
              (scipy := Optimizer.stalled_search) Optimizer.default_objective
              Optimizer.default_constraints {[ "total_capex" := VNum 155 ]} ∅
              d Hd)
    as (r & dratio & usd_pct & dfi_pct & vi & vd & ci & cd & Hmin & Hx & Ho
        & _ & _ & _ & Hv & Hci & Hcd & Hvi & Hvd & _).
  injection Hmin as <-. cbn [Optimizer.opt_x] in Hx, Hci, Hcd.
  injection Hx as <- _ _.
  injection Hci as <-. injection Hcd as <-.
  exists vi, vd, (0.18 - 0.15), (1.1 - 1.3).
  split; [reflexivity|]. split; [exact Ho|]. split; [exact Hv|].
  split; [reflexivity|]. split; [reflexivity|].
  split; [rewrite Hvi; reflexivity|]. split; [rewrite Hvd; reflexivity|].
  split; reflexivity.
Defined.

(* ====================================================================== *)
(** * Monte Carlo: all draws or nothing *)
(* ====================================================================== *)

Section MonteCarloRuns.
Import V12 MonteCarlo.
Context {collaborators : Collaborators} {numpy : NumpyRandom}.

Lemma mapM_res_Forall {A B} (f : A -> res B) (l : list A) (ys : list B) :
  mapM f l = Ok ys -> Forall (fun x => exists y, f x = Ok y) l.
Proof.
  revert ys. induction l as [|x l IH]; intros ys Hm; [constructor|].
  apply mapM_res_cons_inv in Hm as (y & ys' & Hy & Hm & ->).
  constructor; eauto.
Qed.

(** A failing [mapM] failed at its first failing element. *)
Lemma mapM_res_first_raise {A B} (f : A -> res B) (l : list A) (e : exn) :
  mapM f l = Raise e ->
  exists i x,
    l !! i = Some x /\ f x = Raise e /\
    forall j y, (j < i)%nat -> l !! j = Some y -> exists b, f y = Ok b.
Proof.
  induction l as [|x l IH]; [discriminate|].
  cbn [mapM]. destruct (f x) as [b|e0] eqn:Hx; cbn [mbind res_bind].
  - destruct (mapM f l) as [ys|e1] eqn:Hl; [discriminate|].
    cbn [mbind res_bind]. intros [= <-].
    destruct (IH eq_refl) as (i & x' & Hi & Hf & Hbefore).
    exists (S i), x'. split; [exact Hi|]. split; [exact Hf|].
    intros [|j] y Hj Hy.
    + injection Hy as <-. eauto.
    + apply (Hbefore j); [lia|exact Hy].
  - intros [= <-]. exists 0%nat, x. split; [reflexivity|].
    split; [exact Hx|]. intros j y Hj. lia.
Qed.

Lemma mc_iteration_numbered (params debt_template : pydict)
    (scenarios : gmap string (list Q)) (i : Z) (row : pydict) :
  mc_iteration params debt_template scenarios i = Ok row ->
  row !! "iteration" = Some (VInt (i + 1)).
Proof.
  unfold mc_iteration. intros Hrow. ok_inv Hrow. by injection Hrow as <-.
Qed.

(** X20.  [run_monte_carlo] has no exception handler: it returns a frame
    exactly when the two default constructors and the sampler returned and
    every single draw was evaluated without an exception; otherwise it
    raises what the first of them to fail raised (the constructors, then
    the sampler, then the draws in order) and returns no partial result.
    The rows of a returned frame are numbered from 1 in the order of the
    draws, and each holds the five sampled values of its draw. *)
Theorem X20_all_draws_or_nothing (os : Entropy) (iterations : Z)
    (seed : option Z) :
  ((exists rows, run_monte_carlo os iterations seed = Ok rows) <->
   (exists params debt_template scenarios,
      create_default_parameters = Ok params /\
      create_default_debt_structure = Ok debt_template /\
      generate_mc_parameters os iterations seed = Ok scenarios /\
      forall i, (0 <= i < iterations)%Z ->
        exists row, mc_iteration params debt_template scenarios i = Ok row)) /\
  (forall e, run_monte_carlo os iterations seed = Raise e ->
     create_default_parameters = Raise e \/
     exists params,
       create_default_parameters = Ok params /\
       (create_default_debt_structure = Raise e \/
        exists debt_template,
          create_default_debt_structure = Ok debt_template /\
          (generate_mc_parameters os iterations seed = Raise e \/
           exists scenarios i,
             generate_mc_parameters os iterations seed = Ok scenarios /\
             (0 <= i < iterations)%Z /\
             mc_iteration params debt_template scenarios i = Raise e /\
             forall j, (0 <= j < i)%Z ->
               exists row,
                 mc_iteration params debt_template scenarios j = Ok row))) /\
  (forall rows, run_monte_carlo os iterations seed = Ok rows ->
     length rows = Z.to_nat iterations /\
     exists scenarios,
       generate_mc_parameters os iterations seed = Ok scenarios /\
       forall (i : nat) (row : pydict), rows !! i = Some row ->
         row !! "iteration" = Some (VInt (Z.of_nat i + 1)) /\
         forall k, k ∈ sampled_fields ->
           exists v, scenario scenarios k (Z.of_nat i) = Ok v /\
                     row !! k = Some (VNum v)).
Proof.
  unfold run_monte_carlo. split; [|split].
  - split.
    + intros [rows Hrun].
      apply bind_ok_inv in Hrun as (params & Hp & Hrun).
      apply bind_ok_inv in Hrun as (debt_template & Ht & Hrun).
      apply bind_ok_inv in Hrun as (sc & Hs & Hrows).
      exists params, debt_template, sc.
      split; [exact Hp|]. split; [exact Ht|]. split; [exact Hs|].
      intros i Hi.
      pose proof (mapM_res_Forall _ _ _ Hrows) as Hall.
      rewrite Forall_forall in Hall. apply Hall.
      apply elem_of_seqZ. lia.
    + intros (params & debt_template & sc & Hp & Ht & Hs & Hall).
      rewrite Hp, Ht, Hs. cbn [mbind res_bind].
      apply mapM_res_ok. apply Forall_forall. intros i Hi.
      apply Hall. apply elem_of_seqZ in Hi. lia.
  - intros e.
    destruct create_default_parameters as [params|e0];
      cbn [mbind res_bind]; [|intros [= <-]; by left].
    intros Hrun. right. exists params. split; [reflexivity|].
    destruct create_default_debt_structure as [debt_template|e0];
      cbn [mbind res_bind] in Hrun; [|injection Hrun as <-; by left].
    right. exists debt_template. split; [reflexivity|].
    destruct (generate_mc_parameters os iterations seed) as [sc|e0] eqn:Hs;
      cbn [mbind res_bind] in Hrun; [|injection Hrun as <-; by left].
    right.
    destruct (mapM_res_first_raise _ _ _ Hrun) as (n & i & Hn & Hf & Hbefore).
    apply lookup_seqZ in Hn as [-> Hn].
    exists sc, (0 + Z.of_nat n)%Z. split; [reflexivity|].
    split; [lia|]. split; [exact Hf|]. intros j Hj.
    apply (Hbefore (Z.to_nat j)); [lia|].
    apply lookup_seqZ. lia.
  - intros rows Hrun.
    apply bind_ok_inv in Hrun as (params & Hp & Hrun).
    apply bind_ok_inv in Hrun as (debt_template & Ht & Hrun).
    apply bind_ok_inv in Hrun as (sc & Hs & Hrows).
    split.
    + rewrite (mapM_res_length _ _ _ Hrows). apply length_seqZ.
    + exists sc. split; [exact Hs|]. intros i row Hrow.
      destruct (mapM_res_lookup _ _ _ _ _ Hrows Hrow) as (x & Hx & Hit).
      apply lookup_seqZ in Hx as [-> _]. rewrite Z.add_0_l in Hit.
      split; [exact (mc_iteration_numbered _ _ sc _ _ Hit)|].
      exact (mc_iteration_sampled _ _ sc _ _ Hit).
Qed.

End MonteCarloRuns.

(* ====================================================================== *)
(** * Currency conversion in the rows of the ledger *)
(* ====================================================================== *)

Section LedgerCurrency.
Import Model.

(** X21.  In every row of the ledger the dollar tariff converted back at
    the FX rate of the year is the fixed rupee tariff (per MWh), so the
    revenue converted back into rupees is generation times the rupee tariff
    whatever the depreciation of the rupee; and EBITDA is revenue net of the
    levy less operating cost. *)
Theorem X21_rupee_revenue_ignores_fx (c : Config) :
  ledger_defined c ->
  exists df,
    build_full_model c = Ok df /\
    forall i r, ledger_row df i = Some r ->
      ~ r_FX r == 0 /\
      r_Tariff_USD_MWh r * r_FX r == TARIFF_LKR_KWH c * 1000 /\
      r_Revenue_USD_M r * 1000000 * r_FX r
      == r_Generation_MWh r * (TARIFF_LKR_KWH c * 1000) /\
      r_EBITDA r == r_Revenue_USD_M r * (1 - SSCL_RATE c) - r_OPEX_USD_M r.
Proof.
  intros Hl. destruct (build_full_model_ok c Hl) as [df Hb].
  exists df. split; [exact Hb|]. intros i r Hr.
  destruct (ledger_row_engine c df i r Hb Hr)
    as (Hy & Hyr & Hgen & Hfx & Htar & Hrev & Hsscl & Hopex).
  destruct (ledger_row_chain c df i r Hb Hr)
    as (d & Hd & Hebitda & _).
  unfold compute_revenue in Hrev. rewrite Hgen, Htar in Hrev.
  cbn [mbind res_bind mret res_ret] in Hrev. injection Hrev as Hrev.
  unfold compute_sscl, compute_revenue in Hsscl. rewrite Hgen, Htar in Hsscl.
  cbn [mbind res_bind mret res_ret] in Hsscl. injection Hsscl as Hsscl.
  unfold compute_tariff_usd in Htar. rewrite Hfx in Htar.
  cbn [mbind res_bind] in Htar.
  apply bind_ok_inv in Htar as (t & Ht & Htar).
  apply py_div_inv in Ht as [Hnz ->]. injection Htar as Htar.
  assert (Etar : r_Tariff_USD_MWh r * r_FX r == TARIFF_LKR_KWH c * 1000).
  { rewrite <- Htar. field. exact Hnz. }
  split; [exact Hnz|]. split; [exact Etar|]. split.
  - rewrite <- Etar, <- Hrev. field.
  - rewrite Hebitda, <- Hsscl, <- Hrev. ring.
Qed.

Lemma X21_rupee_revenue_ignores_fx_witness :
  exists df,
    build_full_model module_constants = Ok df /\
    forall i r, ledger_row df i = Some r ->
      ~ r_FX r == 0 /\
      r_Tariff_USD_MWh r * r_FX r == TARIFF_LKR_KWH module_constants * 1000 /\
      r_Revenue_USD_M r * 1000000 * r_FX r
      == r_Generation_MWh r * (TARIFF_LKR_KWH module_constants * 1000) /\
      r_EBITDA r
      == r_Revenue_USD_M r * (1 - SSCL_RATE module_constants)
         - r_OPEX_USD_M r.
Proof.
  apply (X21_rupee_revenue_ignores_fx module_constants).
  exact module_constants_ledger_defined.
Defined.

End LedgerCurrency.
